(** * netrunner server: firewall hook, request validator and audit store

    A shallow embedding of the Go sources
      - [hook.Firewall] and [hook.checkMessage]          (firewall hook),
      - [maliciousIntent.Run]                            (classifier stub),
      - [firewall.Firewall], [firewall.Config]           (firewall configuration),
      - [requests.ParseGenerateRequest]                  (validator),
      - [audit.LogRequest], [audit.LogResponse],
        [audit.LogFirewallEvent], [audit.GetTrace]       (audit store, package functions),
      - [Store.LogResponse], [Store.GetTrace]            (audit store, pooled variant),
    together with the properties of them that the specification states.

    Conventions.  A Go [error] is its message.  A function returning
    [(T, error)] returns a [result T].  Code that writes to the database takes
    the database and returns the new one.  The mutex that every audit
    operation takes and releases is not represented: each operation is
    modelled as one indivisible step. *)

From Stdlib Require Import List String Ascii ZArith NArith Bool Lia Floats.
Import ListNotations.

Local Open Scope string_scope.
Local Open Scope list_scope.

Set Warnings "-register-all".

(* ================================================================= *)
(** ** Errors and results *)

Definition error := string.

Inductive result (A : Type) : Type :=
| Ok (a : A)
| Err (e : error).
Arguments Ok {A} a.
Arguments Err {A} e.

Definition bind {A B} (r : result A) (k : A -> result B) : result B :=
  match r with
  | Ok a => k a
  | Err e => Err e
  end.

Notation "x <- r ;; k" := (bind r (fun x => k))
  (at level 61, r at next level, right associativity).

Definition is_ok {A} (r : result A) : bool :=
  match r with Ok _ => true | Err _ => false end.

(** [fmt.Errorf("prefix: %w", err)]: the wrapped error's message follows the prefix. *)
Definition wrap {A} (prefix : string) (r : result A) : result A :=
  match r with
  | Ok a => Ok a
  | Err e => Err (prefix ++ ": " ++ e)%string
  end.

(** A call whose error the source discards: the destination keeps its zero value. *)
Definition ignoring_error {A} (zero : A) (r : result A) : A :=
  match r with
  | Ok a => a
  | Err _ => zero
  end.

(** [[]byte]: a nil slice and an empty slice are both [[]]. *)
Definition bytes := list ascii.

Definition quote : ascii := "034"%char.
Definition backslash : ascii := "092"%char.

(* ================================================================= *)
(** ** Values of type [interface{}] and [map[string]interface{}] *)

(** The dynamic values that reach [encoding/json] from a
    [map[string]interface{}].  A number is the decimal [m * 10^e].  [AChan]
    stands for the values [encoding/json] cannot encode (channels, functions). *)
Inductive any : Type :=
| ANil
| ABool (b : bool)
| ANum (m e : Z)
| AStr (s : string)
| ASlice (l : list any)
| AMap (kvs : list (string * any))
| AChan.

(** [map[string]interface{}]: [None] is the nil map, [Some kvs] a map with the
    members [kvs] in key order. *)
Definition gomap := option (list (string * any)).

Definition nilmap : gomap := None.

(** [len(m)] of a map. *)
Definition maplen (m : gomap) : nat :=
  match m with
  | None => 0
  | Some kvs => List.length kvs
  end.

(* ================================================================= *)
(** ** Library interfaces *)

(** [encoding/json], at the one type the audit store uses it at:
    [json.Marshal(m)] for a [map[string]interface{}] and
    [json.Unmarshal(data, &m)] for a nil [m] of that type.  [Unmarshal]
    returns an error and writes into [m]; it may have written into [m]
    before it returns an error, so the call gives both: the map it leaves
    in [m] and the error, [None] for [nil]. *)
Class EncodingJSON := {
  json_Marshal : gomap -> result bytes;
  json_Unmarshal_into : bytes -> gomap * option error
}.

(** [err := json.Unmarshal(data, &m)] where the caller checks [err] and
    uses [m] only when it is [nil]. *)
Definition json_Unmarshal {JSON : EncodingJSON} (data : bytes) : result gomap :=
  match json_Unmarshal_into data with
  | (m, None) => Ok m
  | (_, Some e) => Err e
  end.

(** [json.Unmarshal(data, &m)] where the caller drops the error and uses
    [m] as the call left it. *)
Definition json_Unmarshal_unchecked {JSON : EncodingJSON} (data : bytes) : gomap :=
  fst (json_Unmarshal_into data).

(** [net/netip]: an address is represented by its canonical text, the value of
    [Addr.String()]. *)
Definition Addr := string.

Class NetIP := {
  ParseAddr : string -> result Addr
}.

Definition Addr_String (a : Addr) : string := a.

(* ================================================================= *)
(** ** [pgtype] *)

Module pgtype.

(** [pgtype.UUID]: the sixteen bytes as a 128-bit big-endian number. *)
Record UUID := mkUUID { Bytes : N; UUID_Valid : bool }.

Definition UUID_zero : UUID := mkUUID 0%N false.

Definition hexchar (n : N) : ascii :=
  match n with
  | 0 => "0" | 1 => "1" | 2 => "2" | 3 => "3" | 4 => "4" | 5 => "5"
  | 6 => "6" | 7 => "7" | 8 => "8" | 9 => "9" | 10 => "a" | 11 => "b"
  | 12 => "c" | 13 => "d" | 14 => "e" | _ => "f"
  end%N%char.

Definition hexval (c : ascii) : option N :=
  let n := N_of_ascii c in
  (if (48 <=? n) && (n <=? 57) then Some (n - 48)
   else if (97 <=? n) && (n <=? 102) then Some (n - 87)
   else if (65 <=? n) && (n <=? 70) then Some (n - 55)
   else None)%N.

(** The [k] low hexadecimal digits of [u], most significant first. *)
Fixpoint hexdigits (k : nat) (u : N) : list ascii :=
  match k with
  | O => []
  | S k' => hexdigits k' (u / 16)%N ++ [hexchar (u mod 16)%N]
  end.

(** [hex.DecodeString], with the bytes read as one big-endian number. *)
Fixpoint hexdecode (acc : N) (s : list ascii) : option N :=
  match s with
  | [] => Some acc
  | c :: r =>
      match hexval c with
      | Some d => hexdecode (16 * acc + d)%N r
      | None => None
      end
  end.

Definition slice {A} (l : list A) (lo hi : nat) : list A :=
  firstn (hi - lo) (skipn lo l).

(** [encodeUUID]: 8-4-4-4-12 lower-case hexadecimal. *)
Definition encodeUUID (u : N) : string :=
  let d := hexdigits 32 u in
  let dash := "-"%char in
  string_of_list_ascii
    (slice d 0 8 ++ dash :: slice d 8 12 ++ dash :: slice d 12 16 ++
     dash :: slice d 16 20 ++ dash :: slice d 20 32).

(** [parseUUID]: a 36-character source loses the characters at positions
    8, 13, 18 and 23 (whatever they are); a 32-character source is taken as
    is; then the hexadecimal digits are decoded. *)
Definition parseUUID (src : string) : result N :=
  let s := list_ascii_of_string src in
  let digits :=
    match List.length s with
    | 36 => Some (slice s 0 8 ++ slice s 9 13 ++ slice s 14 18 ++
                  slice s 19 23 ++ skipn 24 s)
    | 32 => Some s
    | _ => None
    end in
  match digits with
  | None => Err ("cannot parse UUID " ++ src)%string
  | Some ds =>
      match hexdecode 0%N ds with
      | Some n => Ok n
      | None => Err "encoding/hex: invalid byte"
      end
  end.

(** [UUID.Scan(src string)]. *)
Definition UUID_Scan (src : string) : result UUID :=
  n <- parseUUID src ;; Ok (mkUUID n true).

(** [UUID.String()]. *)
Definition UUID_String (u : UUID) : string :=
  if UUID_Valid u then encodeUUID (Bytes u) else "".

Definition UUID_eqb (a b : UUID) : bool :=
  (Bytes a =? Bytes b)%N && Bool.eqb (UUID_Valid a) (UUID_Valid b).

Record Bool := mkBool { Bool_Bool : bool; Bool_Valid : bool }.
Record Text := mkText { Text_String : string; Text_Valid : bool }.
Record Int4 := mkInt4 { Int32 : Z; Int4_Valid : bool }.

Definition Bool_zero : Bool := mkBool false false.
Definition Text_zero : Text := mkText EmptyString false.
Definition Int4_zero : Int4 := mkInt4 0%Z false.

(** [Bool.Scan(src bool)] and [Text.Scan(src string)] cannot fail. *)
Definition Bool_Scan (b : bool) : result Bool := Ok (mkBool b true).
Definition Text_Scan (s : string) : result Text := Ok (mkText s true).

(** [Int4.Scan(src int64)]. *)
Definition Int4_Scan (n : Z) : result Int4 :=
  if (n <? - 2147483648)%Z then Err "value is less than minimum value for Int4"
  else if (2147483647 <? n)%Z then Err "value is greater than maximum value for Int4"
  else Ok (mkInt4 n true).

(** [pgtype.Numeric]: the decimal [Int * 10^Exp], or NaN, or an infinity
    ([InfinityModifier] is 1, -1 or 0 for none). *)
Record Numeric := mkNumeric {
  Int : Z;
  Exp : Z;
  NaN : bool;
  InfinityModifier : Z;
  Numeric_Valid : bool
}.

Definition Numeric_zero : Numeric := mkNumeric 0%Z 0%Z false 0%Z false.

(** Round-half-even of [m * 2^e] for [m >= 0]. *)
Definition round_half_even_pow2 (m e : Z) : Z :=
  if (0 <=? e)%Z then (m * 2 ^ e)%Z
  else
    let d := (2 ^ (- e))%Z in
    let q := (m / d)%Z in
    let r := (m mod d)%Z in
    match (2 * r ?= d)%Z with
    | Lt => q
    | Gt => (q + 1)%Z
    | Eq => if Z.even q then q else (q + 1)%Z
    end.

(** [riskScore.Scan(fmt.Sprintf("%f", x))] for a [float64] [x].

    [%f] prints the exact value of [x] rounded half-even to six decimals;
    [Scan] reads the digits back as [Int] with [Exp = -6].  NaN prints as
    the text NaN, which [Scan] accepts; an infinity prints as +Inf or -Inf,
    which [Scan] rejects. *)
Definition Numeric_Scan_float (x : float) : result Numeric :=
  match Prim2SF x with
  | S754_nan => Ok (mkNumeric 0%Z 0%Z true 0%Z true)
  | S754_infinity s =>
      Err ((if s then "-Inf" else "+Inf") ++ " is not a number")%string
  | S754_zero _ => Ok (mkNumeric 0%Z (-6)%Z false 0%Z true)
  | S754_finite s m e =>
      let r := round_half_even_pow2 (Z.pos m * 1000000)%Z e in
      Ok (mkNumeric (if s then (- r)%Z else r) (-6)%Z false 0%Z true)
  end.

(** [strconv.ParseFloat] of the text [m] followed by e and [e]: the
    [float64] nearest to [m * 10^e], or a range error when that is an
    infinity. *)
Definition ParseFloat_dec (m e : Z) : result float :=
  let sf :=
    if (0 <=? e)%Z then binary_normalize prec emax (m * 10 ^ e)%Z 0%Z (m <? 0)%Z
    else
      let d := (10 ^ (- e))%Z in
      let a := Z.abs m in
      let s := Z.max 0 (64 + Z.log2 d - Z.log2 a)%Z in
      let q := ((a * 2 ^ s) / d)%Z in
      let sticky := (if (a * 2 ^ s) mod d =? 0 then 0 else 1)%Z in
      let q' := (2 * q + sticky)%Z in
      binary_normalize prec emax (if (m <? 0)%Z then (- q')%Z else q')
                       (- (s + 1))%Z (m <? 0)%Z in
  match sf with
  | S754_infinity _ => Err "value out of range"
  | _ => Ok (SF2Prim sf)
  end.

Record Float8 := mkFloat8 { Float64 : float; Float8_Valid : bool }.

(** [Numeric.Float64Value()]. *)
Definition Float64Value (n : Numeric) : result Float8 :=
  if negb (Numeric_Valid n) then Ok (mkFloat8 0%float false)
  else if NaN n then Ok (mkFloat8 nan true)
  else if (InfinityModifier n =? 1)%Z then Ok (mkFloat8 infinity true)
  else if (InfinityModifier n =? -1)%Z then Ok (mkFloat8 neg_infinity true)
  else f <- ParseFloat_dec (Int n) (Exp n) ;; Ok (mkFloat8 f true).

End pgtype.

(* ================================================================= *)
(** ** A JSON codec

    An executable instance of [EncodingJSON] for a fragment of JSON:
    compact text with no insignificant white space, numbers written as an
    integer mantissa with an exponent and kept exactly, strings in which
    only the quote and the backslash are escaped, object members in the
    order of the list.  It stands in for the library where a concrete run
    is needed; the theorems about the audit store hold for every
    instance. *)

Module json.

Definition is_digit (c : ascii) : bool :=
  let n := N_of_ascii c in ((48 <=? n) && (n <=? 57))%N.

Definition digit_char (n : N) : ascii := ascii_of_N (48 + n).
Definition digit_val (c : ascii) : N := (N_of_ascii c - 48)%N.

Fixpoint decdigits (fuel : nat) (n : N) : list ascii :=
  match fuel with
  | O => []
  | S f =>
      if (n <? 10)%N then [digit_char n]
      else decdigits f (n / 10)%N ++ [digit_char (n mod 10)%N]
  end.

Definition print_N (n : N) : list ascii := decdigits (S (N.to_nat (N.log2 n))) n.

Definition print_Z (z : Z) : list ascii :=
  if (z <? 0)%Z then "-"%char :: print_N (Z.abs_N z) else print_N (Z.abs_N z).

Fixpoint escape (s : list ascii) : list ascii :=
  match s with
  | [] => []
  | c :: r =>
      if Ascii.eqb c quote || Ascii.eqb c backslash
      then backslash :: c :: escape r
      else c :: escape r
  end.

Definition print_string (s : string) : list ascii :=
  quote :: escape (list_ascii_of_string s) ++ [quote].

Definition sep_by (sep : ascii) (parts : list (list ascii)) : list ascii :=
  match parts with
  | [] => []
  | p :: ps => p ++ flat_map (fun q => sep :: q) ps
  end.

(** The text of a value; [AChan] has none and prints as nothing. *)
Fixpoint print (v : any) : list ascii :=
  match v with
  | ANil => list_ascii_of_string "null"
  | ABool true => list_ascii_of_string "true"
  | ABool false => list_ascii_of_string "false"
  | ANum m e =>
      if (e =? 0)%Z then print_Z m else print_Z m ++ "e"%char :: print_Z e
  | AStr s => print_string s
  | ASlice l => "["%char :: sep_by ","%char (map print l) ++ ["]"%char]
  | AMap kvs =>
      "{"%char ::
        sep_by ","%char
          (map (fun kv => print_string (fst kv) ++ ":"%char :: print (snd kv)) kvs)
        ++ ["}"%char]
  | AChan => []
  end.

(** The values [json.Marshal] accepts. *)
Fixpoint encodable (v : any) : bool :=
  match v with
  | ASlice l => forallb encodable l
  | AMap kvs => forallb (fun kv => encodable (snd kv)) kvs
  | AChan => false
  | _ => true
  end.

Definition of_gomap (m : gomap) : any :=
  match m with
  | None => ANil
  | Some kvs => AMap kvs
  end.

Definition Marshal (m : gomap) : result bytes :=
  if encodable (of_gomap m) then Ok (print (of_gomap m))
  else Err "json: unsupported type: chan int".

Fixpoint span_digits (s : list ascii) : list ascii * list ascii :=
  match s with
  | c :: r =>
      if is_digit c then let (d, r') := span_digits r in (c :: d, r')
      else ([], s)
  | [] => ([], [])
  end.

Definition digits_value (ds : list ascii) : N :=
  fold_left (fun a c => (10 * a + digit_val c)%N) ds 0%N.

Definition parse_N (s : list ascii) : option (N * list ascii) :=
  match span_digits s with
  | ([], _) => None
  | (ds, r) => Some (digits_value ds, r)
  end.

Definition parse_Z (s : list ascii) : option (Z * list ascii) :=
  match s with
  | c :: r =>
      if Ascii.eqb c "-" then
        match parse_N r with
        | Some (n, r') => Some ((- Z.of_N n)%Z, r')
        | None => None
        end
      else
        match parse_N s with
        | Some (n, r') => Some (Z.of_N n, r')
        | None => None
        end
  | [] => None
  end.

Definition parse_number (s : list ascii) : option (any * list ascii) :=
  match parse_Z s with
  | Some (m, c :: r) =>
      if Ascii.eqb c "e" then
        match parse_Z r with
        | Some (e, r') => Some (ANum m e, r')
        | None => None
        end
      else Some (ANum m 0, c :: r)
  | Some (m, []) => Some (ANum m 0, [])
  | None => None
  end.

(** The characters of a string literal after its opening quote. *)
Fixpoint parse_string_body (s : list ascii) : option (list ascii * list ascii) :=
  match s with
  | [] => None
  | c :: r =>
      if Ascii.eqb c quote then Some ([], r)
      else if Ascii.eqb c backslash then
        match r with
        | c' :: r' =>
            if Ascii.eqb c' quote || Ascii.eqb c' backslash then
              match parse_string_body r' with
              | Some (t, rest) => Some (c' :: t, rest)
              | None => None
              end
            else None
        | [] => None
        end
      else
        match parse_string_body r with
        | Some (t, rest) => Some (c :: t, rest)
        | None => None
        end
  end.

Definition parse_string (s : list ascii) : option (string * list ascii) :=
  match s with
  | c :: r =>
      if Ascii.eqb c quote then
        match parse_string_body r with
        | Some (t, rest) => Some (string_of_list_ascii t, rest)
        | None => None
        end
      else None
  | [] => None
  end.

Fixpoint parse_value (fuel : nat) (s : list ascii) : option (any * list ascii) :=
  match fuel with
  | O => None
  | S f =>
      match s with
      | [] => None
      | c :: r =>
          if Ascii.eqb c "n" then
            match r with
            | "u" :: "l" :: "l" :: r' => Some (ANil, r')
            | _ => None
            end
          else if Ascii.eqb c "t" then
            match r with
            | "r" :: "u" :: "e" :: r' => Some (ABool true, r')
            | _ => None
            end
          else if Ascii.eqb c "f" then
            match r with
            | "a" :: "l" :: "s" :: "e" :: r' => Some (ABool false, r')
            | _ => None
            end
          else if Ascii.eqb c "[" then
            match r with
            | c' :: r' =>
                if Ascii.eqb c' "]" then Some (ASlice [], r')
                else
                  match parse_elems f r with
                  | Some (l, r'') => Some (ASlice l, r'')
                  | None => None
                  end
            | [] => None
            end
          else if Ascii.eqb c "{" then
            match r with
            | c' :: r' =>
                if Ascii.eqb c' "}" then Some (AMap [], r')
                else
                  match parse_members f r with
                  | Some (kvs, r'') => Some (AMap kvs, r'')
                  | None => None
                  end
            | [] => None
            end
          else if Ascii.eqb c quote then
            match parse_string s with
            | Some (t, r') => Some (AStr t, r')
            | None => None
            end
          else parse_number s
      end%char
  end
with parse_elems (fuel : nat) (s : list ascii) : option (list any * list ascii) :=
  match fuel with
  | O => None
  | S f =>
      match parse_value f s with
      | Some (v, "," :: r) =>
          match parse_elems f r with
          | Some (l, r') => Some (v :: l, r')
          | None => None
          end
      | Some (v, "]" :: r) => Some ([v], r)
      | _ => None
      end%char
  end
with parse_members (fuel : nat) (s : list ascii)
     : option (list (string * any) * list ascii) :=
  match fuel with
  | O => None
  | S f =>
      match parse_string s with
      | Some (k, ":" :: r) =>
          match parse_value f r with
          | Some (v, "," :: r') =>
              match parse_members f r' with
              | Some (kvs, r'') => Some ((k, v) :: kvs, r'')
              | None => None
              end
          | Some (v, "}" :: r') => Some ([(k, v)], r')
          | _ => None
          end
      | _ => None
      end%char
  end.

(** [json.Unmarshal(data, &m)] for a nil [map[string]interface{}] [m]: the
    text must be one JSON value; an object gives its map, null leaves the
    map nil, any other value is a type error. *)
Definition Unmarshal (data : bytes) : result gomap :=
  match data with
  | [] => Err "unexpected end of JSON input"
  | _ =>
      match parse_value (S (List.length data)) data with
      | Some (AMap kvs, []) => Ok (Some kvs)
      | Some (ANil, []) => Ok None
      | Some (_, []) =>
          Err "json: cannot unmarshal value into Go value of type map[string]interface {}"
      | _ => Err "invalid character in JSON input"
      end
  end.

(** Every error of this decoder is found before anything is stored, so a
    failed call leaves the map nil. *)
Definition Unmarshal_into (data : bytes) : gomap * option error :=
  match Unmarshal data with
  | Ok m => (m, None)
  | Err e => (nilmap, Some e)
  end.

Definition codec : EncodingJSON :=
  {| json_Marshal := Marshal; json_Unmarshal_into := Unmarshal_into |}.

(** The text that may follow a number: none, or a character that is
    neither a digit nor the exponent mark. *)
Definition no_digit_ahead (rest : list ascii) : Prop :=
  match rest with
  | [] => True
  | c :: _ => is_digit c = false
  end.

Definition delimited (rest : list ascii) : Prop :=
  match rest with
  | [] => True
  | c :: _ => is_digit c = false /\ Ascii.eqb c "e" = false
  end.

(** The text of one member of an object. *)
Definition member_text (kv : string * any) : list ascii :=
  print_string (fst kv) ++ ":"%char :: print (snd kv).

End json.

(* ================================================================= *)
(** ** An address parser

    An executable instance of [NetIP] for dotted-decimal IPv4 text only:
    four fields of one to three digits, none above 255, none with a leading
    zero.  The library also reads IPv6 text, which this instance rejects,
    and quotes the input in its error text.  It stands in for the library
    where a concrete run is needed; the theorems about the audit store hold
    for every instance. *)

Module netip.

Fixpoint split_dots (s : list ascii) : list (list ascii) :=
  match s with
  | [] => [[]]
  | c :: r =>
      if Ascii.eqb c "."%char then [] :: split_dots r
      else
        match split_dots r with
        | f :: fs => (c :: f) :: fs
        | [] => [[c]]
        end
  end.

Definition field_ok (f : list ascii) : bool :=
  match f with
  | [] => false
  | c :: r =>
      forallb json.is_digit f
      && (List.length f <=? 3)%nat
      && (match r with [] => true | _ => negb (Ascii.eqb c "0"%char) end)
      && (fold_left (fun a d => (10 * a + json.digit_val d)%N) f 0%N <=? 255)%N
  end.

Definition ParseAddr4 (s : string) : result Addr :=
  let fs := split_dots (list_ascii_of_string s) in
  if (List.length fs =? 4)%nat && forallb field_ok fs then Ok s
  else Err ("ParseAddr(" ++ s ++ "): unable to parse IP")%string.

Definition parser : NetIP := {| ParseAddr := ParseAddr4 |}.

End netip.

(* ================================================================= *)
(** ** The query layer of [audit.go] (package [sqlc]) *)

Module sqlc.

(** The row types of [models.go].  The columns the database fills in by
    itself and no modelled operation reads (event and response ids, the
    three timestamps) are left out; a table is kept in insertion order,
    which is the order of those timestamps. *)
Module RequestLog.
Record t := mk {
  RequestID : pgtype.UUID;
  UserID : pgtype.UUID;
  ApiKeyID : pgtype.UUID;
  Model : string;
  TargetUrl : string;
  Inputs : list bytes;
  Parameters : bytes;
  ClientIp : option Addr;
  Archived : pgtype.Bool
}.
End RequestLog.

Module ResponseLog.
Record t := mk {
  RequestID : pgtype.UUID;
  Response : bytes;
  LatencyMs : pgtype.Int4
}.
End ResponseLog.

Module FirewallEvent.
Record t := mk {
  RequestID : pgtype.UUID;
  FirewallID : string;
  FirewallType : string;
  Blocked : pgtype.Bool;
  BlockedReason : pgtype.Text;
  RiskScore : pgtype.Numeric
}.
End FirewallEvent.

Module InsertRequestLogParams.
Record t := mk {
  UserID : pgtype.UUID;
  ApiKeyID : pgtype.UUID;
  Model : string;
  TargetUrl : string;
  Inputs : list bytes;
  Parameters : bytes;
  ClientIp : option Addr
}.
End InsertRequestLogParams.

Module InsertResponseLogParams.
Record t := mk {
  RequestID : pgtype.UUID;
  Response : bytes;
  LatencyMs : pgtype.Int4
}.
End InsertResponseLogParams.

Module InsertFirewallEventParams.
Record t := mk {
  RequestID : pgtype.UUID;
  FirewallID : string;
  FirewallType : string;
  Blocked : pgtype.Bool;
  BlockedReason : pgtype.Text;
  RiskScore : pgtype.Numeric
}.
End InsertFirewallEventParams.

(** The row of [GetRequestFullTrace], with the fields [GetTrace] reads.  A
    column of a table that contributed no row is NULL: a nil [[]byte], an
    invalid [pgtype] value. *)
Module GetRequestFullTraceRow.
Record t := mk {
  RequestID : pgtype.UUID;
  UserID : pgtype.UUID;
  Model : string;
  Inputs : list bytes;
  Parameters : bytes;
  Response : bytes;
  ClientIp : option Addr;
  FirewallID : pgtype.Text;
  FirewallType : pgtype.Text;
  Blocked : pgtype.Bool;
  BlockedReason : pgtype.Text;
  RiskScore : pgtype.Numeric
}.
End GetRequestFullTraceRow.

(** The three audit relations. *)
Record DB := mkDB {
  request_log : list RequestLog.t;
  response_log : list ResponseLog.t;
  firewall_event : list FirewallEvent.t
}.

Definition empty : DB := mkDB [] [] [].

Definition used_ids (db : DB) : list N :=
  map (fun r => pgtype.Bytes (RequestLog.RequestID r)) (request_log db).

(** Modelled from the spec: the correlation id that the database generates
    for a new request row (the [INSERT] statement is not in the sources).
    The spec asks for an id that is unique; the model takes the first
    128-bit number that no request row carries, and there is none only when
    all are taken. *)
Definition gen_random_uuid (db : DB) : option N :=
  find (fun u => (u <? 2 ^ 128)%N && negb (existsb (N.eqb u) (used_ids db)))
       (map N.of_nat (seq 0 (S (List.length (used_ids db))))).

(** Modelled from the spec: [Queries.InsertRequestLog], one new row of
    [request_log] with a generated correlation id, or an error and no
    change. *)
Definition InsertRequestLog (arg : InsertRequestLogParams.t) (db : DB)
  : result RequestLog.t * DB :=
  match gen_random_uuid db with
  | None => (Err "could not generate a request id", db)
  | Some id =>
      let row :=
        RequestLog.mk (pgtype.mkUUID id true)
          (InsertRequestLogParams.UserID arg)
          (InsertRequestLogParams.ApiKeyID arg)
          (InsertRequestLogParams.Model arg)
          (InsertRequestLogParams.TargetUrl arg)
          (InsertRequestLogParams.Inputs arg)
          (InsertRequestLogParams.Parameters arg)
          (InsertRequestLogParams.ClientIp arg)
          (pgtype.mkBool false true) in
      (Ok row, mkDB (request_log db ++ [row]) (response_log db) (firewall_event db))
  end.

(** Whether [id] is the correlation id of a request row; NULL is of none. *)
Definition request_exists (db : DB) (id : pgtype.UUID) : bool :=
  pgtype.UUID_Valid id
  && existsb (fun r => pgtype.UUID_eqb (RequestLog.RequestID r) id) (request_log db).

Definition referential_error : error :=
  "violates foreign key constraint: no request with this id".

(** Modelled from the spec: [Queries.InsertResponseLog], one new row of
    [response_log]; the correlation id must be that of a request row. *)
Definition InsertResponseLog (arg : InsertResponseLogParams.t) (db : DB)
  : result ResponseLog.t * DB :=
  if request_exists db (InsertResponseLogParams.RequestID arg) then
    let row :=
      ResponseLog.mk (InsertResponseLogParams.RequestID arg)
        (InsertResponseLogParams.Response arg)
        (InsertResponseLogParams.LatencyMs arg) in
    (Ok row, mkDB (request_log db) (response_log db ++ [row]) (firewall_event db))
  else (Err referential_error, db).

(** Modelled from the spec: [Queries.InsertFirewallEvent], one new row of
    [firewall_event]; the correlation id must be that of a request row. *)
Definition InsertFirewallEvent (arg : InsertFirewallEventParams.t) (db : DB)
  : result FirewallEvent.t * DB :=
  if request_exists db (InsertFirewallEventParams.RequestID arg) then
    let row :=
      FirewallEvent.mk (InsertFirewallEventParams.RequestID arg)
        (InsertFirewallEventParams.FirewallID arg)
        (InsertFirewallEventParams.FirewallType arg)
        (InsertFirewallEventParams.Blocked arg)
        (InsertFirewallEventParams.BlockedReason arg)
        (InsertFirewallEventParams.RiskScore arg) in
    (Ok row, mkDB (request_log db) (response_log db) (firewall_event db ++ [row]))
  else (Err referential_error, db).

(** The right side of a left join: every matching row, or one NULL. *)
Definition left_join {A} (matching : list A) : list (option A) :=
  match matching with
  | [] => [None]
  | _ => map Some matching
  end.

Definition responses_of (db : DB) (id : pgtype.UUID) : list ResponseLog.t :=
  filter (fun r => pgtype.UUID_eqb (ResponseLog.RequestID r) id) (response_log db).

Definition events_of (db : DB) (id : pgtype.UUID) : list FirewallEvent.t :=
  filter (fun e => pgtype.UUID_eqb (FirewallEvent.RequestID e) id) (firewall_event db).

Definition joined_row (req : RequestLog.t) (resp : option ResponseLog.t)
           (ev : option FirewallEvent.t) : GetRequestFullTraceRow.t :=
  GetRequestFullTraceRow.mk
    (RequestLog.RequestID req) (RequestLog.UserID req) (RequestLog.Model req)
    (RequestLog.Inputs req) (RequestLog.Parameters req)
    (match resp with Some r => ResponseLog.Response r | None => [] end)
    (RequestLog.ClientIp req)
    (match ev with
     | Some e => pgtype.mkText (FirewallEvent.FirewallID e) true
     | None => pgtype.Text_zero end)
    (match ev with
     | Some e => pgtype.mkText (FirewallEvent.FirewallType e) true
     | None => pgtype.Text_zero end)
    (match ev with Some e => FirewallEvent.Blocked e | None => pgtype.Bool_zero end)
    (match ev with
     | Some e => FirewallEvent.BlockedReason e
     | None => pgtype.Text_zero end)
    (match ev with
     | Some e => FirewallEvent.RiskScore e
     | None => pgtype.Numeric_zero end).

(** Modelled from the spec: [Queries.GetRequestFullTrace], the join of the
    request row of the given id with its response (optional) and its
    firewall events (zero or more, in evaluation order). *)
Definition GetRequestFullTrace (id : pgtype.UUID) (db : DB)
  : result (list GetRequestFullTraceRow.t) :=
  Ok (flat_map
        (fun req =>
           flat_map
             (fun resp => map (joined_row req resp) (left_join (events_of db id)))
             (left_join (responses_of db id)))
        (filter (fun r => pgtype.UUID_Valid id
                          && pgtype.UUID_eqb (RequestLog.RequestID r) id)
                (request_log db))).

End sqlc.

(* ================================================================= *)
(** ** Package [audit] ([audit.go]) *)

Module audit.

Module FirewallEvent.
Record t := mk {
  RequestID : string;
  FirewallID : string;
  FirewallType : string;
  Blocked : bool;
  BlockedReason : string;
  RiskScore : float
}.
End FirewallEvent.

Module Trace.
Record t := mk {
  RequestID : string;
  UserID : string;
  Model : string;
  Inputs : list gomap;
  Response : gomap;
  RequestParameters : gomap;
  FirewallInfo : list FirewallEvent.t;
  ClientIP : string;
  RiskScore : float;
  Blocked : bool;
  BlockedReason : string
}.
End Trace.

Module Request.
Record t := mk {
  UserID : string;
  APIKeyID : string;
  Model : string;
  TargetURL : string;
  Inputs : list gomap;
  Parameters : gomap;
  ClientIP : string
}.
End Request.

Module Response.
Record t := mk {
  RequestID : string;
  Response : gomap;
  LatencyMs : Z
}.
End Response.

Section WithLibraries.
Context {JSON : EncodingJSON} {IP : NetIP}.

(** The loop of [LogRequest] over [r.Inputs]: each message becomes its own
    JSON blob, appended to the list so far. *)
Fixpoint marshal_inputs (inputs : list gomap) (inputBytesList : list bytes)
  : result (list bytes) :=
  match inputs with
  | [] => Ok inputBytesList
  | input :: rest =>
      inputBytes <- wrap "invalid messages" (json_Marshal input) ;;
      marshal_inputs rest (inputBytesList ++ [inputBytes])
  end.

(** [LogRequest] up to the insert: the arguments of [InsertRequestLog].
    The errors of the two [Scan] calls on the user and API-key ids are
    discarded by the source. *)
Definition LogRequest_params (r : Request.t)
  : result sqlc.InsertRequestLogParams.t :=
  inputBytesList <- marshal_inputs (Request.Inputs r) [] ;;
  paramsBytes <- wrap "invalid parameters" (json_Marshal (Request.Parameters r)) ;;
  clientIP <-
    (if String.eqb (Request.ClientIP r) "" then Ok None
     else ip <- wrap "invalid IP" (ParseAddr (Request.ClientIP r)) ;; Ok (Some ip)) ;;
  let userUUID :=
    ignoring_error pgtype.UUID_zero (pgtype.UUID_Scan (Request.UserID r)) in
  let apiKeyUUID :=
    ignoring_error pgtype.UUID_zero (pgtype.UUID_Scan (Request.APIKeyID r)) in
  Ok (sqlc.InsertRequestLogParams.mk userUUID apiKeyUUID (Request.Model r)
        (Request.TargetURL r) inputBytesList paramsBytes clientIP).

(** [LogRequest]. *)
Definition LogRequest (r : Request.t) (db : sqlc.DB) : result string * sqlc.DB :=
  match LogRequest_params r with
  | Err e => (Err e, db)
  | Ok arg =>
      match sqlc.InsertRequestLog arg db with
      | (Err e, db') => (Err e, db')
      | (Ok req, db') =>
          (Ok (pgtype.UUID_String (sqlc.RequestLog.RequestID req)), db')
      end
  end.

(** [LogResponse].  The errors of the two [Scan] calls are discarded by
    the source; [nil] is [None]. *)
Definition LogResponse (r : Response.t) (db : sqlc.DB) : option error * sqlc.DB :=
  let reqUUID :=
    ignoring_error pgtype.UUID_zero (pgtype.UUID_Scan (Response.RequestID r)) in
  let pgLatency :=
    ignoring_error pgtype.Int4_zero (pgtype.Int4_Scan (Response.LatencyMs r)) in
  match wrap "invalid response" (json_Marshal (Response.Response r)) with
  | Err e => (Some e, db)
  | Ok responseBytes =>
      match sqlc.InsertResponseLog
              (sqlc.InsertResponseLogParams.mk reqUUID responseBytes pgLatency) db with
      | (Err e, db') => (Some e, db')
      | (Ok _, db') => (None, db')
      end
  end.

(** [LogFirewallEvent] up to the insert. *)
Definition LogFirewallEvent_params (fe : FirewallEvent.t)
  : result sqlc.InsertFirewallEventParams.t :=
  reqUUID <- wrap "invalid request ID" (pgtype.UUID_Scan (FirewallEvent.RequestID fe)) ;;
  blocked <- wrap "invalid blocked value" (pgtype.Bool_Scan (FirewallEvent.Blocked fe)) ;;
  blockedReason <-
    wrap "invalid blocked reason" (pgtype.Text_Scan (FirewallEvent.BlockedReason fe)) ;;
  riskScore <-
    wrap "invalid risk score" (pgtype.Numeric_Scan_float (FirewallEvent.RiskScore fe)) ;;
  Ok (sqlc.InsertFirewallEventParams.mk reqUUID (FirewallEvent.FirewallID fe)
        (FirewallEvent.FirewallType fe) blocked blockedReason riskScore).

(** [LogFirewallEvent]. *)
Definition LogFirewallEvent (fe : FirewallEvent.t) (db : sqlc.DB)
  : option error * sqlc.DB :=
  match LogFirewallEvent_params fe with
  | Err e => (Some e, db)
  | Ok arg =>
      match sqlc.InsertFirewallEvent arg db with
      | (Err e, db') => (Some e, db')
      | (Ok _, db') => (None, db')
      end
  end.

(** The loop of [GetTrace] over [row.Inputs]. *)
Fixpoint unmarshal_inputs (blobs : list bytes) (inputs : list gomap)
  : result (list gomap) :=
  match blobs with
  | [] => Ok inputs
  | input :: rest =>
      msg <- wrap "invalid messages" (json_Unmarshal input) ;;
      unmarshal_inputs rest (inputs ++ [msg])
  end.

(** The loop of [GetTrace] over [rows] that collects the firewall events. *)
Fixpoint collect_events (rows : list sqlc.GetRequestFullTraceRow.t)
         (events : list FirewallEvent.t) : result (list FirewallEvent.t) :=
  match rows with
  | [] => Ok events
  | r :: rest =>
      if pgtype.Text_Valid (sqlc.GetRequestFullTraceRow.FirewallID r) then
        riskScore <-
          wrap "invalid risk score"
            (pgtype.Float64Value (sqlc.GetRequestFullTraceRow.RiskScore r)) ;;
        collect_events rest
          (events ++
           [FirewallEvent.mk
              (pgtype.UUID_String (sqlc.GetRequestFullTraceRow.RequestID r))
              (pgtype.Text_String (sqlc.GetRequestFullTraceRow.FirewallID r))
              (pgtype.Text_String (sqlc.GetRequestFullTraceRow.FirewallType r))
              (pgtype.Bool_Bool (sqlc.GetRequestFullTraceRow.Blocked r))
              (pgtype.Text_String (sqlc.GetRequestFullTraceRow.BlockedReason r))
              (pgtype.Float64 riskScore)])
      else collect_events rest events
  end.

(** [GetTrace] from the rows of the query on. *)
Definition trace_of_rows (rows : list sqlc.GetRequestFullTraceRow.t)
  : result Trace.t :=
  match rows with
  | [] => Err "request not found"
  | row :: _ =>
      let params :=
        json_Unmarshal_unchecked (sqlc.GetRequestFullTraceRow.Parameters row) in
      inputs <- unmarshal_inputs (sqlc.GetRequestFullTraceRow.Inputs row) [] ;;
      response <-
        wrap "invalid response"
          (json_Unmarshal (sqlc.GetRequestFullTraceRow.Response row)) ;;
      let clientIP :=
        match sqlc.GetRequestFullTraceRow.ClientIp row with
        | Some ip => Addr_String ip
        | None => ""
        end in
      riskScore <-
        (if pgtype.Numeric_Valid (sqlc.GetRequestFullTraceRow.RiskScore row) then
           score <-
             wrap "invalid risk score"
               (pgtype.Float64Value (sqlc.GetRequestFullTraceRow.RiskScore row)) ;;
           Ok (pgtype.Float64 score)
         else Ok 0%float) ;;
      events <- collect_events rows [] ;;
      Ok (Trace.mk
            (pgtype.UUID_String (sqlc.GetRequestFullTraceRow.RequestID row))
            (pgtype.UUID_String (sqlc.GetRequestFullTraceRow.UserID row))
            (sqlc.GetRequestFullTraceRow.Model row)
            inputs response params events clientIP riskScore
            (pgtype.Bool_Bool (sqlc.GetRequestFullTraceRow.Blocked row))
            (pgtype.Text_String (sqlc.GetRequestFullTraceRow.BlockedReason row)))
  end.

(** [GetTrace].  The error of the [Scan] of the request id is discarded
    by the source. *)
Definition GetTrace (requestID : string) (db : sqlc.DB) : result Trace.t :=
  let reqUUID := ignoring_error pgtype.UUID_zero (pgtype.UUID_Scan requestID) in
  rows <- sqlc.GetRequestFullTrace reqUUID db ;;
  trace_of_rows rows.

End WithLibraries.

End audit.

(* ================================================================= *)
(** ** The pooled audit store ([Store], second implementation)

    The same four operations as methods of [Store].  The request carries
    [Messages] and [Endpoint]; the response is a text with token counts. *)

Module store.

(** The query layer this file imports as [postgres]. *)
Module postgres.

Module InsertRequestLogParams.
Record t := mk {
  UserID : pgtype.UUID;
  ApiKeyID : pgtype.UUID;
  Model : string;
  Endpoint : string;
  Messages : list bytes;
  Parameters : bytes;
  ClientIp : option Addr
}.
End InsertRequestLogParams.

Module RequestLog.
Record t := mk {
  RequestID : pgtype.UUID;
  UserID : pgtype.UUID;
  ApiKeyID : pgtype.UUID;
  Model : string;
  Endpoint : string;
  Messages : list bytes;
  Parameters : bytes;
  ClientIp : option Addr
}.
End RequestLog.

Module InsertResponseLogParams.
Record t := mk {
  RequestID : pgtype.UUID;
  Response : string;
  LatencyMs : pgtype.Int4;
  InputTokens : pgtype.Int4;
  OutputTokens : pgtype.Int4;
  TotalTokens : pgtype.Int4
}.
End InsertResponseLogParams.

Module InsertFirewallEventParams.
Record t := mk {
  RequestID : pgtype.UUID;
  FirewallID : string;
  FirewallType : string;
  Blocked : pgtype.Bool;
  BlockedReason : pgtype.Text;
  RiskScore : pgtype.Numeric
}.
End InsertFirewallEventParams.

Module GetRequestFullTraceRow.
Record t := mk {
  RequestID : pgtype.UUID;
  UserID : pgtype.UUID;
  Model : string;
  Messages : list bytes;
  Parameters : bytes;
  Response : pgtype.Text;
  ClientIp : option Addr;
  FirewallID : pgtype.Text;
  FirewallType : pgtype.Text;
  Blocked : pgtype.Bool;
  BlockedReason : pgtype.Text;
  RiskScore : pgtype.Numeric
}.
End GetRequestFullTraceRow.

Record DB := mkDB {
  request_log : list RequestLog.t;
  response_log : list InsertResponseLogParams.t;
  firewall_event : list InsertFirewallEventParams.t
}.

Definition empty : DB := mkDB [] [] [].

Definition used_ids (db : DB) : list N :=
  map (fun r => pgtype.Bytes (RequestLog.RequestID r)) (request_log db).

(** Modelled from the spec: the generated correlation id, as in [sqlc]. *)
Definition gen_random_uuid (db : DB) : option N :=
  find (fun u => (u <? 2 ^ 128)%N && negb (existsb (N.eqb u) (used_ids db)))
       (map N.of_nat (seq 0 (S (List.length (used_ids db))))).

(** Modelled from the spec: [Queries.InsertRequestLog]. *)
Definition InsertRequestLog (arg : InsertRequestLogParams.t) (db : DB)
  : result RequestLog.t * DB :=
  match gen_random_uuid db with
  | None => (Err "could not generate a request id", db)
  | Some id =>
      let row :=
        RequestLog.mk (pgtype.mkUUID id true)
          (InsertRequestLogParams.UserID arg)
          (InsertRequestLogParams.ApiKeyID arg)
          (InsertRequestLogParams.Model arg)
          (InsertRequestLogParams.Endpoint arg)
          (InsertRequestLogParams.Messages arg)
          (InsertRequestLogParams.Parameters arg)
          (InsertRequestLogParams.ClientIp arg) in
      (Ok row, mkDB (request_log db ++ [row]) (response_log db) (firewall_event db))
  end.

Definition request_exists (db : DB) (id : pgtype.UUID) : bool :=
  pgtype.UUID_Valid id
  && existsb (fun r => pgtype.UUID_eqb (RequestLog.RequestID r) id) (request_log db).

(** Modelled from the spec: [Queries.InsertResponseLog]. *)
Definition InsertResponseLog (arg : InsertResponseLogParams.t) (db : DB)
  : result InsertResponseLogParams.t * DB :=
  if request_exists db (InsertResponseLogParams.RequestID arg) then
    (Ok arg, mkDB (request_log db) (response_log db ++ [arg]) (firewall_event db))
  else (Err sqlc.referential_error, db).

(** Modelled from the spec: [Queries.InsertFirewallEvent]. *)
Definition InsertFirewallEvent (arg : InsertFirewallEventParams.t) (db : DB)
  : result InsertFirewallEventParams.t * DB :=
  if request_exists db (InsertFirewallEventParams.RequestID arg) then
    (Ok arg, mkDB (request_log db) (response_log db) (firewall_event db ++ [arg]))
  else (Err sqlc.referential_error, db).

Definition responses_of (db : DB) (id : pgtype.UUID) :=
  filter (fun r => pgtype.UUID_eqb (InsertResponseLogParams.RequestID r) id)
         (response_log db).

Definition events_of (db : DB) (id : pgtype.UUID) :=
  filter (fun e => pgtype.UUID_eqb (InsertFirewallEventParams.RequestID e) id)
         (firewall_event db).

Definition joined_row (req : RequestLog.t) (resp : option InsertResponseLogParams.t)
           (ev : option InsertFirewallEventParams.t) : GetRequestFullTraceRow.t :=
  GetRequestFullTraceRow.mk
    (RequestLog.RequestID req) (RequestLog.UserID req) (RequestLog.Model req)
    (RequestLog.Messages req) (RequestLog.Parameters req)
    (match resp with
     | Some r => pgtype.mkText (InsertResponseLogParams.Response r) true
     | None => pgtype.Text_zero end)
    (RequestLog.ClientIp req)
    (match ev with
     | Some e => pgtype.mkText (InsertFirewallEventParams.FirewallID e) true
     | None => pgtype.Text_zero end)
    (match ev with
     | Some e => pgtype.mkText (InsertFirewallEventParams.FirewallType e) true
     | None => pgtype.Text_zero end)
    (match ev with
     | Some e => InsertFirewallEventParams.Blocked e
     | None => pgtype.Bool_zero end)
    (match ev with
     | Some e => InsertFirewallEventParams.BlockedReason e
     | None => pgtype.Text_zero end)
    (match ev with
     | Some e => InsertFirewallEventParams.RiskScore e
     | None => pgtype.Numeric_zero end).

(** Modelled from the spec: [Queries.GetRequestFullTrace], as in [sqlc]. *)
Definition GetRequestFullTrace (id : pgtype.UUID) (db : DB)
  : result (list GetRequestFullTraceRow.t) :=
  Ok (flat_map
        (fun req =>
           flat_map
             (fun resp =>
                map (joined_row req resp) (sqlc.left_join (events_of db id)))
             (sqlc.left_join (responses_of db id)))
        (filter (fun r => pgtype.UUID_Valid id
                          && pgtype.UUID_eqb (RequestLog.RequestID r) id)
                (request_log db))).

End postgres.

Module FirewallEvent.
Record t := mk {
  RequestID : string;
  FirewallID : string;
  FirewallType : string;
  Blocked : bool;
  BlockedReason : string;
  RiskScore : float
}.
End FirewallEvent.

Module Trace.
Record t := mk {
  RequestID : string;
  UserID : string;
  Model : string;
  Messages : list gomap;
  Response : string;
  Parameters : gomap;
  FirewallInfo : list FirewallEvent.t;
  ClientIP : string;
  RiskScore : float;
  Blocked : bool;
  BlockedReason : string
}.
End Trace.

Module Request.
Record t := mk {
  UserID : string;
  APIKeyID : string;
  Model : string;
  Endpoint : string;
  Messages : list gomap;
  Parameters : gomap;
  ClientIP : string
}.
End Request.

Module Response.
Record t := mk {
  RequestID : string;
  Response : string;
  LatencyMs : Z;
  InputTokens : Z;
  OutputTokens : Z;
  TotalTokens : Z
}.
End Response.

(** [Int4.Scan] of a Go [int]: the method reads [int64], text and bytes
    only, so the scan of an [int] is an error. *)
Definition Int4_Scan_int (n : Z) : result pgtype.Int4 := Err "cannot scan int".

Section WithLibraries.
Context {JSON : EncodingJSON} {IP : NetIP}.

Fixpoint marshal_messages (messages : list gomap) (messageBytesList : list bytes)
  : result (list bytes) :=
  match messages with
  | [] => Ok messageBytesList
  | message :: rest =>
      messageBytes <- wrap "invalid messages" (json_Marshal message) ;;
      marshal_messages rest (messageBytesList ++ [messageBytes])
  end.

(** [Store.LogRequest] up to the insert. *)
Definition LogRequest_params (r : Request.t)
  : result postgres.InsertRequestLogParams.t :=
  messageBytesList <- marshal_messages (Request.Messages r) [] ;;
  paramsBytes <- wrap "invalid parameters" (json_Marshal (Request.Parameters r)) ;;
  clientIP <-
    (if String.eqb (Request.ClientIP r) "" then Ok None
     else ip <- wrap "invalid IP" (ParseAddr (Request.ClientIP r)) ;; Ok (Some ip)) ;;
  let userUUID :=
    ignoring_error pgtype.UUID_zero (pgtype.UUID_Scan (Request.UserID r)) in
  let apiKeyUUID :=
    ignoring_error pgtype.UUID_zero (pgtype.UUID_Scan (Request.APIKeyID r)) in
  Ok (postgres.InsertRequestLogParams.mk userUUID apiKeyUUID (Request.Model r)
        (Request.Endpoint r) messageBytesList paramsBytes clientIP).

(** [Store.LogRequest]. *)
Definition LogRequest (r : Request.t) (db : postgres.DB)
  : result string * postgres.DB :=
  match LogRequest_params r with
  | Err e => (Err e, db)
  | Ok arg =>
      match postgres.InsertRequestLog arg db with
      | (Err e, db') => (Err e, db')
      | (Ok req, db') =>
          (Ok (pgtype.UUID_String (postgres.RequestLog.RequestID req)), db')
      end
  end.

(** [Store.LogResponse]: no step of it can fail before the insert. *)
Definition LogResponse (r : Response.t) (db : postgres.DB)
  : option error * postgres.DB :=
  let reqUUID :=
    ignoring_error pgtype.UUID_zero (pgtype.UUID_Scan (Response.RequestID r)) in
  let pgLatency :=
    ignoring_error pgtype.Int4_zero (Int4_Scan_int (Response.LatencyMs r)) in
  let pgInput :=
    ignoring_error pgtype.Int4_zero (Int4_Scan_int (Response.InputTokens r)) in
  let pgOutput :=
    ignoring_error pgtype.Int4_zero (Int4_Scan_int (Response.OutputTokens r)) in
  let pgTotal :=
    ignoring_error pgtype.Int4_zero (Int4_Scan_int (Response.TotalTokens r)) in
  match postgres.InsertResponseLog
          (postgres.InsertResponseLogParams.mk reqUUID (Response.Response r)
             pgLatency pgInput pgOutput pgTotal) db with
  | (Err e, db') => (Some e, db')
  | (Ok _, db') => (None, db')
  end.

(** [Store.LogFirewallEvent] up to the insert. *)
Definition LogFirewallEvent_params (fe : FirewallEvent.t)
  : result postgres.InsertFirewallEventParams.t :=
  reqUUID <- wrap "invalid request ID" (pgtype.UUID_Scan (FirewallEvent.RequestID fe)) ;;
  blocked <- wrap "invalid blocked value" (pgtype.Bool_Scan (FirewallEvent.Blocked fe)) ;;
  blockedReason <-
    wrap "invalid blocked reason" (pgtype.Text_Scan (FirewallEvent.BlockedReason fe)) ;;
  riskScore <-
    wrap "invalid risk score" (pgtype.Numeric_Scan_float (FirewallEvent.RiskScore fe)) ;;
  Ok (postgres.InsertFirewallEventParams.mk reqUUID (FirewallEvent.FirewallID fe)
        (FirewallEvent.FirewallType fe) blocked blockedReason riskScore).

(** [Store.LogFirewallEvent]. *)
Definition LogFirewallEvent (fe : FirewallEvent.t) (db : postgres.DB)
  : option error * postgres.DB :=
  match LogFirewallEvent_params fe with
  | Err e => (Some e, db)
  | Ok arg =>
      match postgres.InsertFirewallEvent arg db with
      | (Err e, db') => (Some e, db')
      | (Ok _, db') => (None, db')
      end
  end.

Fixpoint unmarshal_messages (blobs : list bytes) (messages : list gomap)
  : result (list gomap) :=
  match blobs with
  | [] => Ok messages
  | message :: rest =>
      msg <- wrap "invalid messages" (json_Unmarshal message) ;;
      unmarshal_messages rest (messages ++ [msg])
  end.

Fixpoint collect_events (rows : list postgres.GetRequestFullTraceRow.t)
         (events : list FirewallEvent.t) : result (list FirewallEvent.t) :=
  match rows with
  | [] => Ok events
  | r :: rest =>
      if pgtype.Text_Valid (postgres.GetRequestFullTraceRow.FirewallID r) then
        riskScore <-
          wrap "invalid risk score"
            (pgtype.Float64Value (postgres.GetRequestFullTraceRow.RiskScore r)) ;;
        collect_events rest
          (events ++
           [FirewallEvent.mk
              (pgtype.UUID_String (postgres.GetRequestFullTraceRow.RequestID r))
              (pgtype.Text_String (postgres.GetRequestFullTraceRow.FirewallID r))
              (pgtype.Text_String (postgres.GetRequestFullTraceRow.FirewallType r))
              (pgtype.Bool_Bool (postgres.GetRequestFullTraceRow.Blocked r))
              (pgtype.Text_String (postgres.GetRequestFullTraceRow.BlockedReason r))
              (pgtype.Float64 riskScore)])
      else collect_events rest events
  end.

(** [Store.GetTrace] from the rows of the query on. *)
Definition trace_of_rows (rows : list postgres.GetRequestFullTraceRow.t)
  : result Trace.t :=
  match rows with
  | [] => Err "request not found"
  | row :: _ =>
      let params :=
        json_Unmarshal_unchecked (postgres.GetRequestFullTraceRow.Parameters row) in
      messages <- unmarshal_messages (postgres.GetRequestFullTraceRow.Messages row) [] ;;
      let clientIP :=
        match postgres.GetRequestFullTraceRow.ClientIp row with
        | Some ip => Addr_String ip
        | None => ""
        end in
      riskScore <-
        (if pgtype.Numeric_Valid (postgres.GetRequestFullTraceRow.RiskScore row) then
           score <-
             wrap "invalid risk score"
               (pgtype.Float64Value (postgres.GetRequestFullTraceRow.RiskScore row)) ;;
           Ok (pgtype.Float64 score)
         else Ok 0%float) ;;
      events <- collect_events rows [] ;;
      Ok (Trace.mk
            (pgtype.UUID_String (postgres.GetRequestFullTraceRow.RequestID row))
            (pgtype.UUID_String (postgres.GetRequestFullTraceRow.UserID row))
            (postgres.GetRequestFullTraceRow.Model row)
            messages
            (pgtype.Text_String (postgres.GetRequestFullTraceRow.Response row))
            params events clientIP riskScore
            (pgtype.Bool_Bool (postgres.GetRequestFullTraceRow.Blocked row))
            (pgtype.Text_String (postgres.GetRequestFullTraceRow.BlockedReason row)))
  end.

(** [Store.GetTrace]. *)
Definition GetTrace (requestID : string) (db : postgres.DB) : result Trace.t :=
  let reqUUID := ignoring_error pgtype.UUID_zero (pgtype.UUID_Scan requestID) in
  rows <- postgres.GetRequestFullTrace reqUUID db ;;
  trace_of_rows rows.

End WithLibraries.

End store.

(* ================================================================= *)
(** ** Packages [types], [register] and [internal]

    Their sources are not part of the files at hand: the validator and the
    firewall code are stated over this interface, and hold for every
    implementation of it. *)

(** [types.Message]: the hook and the classifier read [Content] only. *)
Record Message := mkMessage { Role : string; Content : string }.

Class TypesPkg := {
  Name : Type;                       (* types.Name *)
  Name_String : Name -> string;      (* Name.String() *)
  MaxTokens : Type;                  (* types.MaxTokens *)
  Temperature : Type;                (* types.Temperature *)
  FirewallType : Type;               (* types.FirewallType *)
  ModelInfo : Type;                  (* the descriptor the registry holds *)
  Registry : Type;                   (* register.Registry *)
  InternalModel : Type;              (* internal.Model *)
  NewName : string -> result Name;
  NewMaxTokens : Z -> result MaxTokens;
  NewTemperature : float -> result Temperature;
  NewMessageFromJson : any -> result Message;
  GetInfo : Registry -> string -> option ModelInfo
}.

(** The effects of the firewall code: lines written with [log.Printf], text
    written with [fmt.Println], and the two audit databases. *)
Record World := mkWorld {
  log : list string;
  stdout : list string;
  audit_db : sqlc.DB;
  store_db : store.postgres.DB
}.

Definition log_Printf (line : string) (w : World) : World :=
  mkWorld (log w ++ [line]) (stdout w) (audit_db w) (store_db w).

Definition fmt_Println (text : string) (w : World) : World :=
  mkWorld (log w) (stdout w ++ [text]) (audit_db w) (store_db w).

(** What a call does: it returns, or it panics. *)
Inductive outcome (A : Type) : Type :=
| Returned (a : A)
| Panicked (msg : string).
Arguments Returned {A} a.
Arguments Panicked {A} msg.

Definition StatusOK : Z := 200.
Definition StatusForbidden : Z := 403.

Section Netrunner.
Context {T : TypesPkg}.

(* --------------------------------------------------------------- *)
(** *** Package [firewall]: the configuration *)

Record Firewall_config := mkFirewall {
  Enabled : bool;
  Type_ : FirewallType;
  Model : InternalModel;
  BlockingThreshold : float
}.

Record Config := mkConfig { Firewalls : list Firewall_config }.

(* --------------------------------------------------------------- *)
(** *** Package [maliciousIntent] *)

(** [Run]: logs the content and answers [true] without an error. *)
Definition Run (message : Message) (model : InternalModel) (blockingThreshold : float)
           (w : World) : (bool * option error) * World :=
  let content := Content message in
  let w := log_Printf ("running custom firewall with content: " ++ content)%string w in
  ((true, None), w).

(* --------------------------------------------------------------- *)
(** *** The payload *)

(** [GeneratePayload], as the validator builds it.  The hook receives a
    payload of the same name from package [user]; it reads [Messages] only,
    and the two are one record here. *)
Record GeneratePayload := mkGeneratePayload {
  Payload_Model : ModelInfo;
  Payload_IsStreaming : bool;
  Payload_MaxTokens : option MaxTokens;
  Payload_Temperature : option Temperature;
  Messages : list Message
}.

(* --------------------------------------------------------------- *)
(** *** Package [hook] *)

Definition checkMessage (message : Message) : bool := false.

(** [s[i]] for an [int] index: out of range is a run-time panic. *)
Definition index {A} (s : list A) (i : Z) : outcome A :=
  if (i <? 0)%Z || (Z.of_nat (List.length s) <=? i)%Z
  then Panicked "index out of range"
  else
    match nth_error s (Z.to_nat i) with
    | Some x => Returned x
    | None => Panicked "index out of range"
    end.

(** [payload.Messages[len(payload.Messages)-1]]. *)
Definition last_message (messages : list Message) : outcome Message :=
  index messages (Z.of_nat (List.length messages) - 1)%Z.

(** [Firewall]: the status code and the error it returns. *)
Definition Firewall (payload : GeneratePayload) (w : World)
  : outcome (Z * option error) * World :=
  let w := log_Printf "Firewall hook called with payload" w in
  let w := fmt_Println "" w in
  match last_message (Messages payload) with
  | Panicked msg => (Panicked msg, w)
  | Returned m =>
      if negb (checkMessage m)
      then (Returned (StatusForbidden, Some "request rejected: blocked by firewall"), w)
      else (Returned (StatusOK, None), w)
  end.

(* --------------------------------------------------------------- *)
(** *** Package [requests]: the validator *)

Record GenerateRequest := mkGenerateRequest {
  Request_Name : string;
  Request_IsStreaming : bool;
  Request_MaxTokens : option Z;
  Request_Temperature : option float;
  Request_Messages : list any
}.

(** The loop of [ParseGenerateRequest] over the messages. *)
Fixpoint parse_messages (msgs : list any) (messagesArray : list Message)
  : result (list Message) :=
  match msgs with
  | [] => Ok messagesArray
  | msg :: rest =>
      message <- NewMessageFromJson msg ;;
      parse_messages rest (messagesArray ++ [message])
  end.

Definition ParseGenerateRequest (generateRequest : GenerateRequest)
           (registry : Registry) : result GeneratePayload :=
  name <- NewName (Request_Name generateRequest) ;;
  match GetInfo registry (Name_String name) with
  | None => Err "model not found"
  | Some modelInfo =>
      maxTokens <-
        match Request_MaxTokens generateRequest with
        | Some n => maxTokens <- NewMaxTokens n ;; Ok (Some maxTokens)
        | None => Ok None
        end ;;
      temperature <-
        match Request_Temperature generateRequest with
        | Some t => temp <- NewTemperature t ;; Ok (Some temp)
        | None => Ok None
        end ;;
      if (List.length (Request_Messages generateRequest) =? 0)%nat
      then Err "messages must be a non-empty array"
      else
        messagesArray <- parse_messages (Request_Messages generateRequest) [] ;;
        Ok (mkGeneratePayload modelInfo (Request_IsStreaming generateRequest)
              maxTokens temperature messagesArray)
  end.

End Netrunner.

(* ================================================================= *)
(** ** An implementation of the [types] interface *)

Module types_model.

Definition roles : list string := ["system"; "user"; "assistant"; "tool"].

Fixpoint lookup (key : string) (kvs : list (string * any)) : option any :=
  match kvs with
  | [] => None
  | (k, v) :: rest => if String.eqb k key then Some v else lookup key rest
  end.

(** Modelled from the spec: [types.NewName], whose source is not at hand; a
    model name fails if empty. *)
Definition NewName (s : string) : result string :=
  if String.eqb s "" then Err "model name must not be empty" else Ok s.

(** Modelled from the spec: [types.NewMaxTokens], whose source is not at
    hand; max-tokens fails if not positive. *)
Definition NewMaxTokens (n : Z) : result Z :=
  if (n <=? 0)%Z then Err "max_tokens must be positive" else Ok n.

(** Modelled from the spec: [types.NewTemperature], whose source is not at
    hand; a temperature fails outside the range from 0 to 2. *)
Definition NewTemperature (t : float) : result float :=
  if ((0 <=? t) && (t <=? 2))%float then Ok t
  else Err "temperature must be between 0 and 2".

(** Modelled from the spec: [types.NewMessageFromJson], whose source is not
    at hand; the value must be an object with a recognized role and a text
    content. *)
Definition NewMessageFromJson (v : any) : result Message :=
  match v with
  | AMap kvs =>
      match lookup "role" kvs, lookup "content" kvs with
      | Some (AStr role), Some (AStr content) =>
          if existsb (String.eqb role) roles then Ok (mkMessage role content)
          else Err "invalid role"
      | _, _ => Err "message must have a role and a content"
      end
  | _ => Err "message must be an object"
  end.

(** Modelled from the spec: [Registry.GetInfo], whose source is not at hand;
    the registry is a list of model names with their descriptors. *)
Definition GetInfo (registry : list (string * string)) (name : string)
  : option string :=
  match find (fun entry => String.eqb (fst entry) name) registry with
  | Some entry => Some (snd entry)
  | None => None
  end.

Definition pkg : TypesPkg :=
  Build_TypesPkg string (fun s => s) Z float string string
    (list (string * string)) string
    NewName NewMaxTokens NewTemperature NewMessageFromJson GetInfo.

End types_model.

(* ================================================================= *)
(** ** Measures and sample data *)

(** The number of firewall events the audit state holds. *)
Definition events_logged (w : World) : nat :=
  List.length (sqlc.firewall_event (audit_db w))
  + List.length (store.postgres.firewall_event (store_db w)).

(** The risk-score range of the data model. *)
Definition risk_in_range (x : float) : bool := ((0 <=? x) && (x <=? 1))%float.

(** A [float64] that is not an infinity (a number or NaN). *)
Definition not_infinite (x : float) : bool :=
  match Prim2SF x with
  | S754_infinity _ => false
  | _ => true
  end.

(** Empty input is an error of [json.Unmarshal]. *)
Definition rejects_empty_input (J : EncodingJSON) : Prop :=
  json_Unmarshal [] = Err "unexpected end of JSON input".

(** A codec that loses nothing: what [Marshal] wrote, [Unmarshal] reads
    back, for every map.  The library itself reads back unchanged only part
    of what it writes; the two relations below speak of one map at a
    time. *)
Definition decodes_what_it_encodes (J : EncodingJSON) : Prop :=
  forall m data, json_Marshal m = Ok data -> json_Unmarshal data = Ok m.

(** The encoding of [m] decodes without an error. *)
Definition decodable {JSON : EncodingJSON} (m : gomap) : Prop :=
  exists data, json_Marshal m = Ok data /\ is_ok (json_Unmarshal data) = true.

(** [m'] is what decoding the encoding of [m] gives. *)
Definition decoding_of {JSON : EncodingJSON} (m m' : gomap) : Prop :=
  exists data, json_Marshal m = Ok data /\ json_Unmarshal data = Ok m'.

(** The referential invariant of the data model: every response row and
    every firewall-event row carries the correlation id of a request row. *)
Definition referential (db : sqlc.DB) : Prop :=
  Forall (fun r => sqlc.request_exists db (sqlc.ResponseLog.RequestID r) = true)
         (sqlc.response_log db)
  /\ Forall (fun e => sqlc.request_exists db (sqlc.FirewallEvent.RequestID e) = true)
            (sqlc.firewall_event db).

Definition store_referential (db : store.postgres.DB) : Prop :=
  Forall (fun r => store.postgres.request_exists db
                     (store.postgres.InsertResponseLogParams.RequestID r) = true)
         (store.postgres.response_log db)
  /\ Forall (fun e => store.postgres.request_exists db
                        (store.postgres.InsertFirewallEventParams.RequestID e) = true)
            (store.postgres.firewall_event db).

(** The risk score of a row is decoded when a firewall event is attached to
    the row, and then a failure stops the loop of [GetTrace]. *)
Definition event_decodes (r : sqlc.GetRequestFullTraceRow.t) : bool :=
  negb (pgtype.Text_Valid (sqlc.GetRequestFullTraceRow.FirewallID r))
  || is_ok (pgtype.Float64Value (sqlc.GetRequestFullTraceRow.RiskScore r)).

Definition store_event_decodes (r : store.postgres.GetRequestFullTraceRow.t) : bool :=
  negb (pgtype.Text_Valid (store.postgres.GetRequestFullTraceRow.FirewallID r))
  || is_ok (pgtype.Float64Value (store.postgres.GetRequestFullTraceRow.RiskScore r)).

Module sample.

Definition registry : list (string * string) := [("gpt-4", "openai/gpt-4")].

Definition hi : any := AMap [("role", AStr "user"); ("content", AStr "hi")].

Definition request : GenerateRequest :=
  mkGenerateRequest "gpt-4" false (Some 64%Z) None [hi].

Definition request_without_messages : GenerateRequest :=
  mkGenerateRequest "gpt-4" false None None [].

Definition payload : @GeneratePayload types_model.pkg :=
  @mkGeneratePayload types_model.pkg "openai/gpt-4" false (Some 64%Z) None
    [mkMessage "user" "hi"].

Definition payload_without_messages : @GeneratePayload types_model.pkg :=
  @mkGeneratePayload types_model.pkg "openai/gpt-4" false None None [].

Definition world : World := mkWorld [] [] sqlc.empty store.postgres.empty.

Definition enabled_firewall : @Firewall_config types_model.pkg :=
  @mkFirewall types_model.pkg true "malicious_intent" "classifier-1" 0.5%float.

Definition config : @Config types_model.pkg :=
  @mkConfig types_model.pkg [enabled_firewall].

(** The request of the demonstration program, its id once logged in an
    empty database, and that database. *)
Definition audit_request : audit.Request.t :=
  audit.Request.mk "0a000000-0000-0000-0000-0000000000aa"
    "0b000000-0000-0000-0000-0000000000bb" "gpt-4"
    "https://api.openai.com/v1/chat/completions"
    [Some [("role", AStr "user"); ("content", AStr "Tell me something cool")]]
    (Some [("temperature", ANum 7 (-1))]) "127.0.0.1".

Definition request_id : string := "00000000-0000-0000-0000-000000000000".

Definition one_request : sqlc.DB :=
  snd (@audit.LogRequest json.codec netip.parser audit_request sqlc.empty).

(** A response whose latency, 2^31 ms, does not fit an [Int4]. *)
Definition slow_response : audit.Response.t :=
  audit.Response.mk request_id (Some [("content", AStr "Fire is hot.")]) 2147483648.

Definition audit_response : audit.Response.t :=
  audit.Response.mk request_id (Some [("content", AStr "Fire is hot.")]) 150.

(** The firewall event of the demonstration program; its risk score is the
    [float64] nearest to 0.12. *)
Definition demo_event : audit.FirewallEvent.t :=
  audit.FirewallEvent.mk request_id "NO_HATE_SPEECH" "triggered" false
    "Hate speech detected." 0x1.eb851eb851eb8p-4%float.

(** An event whose risk score, 1.5, lies outside [0, 1]. *)
Definition risky_event : audit.FirewallEvent.t :=
  audit.FirewallEvent.mk request_id "NO_HATE_SPEECH" "triggered" false "" 1.5%float.

Definition risky_store_event : store.FirewallEvent.t :=
  store.FirewallEvent.mk request_id "NO_HATE_SPEECH" "triggered" false "" 1.5%float.

(** A request with a message that has no JSON encoding, and one with a
    client address that does not parse. *)
Definition unencodable_request : audit.Request.t :=
  audit.Request.mk "" "" "gpt-4" "" [Some [("callback", AChan)]] None "".

Definition bad_address_request : audit.Request.t :=
  audit.Request.mk "" "" "gpt-4" "" [] None "localhost".

Definition store_request : store.Request.t :=
  store.Request.mk "0a000000-0000-0000-0000-0000000000aa"
    "0b000000-0000-0000-0000-0000000000bb" "gpt-4" "/v1/chat/completions"
    [Some [("role", AStr "user"); ("content", AStr "Tell me something cool")]]
    (Some [("temperature", ANum 7 (-1))]) "127.0.0.1".

Definition one_store_request : store.postgres.DB :=
  snd (@store.LogRequest json.codec netip.parser store_request store.postgres.empty).

(** A joined row whose parameters blob is cut short (an opening brace and
    nothing else), with an empty-object input and response. *)
Definition corrupt_parameters_row : sqlc.GetRequestFullTraceRow.t :=
  sqlc.GetRequestFullTraceRow.mk (pgtype.mkUUID 0 true) pgtype.UUID_zero "gpt-4"
    [list_ascii_of_string "{}"] (list_ascii_of_string "{") (list_ascii_of_string "{}")
    None pgtype.Text_zero pgtype.Text_zero pgtype.Bool_zero pgtype.Text_zero
    pgtype.Numeric_zero.

Definition corrupt_parameters_store_row : store.postgres.GetRequestFullTraceRow.t :=
  store.postgres.GetRequestFullTraceRow.mk (pgtype.mkUUID 0 true) pgtype.UUID_zero
    "gpt-4" [list_ascii_of_string "{}"] (list_ascii_of_string "{") pgtype.Text_zero
    None pgtype.Text_zero pgtype.Text_zero pgtype.Bool_zero pgtype.Text_zero
    pgtype.Numeric_zero.

End sample.

(* ================================================================= *)
(** ** Package [firewall]: loading the configuration *)

Record rawFirewall := mkRawFirewall {
  raw_Enabled : bool;
  raw_Type : string;
  raw_Model : string;
  raw_BlockingThreshold : float
}.

Record rawConfig := mkRawConfig { raw_Firewalls : list rawFirewall }.

(** What [LoadConfig] calls and the sources at hand do not hold: the
    constructors of packages [types] and [internal], [os.ReadFile] and
    [yaml.Unmarshal] into a [rawConfig]. *)
Class ConfigPkg {T : TypesPkg} := {
  InternalModelName : Type;                                (* types.InternalModelName *)
  NewFirewallType : string -> result FirewallType;
  NewInternalModelName : string -> result InternalModelName;
  GetModel : InternalModelName -> result InternalModel;    (* internal.GetModel *)
  os_ReadFile : string -> result bytes;
  yaml_Unmarshal : bytes -> result rawConfig
}.

Section LoadingConfig.
Context {T : TypesPkg} {C : ConfigPkg}.

(** One turn of the loop of [LoadConfig]: the firewall made of one raw entry. *)
Definition load_firewall (rf : rawFirewall) : result Firewall_config :=
  ft <- wrap "invalid firewall type" (NewFirewallType (raw_Type rf)) ;;
  modelName <- wrap "invalid model name" (NewInternalModelName (raw_Model rf)) ;;
  model <- wrap "failed to get model" (GetModel modelName) ;;
  Ok (mkFirewall (raw_Enabled rf) ft model (raw_BlockingThreshold rf)).

(** The loop of [LoadConfig] over [raw.Firewalls]. *)
Fixpoint load_firewalls (raws : list rawFirewall) (firewalls : list Firewall_config)
  : result (list Firewall_config) :=
  match raws with
  | [] => Ok firewalls
  | rf :: rest =>
      fw <- load_firewall rf ;;
      load_firewalls rest (firewalls ++ [fw])
  end.

(** [LoadConfig]: the errors of reading and of decoding are returned as they
    are, those of the loop with their prefix. *)
Definition LoadConfig (path : string) : result Config :=
  data <- os_ReadFile path ;;
  raw <- yaml_Unmarshal data ;;
  firewalls <- load_firewalls (raw_Firewalls raw) [] ;;
  Ok (mkConfig firewalls).

(** What one raw entry becomes when it loads. *)
Definition loaded_from (rf : rawFirewall) (fw : Firewall_config) : Prop :=
  Enabled fw = raw_Enabled rf
  /\ BlockingThreshold fw = raw_BlockingThreshold rf
  /\ NewFirewallType (raw_Type rf) = Ok (Type_ fw)
  /\ exists modelName,
      NewInternalModelName (raw_Model rf) = Ok modelName
      /\ GetModel modelName = Ok (Model fw).

End LoadingConfig.

(** The firewall event that [GetTrace] makes of a joined row and its decoded
    risk score. *)
Definition row_event (r : sqlc.GetRequestFullTraceRow.t) (score : float)
  : audit.FirewallEvent.t :=
  audit.FirewallEvent.mk
    (pgtype.UUID_String (sqlc.GetRequestFullTraceRow.RequestID r))
    (pgtype.Text_String (sqlc.GetRequestFullTraceRow.FirewallID r))
    (pgtype.Text_String (sqlc.GetRequestFullTraceRow.FirewallType r))
    (pgtype.Bool_Bool (sqlc.GetRequestFullTraceRow.Blocked r))
    (pgtype.Text_String (sqlc.GetRequestFullTraceRow.BlockedReason r))
    score.

(** The rows that carry a firewall event, each as the event it decodes to. *)
Definition row_events (rows : list sqlc.GetRequestFullTraceRow.t)
  : list audit.FirewallEvent.t :=
  flat_map
    (fun r =>
       if pgtype.Text_Valid (sqlc.GetRequestFullTraceRow.FirewallID r) then
         match pgtype.Float64Value (sqlc.GetRequestFullTraceRow.RiskScore r) with
         | Ok score => [row_event r (pgtype.Float64 score)]
         | Err _ => []
         end
       else [])
    rows.

(** The column a discarded [Scan] error leaves: the scanned id, or NULL. *)
Definition scanned_id (s : string) : pgtype.UUID :=
  ignoring_error pgtype.UUID_zero (pgtype.UUID_Scan s).

Module fixtures.

(** A configuration environment: firewall types and model names must not be
    empty, two models are known, one file exists, and the decoder knows the
    content of that file. *)
Definition known_models : list string := ["classifier-1"; "classifier-2"].

Definition NewFirewallType (s : string) : result string :=
  if String.eqb s "" then Err "empty firewall type" else Ok s.

Definition NewInternalModelName (s : string) : result string :=
  if String.eqb s "" then Err "empty model name" else Ok s.

Definition GetModel (name : string) : result string :=
  if existsb (String.eqb name) known_models then Ok name else Err "unknown model".

Definition config_path : string := "firewalls.yaml".

Definition config_text : bytes := list_ascii_of_string "firewalls: two entries".

(** Two entries: the second is disabled and its threshold is 7.5. *)
Definition raw_config : rawConfig :=
  mkRawConfig
    [mkRawFirewall true "malicious_intent" "classifier-1" 0.5%float;
     mkRawFirewall false "hate_speech" "classifier-2" 7.5%float].

(** A raw entry whose model is not known, disabled. *)
Definition unknown_model_entry : rawFirewall :=
  mkRawFirewall false "malicious_intent" "classifier-9" 0.5%float.

(** A second file: the same two entries, then the entry that does not load,
    then one more. *)
Definition broken_path : string := "broken.yaml".

Definition broken_text : bytes := list_ascii_of_string "firewalls: four entries".

Definition broken_config : rawConfig :=
  mkRawConfig
    (raw_Firewalls raw_config ++
     [unknown_model_entry; mkRawFirewall true "" "" 0.5%float]).

Definition ReadFile (path : string) : result bytes :=
  if String.eqb path config_path then Ok config_text
  else if String.eqb path broken_path then Ok broken_text
  else Err "open: no such file or directory".

Definition Unmarshal (data : bytes) : result rawConfig :=
  if list_eq_dec Ascii.ascii_dec data config_text then Ok raw_config
  else if list_eq_dec Ascii.ascii_dec data broken_text then Ok broken_config
  else Err "yaml: unmarshal errors".

Definition config_pkg : @ConfigPkg types_model.pkg :=
  @Build_ConfigPkg types_model.pkg string NewFirewallType NewInternalModelName
    GetModel ReadFile Unmarshal.

(** Requests for the validator. *)
Definition bye : any := AMap [("role", AStr "assistant"); ("content", AStr "bye")].

Definition no_role : any := AMap [("content", AStr "hi")].

Definition two_messages : GenerateRequest :=
  mkGenerateRequest "gpt-4" true (Some 64%Z) (Some 0.5%float) [sample.hi; bye].

Definition unknown_model_request : GenerateRequest :=
  mkGenerateRequest "gpt-5" false (Some (-1)%Z) None [].

Definition bad_second_message : GenerateRequest :=
  mkGenerateRequest "gpt-4" false None None [sample.hi; no_role; AStr "x"].

(** Audit requests: one whose user id is not a UUID and that has no client
    address, one with an upper-case user id. *)
Definition anonymous_request : audit.Request.t :=
  audit.Request.mk "U1" "" "gpt-4" "https://api.openai.com/v1/chat/completions"
    [Some [("role", AStr "user"); ("content", AStr "hi")]] None "".

Definition upper_case_request : audit.Request.t :=
  audit.Request.mk "0A000000-0000-0000-0000-0000000000AA" "" "gpt-4" ""
    [Some [("role", AStr "user"); ("content", AStr "hi")]] None "127.0.0.1".

(** A request with a message that does not encode and, besides, parameters
    that do not encode and an address that does not parse. *)
Definition thrice_bad_request : audit.Request.t :=
  audit.Request.mk "" "" "gpt-4" ""
    [Some [("role", AStr "user")]; Some [("callback", AChan)]]
    (Some [("hook", AChan)]) "localhost".

(** Two events: the first does not block, the second does. *)
Definition passing_event : audit.FirewallEvent.t :=
  audit.FirewallEvent.mk sample.request_id "NO_HATE_SPEECH" "triggered" false ""
    0.25%float.

Definition blocking_event : audit.FirewallEvent.t :=
  audit.FirewallEvent.mk sample.request_id "NO_MALICE" "triggered" true
    "malicious intent" 0.75%float.

Definition malformed_id_event : audit.FirewallEvent.t :=
  audit.FirewallEvent.mk "not-a-uuid" "NO_MALICE" "triggered" true "x" infinity.

Definition infinite_score_event : audit.FirewallEvent.t :=
  audit.FirewallEvent.mk sample.request_id "NO_MALICE" "triggered" true "x" infinity.

(** The database after the demonstration request, its response and the two
    events, and the rows the trace query returns for the request. *)
Definition two_events_db : sqlc.DB :=
  let db2 := snd (@audit.LogResponse json.codec sample.audit_response sample.one_request) in
  let db3 := snd (audit.LogFirewallEvent passing_event db2) in
  snd (audit.LogFirewallEvent blocking_event db3).

Definition two_events_rows : list sqlc.GetRequestFullTraceRow.t :=
  match sqlc.GetRequestFullTrace (pgtype.mkUUID 0 true) two_events_db with
  | Ok rows => rows
  | Err _ => []
  end.

End fixtures.

(* ================================================================= *)
(** * Properties *)

(** ** The two ways the callers use [json.Unmarshal] *)

Section UnmarshalFacts.
Context {JSON : EncodingJSON}.

(** Where the call reports no error, the map it left is the map the
    checking caller uses. *)
Lemma json_Unmarshal_unchecked_ok (data : bytes) (m : gomap) :
  json_Unmarshal data = Ok m -> json_Unmarshal_unchecked data = m.
Proof.
  unfold json_Unmarshal, json_Unmarshal_unchecked.
  destruct (json_Unmarshal_into data) as [v [e|]]; [discriminate|].
  now intros [= ->].
Qed.

Lemma json_Unmarshal_error (data : bytes) (e : error) :
  json_Unmarshal data = Err e <-> snd (json_Unmarshal_into data) = Some e.
Proof.
  unfold json_Unmarshal.
  destruct (json_Unmarshal_into data) as [v [e'|]]; cbn; split; congruence.
Qed.

End UnmarshalFacts.

(** ** The firewall hook and the validator *)

Section NetrunnerFacts.
Context {T : TypesPkg}.

Lemma index_last {A} (l : list A) (x : A) :
  index (l ++ [x]) (Z.of_nat (List.length (l ++ [x])) - 1) = Returned x.
Proof.
  unfold index. rewrite length_app. cbn [List.length].
  replace (Z.of_nat (List.length l + 1) - 1)%Z with (Z.of_nat (List.length l)) by lia.
  replace (Z.of_nat (List.length l) <? 0)%Z with false by (symmetry; apply Z.ltb_ge; lia).
  replace (Z.of_nat (List.length l + 1) <=? Z.of_nat (List.length l))%Z with false
    by (symmetry; apply Z.leb_gt; lia).
  cbn [orb]. rewrite Nat2Z.id, nth_error_app2 by lia.
  now rewrite Nat.sub_diag.
Qed.

(** On a non-empty message list the index expression returns the last message. *)
Lemma last_message_nonempty (messages : list Message) :
  messages <> [] -> last_message messages = Returned (last messages (mkMessage "" "")).
Proof.
  intros Hne. destruct (exists_last Hne) as [l [x ->]].
  unfold last_message. rewrite index_last. now rewrite last_last.
Qed.

(** On the empty list it panics: there is no bounds check before it. *)
Lemma last_message_empty : last_message [] = Panicked "index out of range".
Proof. reflexivity. Qed.

Lemma Firewall_nonempty (payload : GeneratePayload) (w : World) :
  Messages payload <> [] ->
  fst (Firewall payload w)
  = Returned (StatusForbidden, Some "request rejected: blocked by firewall").
Proof.
  intros Hne. unfold Firewall. now rewrite (last_message_nonempty _ Hne).
Qed.

Lemma Firewall_never_admits (payload : GeneratePayload) (w : World) :
  fst (Firewall payload w) <> Returned (StatusOK, None).
Proof.
  unfold Firewall. destruct (last_message (Messages payload)); cbn; discriminate.
Qed.

(** The hook writes one log line and one empty line, and nothing else. *)
Lemma Firewall_world (payload : GeneratePayload) (w : World) :
  snd (Firewall payload w)
  = mkWorld (log w ++ ["Firewall hook called with payload"]) (stdout w ++ [""])
            (audit_db w) (store_db w).
Proof.
  unfold Firewall. destruct (last_message (Messages payload)); reflexivity.
Qed.

Lemma parse_messages_length (msgs : list any) :
  forall acc out,
    parse_messages msgs acc = Ok out ->
    List.length out = List.length acc + List.length msgs.
Proof.
  induction msgs as [|msg rest IH]; intros acc out H; cbn in H.
  - injection H as <-. cbn. lia.
  - destruct (NewMessageFromJson msg) as [m|e]; cbn in H; [|discriminate].
    apply IH in H. rewrite H, length_app. cbn. lia.
Qed.

Lemma ParseGenerateRequest_length (req : GenerateRequest) (registry : Registry)
      (payload : GeneratePayload) :
  ParseGenerateRequest req registry = Ok payload ->
  List.length (Messages payload) = List.length (Request_Messages req)
  /\ (0 < List.length (Request_Messages req))%nat.
Proof.
  unfold ParseGenerateRequest. intros H.
  destruct (NewName (Request_Name req)) as [name|e]; cbn in H; [|discriminate].
  destruct (GetInfo registry (Name_String name)) as [info|]; [|discriminate].
  destruct (Request_MaxTokens req) as [n|]; cbn in H.
  - destruct (NewMaxTokens n); cbn in H; [|discriminate].
    destruct (Request_Temperature req) as [t|]; cbn in H.
    + destruct (NewTemperature t); cbn in H; [|discriminate].
      destruct (List.length (Request_Messages req) =? 0)%nat eqn:E; [discriminate|].
      apply Nat.eqb_neq in E.
      destruct (parse_messages (Request_Messages req) []) eqn:P; cbn in H; [|discriminate].
      injection H as <-. cbn. apply parse_messages_length in P. cbn in P. lia.
    + destruct (List.length (Request_Messages req) =? 0)%nat eqn:E; [discriminate|].
      apply Nat.eqb_neq in E.
      destruct (parse_messages (Request_Messages req) []) eqn:P; cbn in H; [|discriminate].
      injection H as <-. cbn. apply parse_messages_length in P. cbn in P. lia.
  - destruct (Request_Temperature req) as [t|]; cbn in H.
    + destruct (NewTemperature t); cbn in H; [|discriminate].
      destruct (List.length (Request_Messages req) =? 0)%nat eqn:E; [discriminate|].
      apply Nat.eqb_neq in E.
      destruct (parse_messages (Request_Messages req) []) eqn:P; cbn in H; [|discriminate].
      injection H as <-. cbn. apply parse_messages_length in P. cbn in P. lia.
    + destruct (List.length (Request_Messages req) =? 0)%nat eqn:E; [discriminate|].
      apply Nat.eqb_neq in E.
      destruct (parse_messages (Request_Messages req) []) eqn:P; cbn in H; [|discriminate].
      injection H as <-. cbn. apply parse_messages_length in P. cbn in P. lia.
Qed.

Lemma ParseGenerateRequest_empty (req : GenerateRequest) (registry : Registry) :
  Request_Messages req = [] ->
  exists e, ParseGenerateRequest req registry = Err e.
Proof.
  intros Hempty.
  destruct (ParseGenerateRequest req registry) as [p|e] eqn:H; [|now exists e].
  apply ParseGenerateRequest_length in H. rewrite Hempty in H. cbn in H. lia.
Qed.

End NetrunnerFacts.

(** C2, as stated, does not hold: with one enabled firewall configured the
    hook appends no firewall event. *)
Lemma C2_counterexample :
  ~ (forall (cfg : @Config types_model.pkg)
            (payload : @GeneratePayload types_model.pkg) (w : World),
        Messages payload <> [] ->
        events_logged (snd (Firewall payload w))
        = events_logged w + List.length (filter Enabled (Firewalls cfg))).
Proof.
  intros H.
  specialize (H sample.config sample.payload sample.world).
  vm_compute in H. assert (0 = 1) by (apply H; discriminate). discriminate.
Qed.

(** C2 (amended): for every payload and every list of firewall
    configurations, the hook consults no configuration and invokes no
    classifier; it applies its one message check to the payload's latest
    message and appends no firewall event: both audit databases are left as
    they were, and the log grows by the hook's own line only, whereas every
    run of the classifier would add a line of its own. *)
Theorem C2_hook_appends_no_firewall_event `{T : TypesPkg} :
  forall (cfg : Config) (payload : GeneratePayload) (w : World),
    audit_db (snd (Firewall payload w)) = audit_db w
    /\ store_db (snd (Firewall payload w)) = store_db w
    /\ events_logged (snd (Firewall payload w)) = events_logged w
    /\ log (snd (Firewall payload w)) = log w ++ ["Firewall hook called with payload"]
    /\ (forall m model threshold w',
          log (snd (Run m model threshold w'))
          = log w' ++ [("running custom firewall with content: " ++ Content m)%string])
    /\ fst (Firewall payload w)
       = match last_message (Messages payload) with
         | Returned m =>
             if checkMessage m then Returned (StatusOK, None)
             else Returned (StatusForbidden, Some "request rejected: blocked by firewall")
         | Panicked msg => Panicked msg
         end.
Proof.
  intros cfg payload w. rewrite Firewall_world. unfold events_logged. cbn.
  repeat split.
  unfold Firewall. now destruct (last_message (Messages payload)).
Qed.

(** C7: a request with an empty messages array fails validation, with the
    error "messages must be a non-empty array" when the checks before it
    pass, and every payload the validator produces has a non-empty message
    list. *)
Theorem C7_messages_must_be_non_empty `{T : TypesPkg} :
  forall (req : GenerateRequest) (registry : Registry),
    (Request_Messages req = [] -> exists e, ParseGenerateRequest req registry = Err e)
    /\ (forall name info,
          Request_Messages req = [] ->
          NewName (Request_Name req) = Ok name ->
          GetInfo registry (Name_String name) = Some info ->
          match Request_MaxTokens req with
          | Some n => is_ok (NewMaxTokens n) = true
          | None => True
          end ->
          match Request_Temperature req with
          | Some t => is_ok (NewTemperature t) = true
          | None => True
          end ->
          ParseGenerateRequest req registry = Err "messages must be a non-empty array")
    /\ (forall payload,
          ParseGenerateRequest req registry = Ok payload -> Messages payload <> []).
Proof.
  intros req registry. split; [apply ParseGenerateRequest_empty|]. split.
  - intros name info Hempty Hname Hinfo Hmax Htemp.
    unfold ParseGenerateRequest. rewrite Hname. cbn. rewrite Hinfo.
    destruct (Request_MaxTokens req) as [n|]; cbn.
    + destruct (NewMaxTokens n); [cbn|discriminate].
      destruct (Request_Temperature req) as [t|]; cbn.
      * destruct (NewTemperature t); [cbn|discriminate]. now rewrite Hempty.
      * now rewrite Hempty.
    + destruct (Request_Temperature req) as [t|]; cbn.
      * destruct (NewTemperature t); [cbn|discriminate]. now rewrite Hempty.
      * now rewrite Hempty.
  - intros payload H. apply ParseGenerateRequest_length in H.
    intros Hnil. rewrite Hnil in H. cbn in H. lia.
Qed.

Lemma C7_witness :
  @ParseGenerateRequest types_model.pkg sample.request_without_messages sample.registry
  = Err "messages must be a non-empty array"
  /\ Messages sample.payload <> [].
Proof.
  split.
  - apply (proj1 (proj2 (@C7_messages_must_be_non_empty types_model.pkg
                           sample.request_without_messages sample.registry))
             "gpt-4" "openai/gpt-4");
      [reflexivity | reflexivity | reflexivity | exact I | exact I].
  - apply (proj2 (proj2 (@C7_messages_must_be_non_empty types_model.pkg
                           sample.request sample.registry))).
    reflexivity.
Defined.

(** C9, as stated, does not hold for every payload: on a payload whose
    message list is empty the hook panics and returns no decision. *)
Lemma C9_counterexample :
  fst (Firewall sample.payload_without_messages sample.world)
  = Panicked "index out of range"
  /\ ~ (forall (payload : @GeneratePayload types_model.pkg) (w : World),
          fst (Firewall payload w)
          = Returned (StatusForbidden, Some "request rejected: blocked by firewall")).
Proof.
  split; [reflexivity|].
  intros H. specialize (H sample.payload_without_messages sample.world).
  vm_compute in H. discriminate H.
Qed.

(** C9 (amended): for every payload with a non-empty message list the hook
    returns status 403 with the reason "request rejected: blocked by
    firewall"; its message check is constantly false and the
    malicious-intent classifier constantly answers true without an error,
    whatever the message, the model and the threshold; the hook admits no
    request. *)
Theorem C9_hook_blocks_every_request `{T : TypesPkg} :
  forall (payload : GeneratePayload) (w : World),
    Messages payload <> [] ->
    fst (Firewall payload w)
    = Returned (StatusForbidden, Some "request rejected: blocked by firewall")
    /\ (forall m, checkMessage m = false)
    /\ (forall m model threshold w', fst (Run m model threshold w') = (true, None))
    /\ (forall payload' w', fst (Firewall payload' w') <> Returned (StatusOK, None)).
Proof.
  intros payload w Hne. split; [now apply Firewall_nonempty|].
  split; [reflexivity|]. split; [reflexivity|].
  intros payload' w'. apply Firewall_never_admits.
Qed.

Lemma C9_witness :
  fst (Firewall sample.payload sample.world)
  = Returned (StatusForbidden, Some "request rejected: blocked by firewall").
Proof.
  apply (@C9_hook_blocks_every_request types_model.pkg sample.payload sample.world).
  discriminate.
Defined.

(** C10: the hook indexes the last message without a bounds check, so an
    empty list makes it panic; a payload produced by the validator has a
    non-empty list, so on it the access returns a message and the hook does
    not panic. *)
Theorem C10_validated_payload_never_panics `{T : TypesPkg} :
  forall (req : GenerateRequest) (registry : Registry) (payload : GeneratePayload)
         (w : World),
    ParseGenerateRequest req registry = Ok payload ->
    last_message [] = Panicked "index out of range"
    /\ (exists m, last_message (Messages payload) = Returned m)
    /\ (forall msg, fst (Firewall payload w) <> Panicked msg).
Proof.
  intros req registry payload w H. split; [reflexivity|].
  assert (Hne : Messages payload <> []).
  { apply ParseGenerateRequest_length in H. intros Hnil. rewrite Hnil in H.
    cbn in H. lia. }
  split.
  - eexists. now apply last_message_nonempty.
  - intros msg. rewrite (Firewall_nonempty _ w Hne). discriminate.
Qed.

Lemma C10_witness :
  (exists m, last_message (Messages sample.payload) = Returned m)
  /\ (forall msg, fst (Firewall sample.payload sample.world) <> Panicked msg).
Proof.
  apply (@C10_validated_payload_never_panics types_model.pkg sample.request
           sample.registry sample.payload sample.world).
  reflexivity.
Defined.
Module pgtype_facts.
Import pgtype.

Lemma hexval_hexchar (d : N) : (d < 16)%N -> hexval (hexchar d) = Some d.
Proof.
  intros H.
  assert (Hc : (d = 0 \/ d = 1 \/ d = 2 \/ d = 3 \/ d = 4 \/ d = 5 \/ d = 6 \/ d = 7 \/
                d = 8 \/ d = 9 \/ d = 10 \/ d = 11 \/ d = 12 \/ d = 13 \/ d = 14 \/
                d = 15)%N) by lia.
  repeat (destruct Hc as [-> | Hc]; [reflexivity|]). now subst.
Qed.

Lemma hexdigits_length (k : nat) : forall u, List.length (hexdigits k u) = k.
Proof.
  induction k as [|k IH]; intros u; cbn; [reflexivity|].
  rewrite length_app, IH. cbn. lia.
Qed.

Lemma hexdecode_hexdigits (k : nat) :
  forall u acc rest,
    hexdecode acc (hexdigits k u ++ rest)
    = hexdecode (acc * 16 ^ N.of_nat k + u mod 16 ^ N.of_nat k)%N rest.
Proof.
  induction k as [|k IH]; intros u acc rest.
  - cbn [hexdigits app]. f_equal. cbn. rewrite N.mod_1_r. lia.
  - cbn [hexdigits]. rewrite <- app_assoc. cbn [app]. rewrite IH.
    cbn [hexdecode]. rewrite hexval_hexchar by (apply N.mod_lt; lia).
    f_equal. rewrite Nat2N.inj_succ, N.pow_succ_r'.
    rewrite (N.Div0.mod_mul_r u 16 (16 ^ N.of_nat k)). lia.
Qed.

Lemma strip_dashes (d : list ascii) :
  List.length d = 32 ->
  let s := slice d 0 8 ++ "-"%char :: slice d 8 12 ++ "-"%char :: slice d 12 16 ++
           "-"%char :: slice d 16 20 ++ "-"%char :: slice d 20 32 in
  List.length s = 36
  /\ slice s 0 8 ++ slice s 9 13 ++ slice s 14 18 ++ slice s 19 23 ++ skipn 24 s = d.
Proof.
  intros H.
  do 32 (destruct d as [|? d]; [discriminate H|]).
  destruct d; [|discriminate H]. split; reflexivity.
Qed.

(** A 128-bit id survives printing and scanning. *)
Lemma parseUUID_encodeUUID (u : N) :
  (u < 2 ^ 128)%N -> parseUUID (encodeUUID u) = Ok u.
Proof.
  intros Hu. unfold parseUUID, encodeUUID.
  rewrite list_ascii_of_string_of_list_ascii.
  destruct (strip_dashes (hexdigits 32 u) (hexdigits_length 32 u)) as [Hlen Hstrip].
  cbv zeta in Hlen, Hstrip. rewrite Hlen, Hstrip.
  rewrite <- (app_nil_r (hexdigits 32 u)), hexdecode_hexdigits.
  cbn [hexdecode]. rewrite N.mul_0_l, N.add_0_l.
  rewrite N.mod_small; [reflexivity|].
  replace (16 ^ N.of_nat 32)%N with (2 ^ 128)%N by reflexivity. exact Hu.
Qed.

Lemma UUID_Scan_String (u : N) :
  (u < 2 ^ 128)%N -> UUID_Scan (UUID_String (mkUUID u true)) = Ok (mkUUID u true).
Proof.
  intros Hu. unfold UUID_Scan, UUID_String. cbn [UUID_Valid Bytes].
  now rewrite parseUUID_encodeUUID.
Qed.

Lemma UUID_eqb_eq (a b : UUID) : UUID_eqb a b = true <-> a = b.
Proof.
  destruct a as [x va], b as [y vb]. unfold UUID_eqb. cbn.
  rewrite andb_true_iff, N.eqb_eq, Bool.eqb_true_iff.
  split; [intros [-> ->]; reflexivity | intros [= -> ->]; auto].
Qed.

Lemma UUID_eqb_refl (a : UUID) : UUID_eqb a a = true.
Proof. now apply UUID_eqb_eq. Qed.

End pgtype_facts.

(** ** The query layer *)

Module sqlc_facts.
Import pgtype pgtype_facts sqlc.

Lemma filter_none {A} (f : A -> bool) (l : list A) :
  (forall x, In x l -> f x = false) -> filter f l = [].
Proof.
  induction l as [|a l IH]; intros H; cbn; [reflexivity|].
  rewrite (H a (or_introl eq_refl)). apply IH. intros x Hx. apply H. now right.
Qed.

Lemma gen_random_uuid_fresh (db : DB) (u : N) :
  gen_random_uuid db = Some u ->
  (u < 2 ^ 128)%N /\ ~ In u (used_ids db).
Proof.
  unfold gen_random_uuid. intros H. apply find_some in H as [_ H].
  apply andb_true_iff in H as [Hlt Hnew]. split; [now apply N.ltb_lt|].
  intros Hin. apply negb_true_iff in Hnew.
  assert (existsb (N.eqb u) (used_ids db) = true); [|congruence].
  apply existsb_exists. exists u. split; [assumption | apply N.eqb_refl].
Qed.

Lemma request_exists_used (db : DB) (id : UUID) :
  request_exists db id = true -> In (Bytes id) (used_ids db).
Proof.
  unfold request_exists, used_ids. intros H.
  apply andb_true_iff in H as [_ H]. apply existsb_exists in H as [r [Hin Heq]].
  apply UUID_eqb_eq in Heq. subst id.
  now apply (in_map (fun r => Bytes (RequestLog.RequestID r))).
Qed.

Lemma request_exists_mono (db : DB) (row : RequestLog.t) (id : UUID) resp ev :
  request_exists db id = true ->
  request_exists (mkDB (request_log db ++ [row]) resp ev) id = true.
Proof.
  unfold request_exists. cbn. intros H.
  apply andb_true_iff in H as [Hv H]. rewrite Hv, existsb_app, H. reflexivity.
Qed.

Lemma request_exists_tables (db : DB) resp ev (id : UUID) :
  request_exists (mkDB (request_log db) resp ev) id = request_exists db id.
Proof. reflexivity. Qed.

(** The three inserts keep the referential invariant. *)
Lemma InsertRequestLog_referential arg db :
  referential db -> referential (snd (InsertRequestLog arg db)).
Proof.
  unfold InsertRequestLog. intros [Hr He].
  destruct (gen_random_uuid db); cbn; [|now split].
  split; cbn; eapply Forall_impl; try eassumption; cbn; intros;
    now apply request_exists_mono.
Qed.

Lemma InsertResponseLog_referential arg db :
  referential db -> referential (snd (InsertResponseLog arg db)).
Proof.
  unfold InsertResponseLog. intros [Hr He].
  destruct (request_exists db (InsertResponseLogParams.RequestID arg)) eqn:E;
    cbn; [|now split].
  split; cbn; [|exact He].
  apply Forall_app. split; [exact Hr|]. constructor; [exact E | constructor].
Qed.

Lemma InsertFirewallEvent_referential arg db :
  referential db -> referential (snd (InsertFirewallEvent arg db)).
Proof.
  unfold InsertFirewallEvent. intros [Hr He].
  destruct (request_exists db (InsertFirewallEventParams.RequestID arg)) eqn:E;
    cbn; [|now split].
  split; cbn; [exact Hr|].
  apply Forall_app. split; [exact He|]. constructor; [exact E | constructor].
Qed.

Lemma referential_empty : referential empty.
Proof. split; constructor. Qed.

(** The id of a request row that was just inserted is carried by that row
    and by no other row of any table. *)
Lemma InsertRequestLog_fresh arg db row db' :
  referential db ->
  InsertRequestLog arg db = (Ok row, db') ->
  let id := RequestLog.RequestID row in
  (Bytes id < 2 ^ 128)%N
  /\ UUID_Valid id = true
  /\ db' = mkDB (request_log db ++ [row]) (response_log db) (firewall_event db)
  /\ filter (fun r => UUID_eqb (RequestLog.RequestID r) id) (request_log db') = [row]
  /\ filter (fun r => UUID_eqb (ResponseLog.RequestID r) id) (response_log db) = []
  /\ filter (fun e => UUID_eqb (FirewallEvent.RequestID e) id) (firewall_event db) = [].
Proof.
  unfold InsertRequestLog. intros [Hr He] H.
  destruct (gen_random_uuid db) as [u|] eqn:G; [|discriminate].
  injection H as <- <-. cbn [RequestLog.RequestID Bytes UUID_Valid request_log].
  apply gen_random_uuid_fresh in G as [Hlt Hfresh].
  repeat (split; [first [exact Hlt | reflexivity]|]).
  split; [|split].
  - rewrite filter_app. cbn [filter RequestLog.RequestID].
    rewrite UUID_eqb_refl, filter_none; [reflexivity|].
    intros r Hin. destruct (UUID_eqb _ _) eqn:E; [|reflexivity].
    apply UUID_eqb_eq in E. exfalso. apply Hfresh. unfold used_ids.
    change u with (Bytes (mkUUID u true)). rewrite <- E.
    now apply (in_map (fun r => Bytes (RequestLog.RequestID r))).
  - apply filter_none. intros r Hin.
    destruct (UUID_eqb _ _) eqn:E; [|reflexivity].
    apply UUID_eqb_eq in E. exfalso. apply Hfresh.
    rewrite Forall_forall in Hr. apply Hr in Hin. rewrite E in Hin.
    now apply request_exists_used in Hin.
  - apply filter_none. intros r Hin.
    destruct (UUID_eqb _ _) eqn:E; [|reflexivity].
    apply UUID_eqb_eq in E. exfalso. apply Hfresh.
    rewrite Forall_forall in He. apply He in Hin. rewrite E in Hin.
    now apply request_exists_used in Hin.
Qed.

Lemma InsertRequestLog_columns arg db row db' :
  InsertRequestLog arg db = (Ok row, db') ->
  RequestLog.Model row = InsertRequestLogParams.Model arg
  /\ RequestLog.Inputs row = InsertRequestLogParams.Inputs arg
  /\ RequestLog.Parameters row = InsertRequestLogParams.Parameters arg.
Proof.
  unfold InsertRequestLog. destruct (gen_random_uuid db); [|discriminate].
  intros [= <- _]. auto.
Qed.

(** A request row that was just inserted is what the trace query returns
    for its id: one row, with no response and no firewall event joined. *)
Lemma GetRequestFullTrace_after_insert arg db row db' :
  referential db ->
  InsertRequestLog arg db = (Ok row, db') ->
  GetRequestFullTrace (RequestLog.RequestID row) db' = Ok [joined_row row None None].
Proof.
  intros Href H.
  destruct (InsertRequestLog_fresh _ _ _ _ Href H) as [_ [Hv [Hdb [Hreq [Hresp Hev]]]]].
  unfold GetRequestFullTrace, responses_of, events_of. rewrite Hv. cbn [andb].
  rewrite Hreq. subst db'. cbn [response_log firewall_event].
  rewrite Hresp, Hev. reflexivity.
Qed.

(** Once its response is inserted too, the query returns the one row with
    that response joined. *)
Lemma GetRequestFullTrace_after_response arg db row db' body latency :
  referential db ->
  InsertRequestLog arg db = (Ok row, db') ->
  let resp := ResponseLog.mk (RequestLog.RequestID row) body latency in
  InsertResponseLog
    (InsertResponseLogParams.mk (RequestLog.RequestID row) body latency) db'
  = (Ok resp,
     mkDB (request_log db') (response_log db' ++ [resp]) (firewall_event db'))
  /\ GetRequestFullTrace (RequestLog.RequestID row)
       (mkDB (request_log db') (response_log db' ++ [resp]) (firewall_event db'))
     = Ok [joined_row row (Some resp) None].
Proof.
  intros Href H.
  destruct (InsertRequestLog_fresh _ _ _ _ Href H) as [_ [Hv [Hdb [Hreq [Hresp Hev]]]]].
  cbv zeta. split.
  - unfold InsertResponseLog, request_exists.
    cbn [InsertResponseLogParams.RequestID InsertResponseLogParams.Response
         InsertResponseLogParams.LatencyMs].
    rewrite Hv. cbn [andb].
    assert (Hex : existsb (fun r => UUID_eqb (RequestLog.RequestID r)
                                      (RequestLog.RequestID row)) (request_log db') = true).
    { apply existsb_exists. exists row. split; [|apply UUID_eqb_refl].
      subst db'. cbn. apply in_or_app. right. now left. }
    now rewrite Hex.
  - unfold GetRequestFullTrace, responses_of, events_of. rewrite Hv.
    cbn [andb request_log response_log firewall_event]. rewrite Hreq.
    subst db'. cbn [response_log firewall_event].
    rewrite filter_app, Hresp, Hev. cbn [filter app ResponseLog.RequestID].
    rewrite UUID_eqb_refl. reflexivity.
Qed.

End sqlc_facts.

(** ** The audit store of [audit.go] *)

Section AuditFacts.
Context {JSON : EncodingJSON} {IP : NetIP}.
Import pgtype pgtype_facts sqlc sqlc_facts audit.

Lemma marshal_inputs_error (inputs : list gomap) :
  forall acc input e,
    In input inputs -> json_Marshal input = Err e ->
    exists e', marshal_inputs inputs acc = Err e'.
Proof.
  induction inputs as [|a rest IH]; intros acc input e Hin Herr; [destruct Hin|].
  cbn. destruct (json_Marshal a) as [b|e0] eqn:Ha; cbn.
  - destruct Hin as [-> | Hin]; [congruence|]. eapply IH; eassumption.
  - eexists. reflexivity.
Qed.

(** What the loop of [LogRequest] returns: the blobs so far, then one blob
    per input, in order. *)
Lemma marshal_inputs_ok (inputs : list gomap) :
  forall acc out,
    marshal_inputs inputs acc = Ok out ->
    exists blobs,
      out = acc ++ blobs
      /\ Forall2 (fun input blob => json_Marshal input = Ok blob) inputs blobs.
Proof.
  induction inputs as [|a rest IH]; intros acc out H; cbn in H.
  - injection H as <-. exists []. split; [now rewrite app_nil_r | constructor].
  - destruct (json_Marshal a) as [b|e0] eqn:Ha; cbn in H; [|discriminate].
    apply IH in H as [blobs [-> HF]]. exists (b :: blobs).
    split; [now rewrite <- app_assoc | now constructor].
Qed.

Lemma unmarshal_inputs_ok (blobs : list bytes) :
  forall acc inputs,
    Forall2 (fun input blob => json_Unmarshal blob = Ok input) inputs blobs ->
    unmarshal_inputs blobs acc = Ok (acc ++ inputs).
Proof.
  induction blobs as [|b rest IH]; intros acc inputs HF;
    inversion HF as [|input b' inputs' rest' Hb Hrest]; subst; cbn.
  - now rewrite app_nil_r.
  - rewrite Hb. cbn. rewrite (IH _ _ Hrest), <- app_assoc. reflexivity.
Qed.

(** The three causes of failure the source checks before the insert. *)
Lemma LogRequest_params_error (r : Request.t) :
  (exists input e, In input (Request.Inputs r) /\ json_Marshal input = Err e)
  \/ (exists e, json_Marshal (Request.Parameters r) = Err e)
  \/ (Request.ClientIP r <> "" /\ exists e, ParseAddr (Request.ClientIP r) = Err e) ->
  exists e, LogRequest_params r = Err e.
Proof.
  unfold LogRequest_params. intros [[input [e [Hin He]]] | [[e He] | [Hne [e He]]]].
  - destruct (marshal_inputs_error _ [] _ _ Hin He) as [e' ->]. cbn. now eexists.
  - destruct (marshal_inputs _ _); cbn; [|now eexists].
    rewrite He. cbn. now eexists.
  - destruct (marshal_inputs _ _); cbn; [|now eexists].
    destruct (json_Marshal _); cbn; [|now eexists].
    apply String.eqb_neq in Hne. rewrite Hne, He. cbn. now eexists.
Qed.

Lemma LogRequest_error (r : Request.t) (db db' : DB) (e : error) :
  LogRequest r db = (Err e, db') -> db' = db.
Proof.
  unfold LogRequest, InsertRequestLog.
  destruct (LogRequest_params r); [|now intros [= _ <-]].
  destruct (gen_random_uuid db); [discriminate | now intros [= _ <-]].
Qed.

Lemma LogRequest_ok (r : Request.t) (db db' : DB) (id : string) :
  LogRequest r db = (Ok id, db') ->
  exists arg row,
    LogRequest_params r = Ok arg
    /\ InsertRequestLog arg db = (Ok row, db')
    /\ id = UUID_String (RequestLog.RequestID row)
    /\ db' = mkDB (request_log db ++ [row]) (response_log db) (firewall_event db).
Proof.
  unfold LogRequest. destruct (LogRequest_params r) as [arg|]; [|discriminate].
  destruct (InsertRequestLog arg db) as [[row|e] db1] eqn:E; [|discriminate].
  intros [= <- <-]. exists arg, row. repeat split; try assumption.
  unfold InsertRequestLog in E. destruct (gen_random_uuid db); [|discriminate].
  now injection E as <- <-.
Qed.

Lemma LogResponse_atomic (r : Response.t) (db : DB) :
  match LogResponse r db with
  | (Some _, db') => db' = db
  | (None, db') =>
      exists row,
        db' = mkDB (request_log db) (response_log db ++ [row]) (firewall_event db)
  end.
Proof.
  unfold LogResponse, InsertResponseLog.
  destruct (json_Marshal (Response.Response r)); cbn; [|reflexivity].
  destruct (request_exists db _); cbn; [now eexists | reflexivity].
Qed.

Lemma LogFirewallEvent_atomic (fe : FirewallEvent.t) (db : DB) :
  match LogFirewallEvent fe db with
  | (Some _, db') => db' = db
  | (None, db') =>
      exists row,
        db' = mkDB (request_log db) (response_log db) (firewall_event db ++ [row])
  end.
Proof.
  unfold LogFirewallEvent, InsertFirewallEvent.
  destruct (LogFirewallEvent_params fe) as [arg|]; [|reflexivity].
  destruct (request_exists db _); cbn; [now eexists | reflexivity].
Qed.

(** The operations keep the referential invariant. *)
Lemma LogRequest_referential r db :
  referential db -> referential (snd (LogRequest r db)).
Proof.
  intros H. unfold LogRequest. destruct (LogRequest_params r) as [arg|]; [|exact H].
  pose proof (InsertRequestLog_referential arg db H) as H'.
  now destruct (InsertRequestLog arg db) as [[row|e] db1].
Qed.

Lemma LogResponse_referential r db :
  referential db -> referential (snd (LogResponse r db)).
Proof.
  intros H. unfold LogResponse.
  destruct (wrap _ (json_Marshal (Response.Response r))) as [b|]; [|exact H].
  match goal with |- context [InsertResponseLog ?a db] =>
    pose proof (InsertResponseLog_referential a db H) as H';
    now destruct (InsertResponseLog a db) as [[row|e] db1] end.
Qed.

Lemma LogFirewallEvent_referential fe db :
  referential db -> referential (snd (LogFirewallEvent fe db)).
Proof.
  intros H. unfold LogFirewallEvent.
  destruct (LogFirewallEvent_params fe) as [arg|]; [|exact H].
  pose proof (InsertFirewallEvent_referential arg db H) as H'.
  now destruct (InsertFirewallEvent arg db) as [[row|e] db1].
Qed.

(** The scan of a printed risk score fails for the infinities only. *)
Lemma Numeric_Scan_float_ok (x : float) :
  not_infinite x = true ->
  exists n, Numeric_Scan_float x = Ok n /\ Numeric_Valid n = true.
Proof.
  unfold not_infinite, Numeric_Scan_float.
  destruct (Prim2SF x); intros H; try discriminate; eexists; split; reflexivity.
Qed.

Lemma Numeric_Scan_float_error (x : float) :
  not_infinite x = false -> exists e, Numeric_Scan_float x = Err e.
Proof.
  unfold not_infinite, Numeric_Scan_float.
  destruct (Prim2SF x); intros H; try discriminate. now eexists.
Qed.

(** [LogFirewallEvent] succeeds exactly when the request id scans, the
    score is not an infinity and the request exists; the score's range
    plays no part. *)
Lemma LogFirewallEvent_ok (fe : FirewallEvent.t) (db : DB) (id : UUID) :
  UUID_Scan (FirewallEvent.RequestID fe) = Ok id ->
  request_exists db id = true ->
  not_infinite (FirewallEvent.RiskScore fe) = true ->
  exists n,
    Numeric_Scan_float (FirewallEvent.RiskScore fe) = Ok n
    /\ LogFirewallEvent fe db
       = (None,
          mkDB (request_log db) (response_log db)
            (firewall_event db ++
             [sqlc.FirewallEvent.mk id (FirewallEvent.FirewallID fe)
                (FirewallEvent.FirewallType fe)
                (mkBool (FirewallEvent.Blocked fe) true)
                (mkText (FirewallEvent.BlockedReason fe) true) n])).
Proof.
  intros Hid Hex Hfin.
  destruct (Numeric_Scan_float_ok _ Hfin) as [n [Hn _]]. exists n. split; [exact Hn|].
  unfold LogFirewallEvent, LogFirewallEvent_params, InsertFirewallEvent.
  rewrite Hid, Hn. cbn. rewrite Hex. reflexivity.
Qed.

Lemma LogFirewallEvent_fails_iff (fe : FirewallEvent.t) (db : DB) :
  fst (LogFirewallEvent fe db) <> None <->
  (is_ok (UUID_Scan (FirewallEvent.RequestID fe)) = false
   \/ not_infinite (FirewallEvent.RiskScore fe) = false
   \/ exists id, UUID_Scan (FirewallEvent.RequestID fe) = Ok id
                 /\ request_exists db id = false).
Proof.
  unfold LogFirewallEvent, LogFirewallEvent_params, InsertFirewallEvent.
  destruct (UUID_Scan (FirewallEvent.RequestID fe)) as [id|e] eqn:Hid; cbn.
  - destruct (not_infinite (FirewallEvent.RiskScore fe)) eqn:Hfin.
    + destruct (Numeric_Scan_float_ok _ Hfin) as [n [-> _]]. cbn.
      destruct (request_exists db id) eqn:Hex; cbn.
      * split; [congruence|]. intros [H | [H | [id' [[= <-] H]]]]; congruence.
      * split; [|discriminate]. intros _. right; right. now exists id.
    + destruct (Numeric_Scan_float_error _ Hfin) as [e ->]. cbn.
      split; [|discriminate]. intros _. right; now left.
  - split; [|discriminate]. intros _. now left.
Qed.

End AuditFacts.

(** ** Trace reconstruction in [audit.go] *)

Section TraceFacts.
Context {JSON : EncodingJSON} {IP : NetIP}.
Import pgtype pgtype_facts sqlc sqlc_facts audit.

Lemma is_ok_wrap {A} (prefix : string) (r : result A) :
  is_ok (wrap prefix r) = is_ok r.
Proof. now destruct r. Qed.

Lemma is_ok_bind {A B} (r : result A) (k : A -> result B) :
  is_ok (bind r k) = match r with Ok a => is_ok (k a) | Err _ => false end.
Proof. now destruct r. Qed.

Lemma unmarshal_inputs_is_ok (blobs : list bytes) :
  forall acc,
    is_ok (unmarshal_inputs blobs acc)
    = forallb (fun b => is_ok (json_Unmarshal b)) blobs.
Proof.
  induction blobs as [|b rest IH]; intros acc; cbn; [reflexivity|].
  destruct (json_Unmarshal b); cbn; [apply IH | reflexivity].
Qed.

Lemma collect_events_is_ok (rows : list GetRequestFullTraceRow.t) :
  forall acc, is_ok (collect_events rows acc) = forallb event_decodes rows.
Proof.
  induction rows as [|r rest IH]; intros acc; cbn; [reflexivity|].
  unfold event_decodes at 1.
  destruct (Text_Valid (GetRequestFullTraceRow.FirewallID r)); cbn; [|apply IH].
  destruct (Float64Value (GetRequestFullTraceRow.RiskScore r)); cbn;
    [apply IH | reflexivity].
Qed.

(** Whether [GetTrace] succeeds on its rows is decided by four decodes:
    of every input, of the response, of the first row's risk score when it
    is not NULL, and of the risk score of every row with an event.  The
    parameters blob is not among them. *)
Lemma trace_of_rows_is_ok (row : GetRequestFullTraceRow.t)
      (rest : list GetRequestFullTraceRow.t) :
  is_ok (trace_of_rows (row :: rest))
  = forallb (fun b => is_ok (json_Unmarshal b)) (GetRequestFullTraceRow.Inputs row)
    && is_ok (json_Unmarshal (GetRequestFullTraceRow.Response row))
    && (negb (Numeric_Valid (GetRequestFullTraceRow.RiskScore row))
        || is_ok (Float64Value (GetRequestFullTraceRow.RiskScore row)))
    && forallb event_decodes (row :: rest).
Proof.
  unfold trace_of_rows.
  rewrite <- (unmarshal_inputs_is_ok _ []), <- (collect_events_is_ok (row :: rest) []).
  destruct (unmarshal_inputs _ _); cbn [bind is_ok andb]; [|reflexivity].
  destruct (json_Unmarshal (GetRequestFullTraceRow.Response row));
    cbn [bind wrap is_ok andb]; [|reflexivity].
  destruct (Numeric_Valid (GetRequestFullTraceRow.RiskScore row)); cbn [negb orb].
  - destruct (Float64Value (GetRequestFullTraceRow.RiskScore row));
      cbn [bind wrap is_ok andb]; [|reflexivity].
    now destruct (collect_events (row :: rest) []).
  - cbn [bind is_ok andb]. now destruct (collect_events (row :: rest) []).
Qed.

Lemma trace_of_rows_parameters row rest t :
  trace_of_rows (row :: rest) = Ok t ->
  Trace.RequestParameters t
  = json_Unmarshal_unchecked (GetRequestFullTraceRow.Parameters row)
  /\ Trace.Model t = GetRequestFullTraceRow.Model row
  /\ unmarshal_inputs (GetRequestFullTraceRow.Inputs row) [] = Ok (Trace.Inputs t)
  /\ json_Unmarshal (GetRequestFullTraceRow.Response row) = Ok (Trace.Response t).
Proof.
  unfold trace_of_rows.
  destruct (unmarshal_inputs _ _); cbn [bind]; [|discriminate].
  destruct (json_Unmarshal (GetRequestFullTraceRow.Response row));
    cbn [bind wrap]; [|discriminate].
  match goal with |- bind ?x _ = _ -> _ => destruct x end; cbn [bind]; [|discriminate].
  destruct (collect_events (row :: rest) []); cbn [bind]; [|discriminate].
  intros [= <-]. cbn. auto.
Qed.

(** A first row whose response column is NULL makes [GetTrace] fail. *)
Lemma trace_of_rows_pending row rest :
  rejects_empty_input JSON ->
  GetRequestFullTraceRow.Response row = [] ->
  trace_of_rows (row :: rest) = Err "invalid response: unexpected end of JSON input"
  \/ exists e, trace_of_rows (row :: rest) = Err ("invalid messages: " ++ e)%string.
Proof.
  intros Hempty Hnull. unfold trace_of_rows. rewrite Hnull, Hempty.
  assert (Hin : forall blobs acc,
             (exists l, unmarshal_inputs blobs acc = Ok l)
             \/ exists e, unmarshal_inputs blobs acc = Err ("invalid messages: " ++ e)%string).
  { induction blobs as [|b bs IH]; intros acc; cbn; [left; now eexists|].
    destruct (json_Unmarshal b); cbn; [apply IH | right; now eexists]. }
  destruct (Hin (GetRequestFullTraceRow.Inputs row) []) as [[l ->] | [e ->]]; cbn.
  - now left.
  - right. now exists e.
Qed.

Lemma GetRequestFullTrace_NULL db : GetRequestFullTrace UUID_zero db = Ok [].
Proof.
  unfold GetRequestFullTrace. cbn [UUID_zero UUID_Valid andb]. f_equal.
  now induction (request_log db).
Qed.

(** The discarded error of the request-id scan does not turn into a trace:
    a NULL id matches no row. *)
Lemma GetTrace_needs_an_id (requestID : string) (db : DB) :
  is_ok (GetTrace requestID db) = true -> is_ok (UUID_Scan requestID) = true.
Proof.
  unfold GetTrace. destruct (UUID_Scan requestID); [reflexivity|].
  cbn [ignoring_error]. rewrite GetRequestFullTrace_NULL. discriminate.
Qed.

Lemma left_join_nonempty {A} (l : list A) : left_join l <> [].
Proof. destruct l; discriminate. Qed.

(** The rows of a request without a response: the first has a NULL
    response column. *)
Lemma GetRequestFullTrace_pending db id :
  request_exists db id = true ->
  responses_of db id = [] ->
  exists row rest,
    GetRequestFullTrace id db = Ok (row :: rest)
    /\ GetRequestFullTraceRow.Response row = [].
Proof.
  unfold request_exists, GetRequestFullTrace. intros Hex Hresp.
  apply andb_true_iff in Hex as [Hv Hex]. rewrite Hv, Hresp. cbn [andb left_join].
  apply existsb_exists in Hex as [r [Hin Heq]].
  assert (Hf : In r (filter (fun r => UUID_eqb (RequestLog.RequestID r) id)
                        (request_log db))) by (apply filter_In; auto).
  destruct (filter _ (request_log db)) as [|req reqs]; [destruct Hf|].
  cbn [flat_map app]. rewrite app_nil_r.
  destruct (left_join (events_of db id)) as [|ev evs] eqn:E;
    [now apply left_join_nonempty in E|].
  cbn [map app]. eexists. eexists. split; reflexivity.
Qed.

Lemma GetTrace_pending db id :
  rejects_empty_input JSON ->
  UUID_Valid id = true ->
  (Bytes id < 2 ^ 128)%N ->
  request_exists db id = true ->
  responses_of db id = [] ->
  GetTrace (UUID_String id) db = Err "invalid response: unexpected end of JSON input"
  \/ exists e, GetTrace (UUID_String id) db = Err ("invalid messages: " ++ e)%string.
Proof.
  intros Hempty Hv Hlt Hex Hresp. destruct id as [u v]. cbn in Hv, Hlt. subst v.
  unfold GetTrace. rewrite UUID_Scan_String by assumption. cbn [ignoring_error].
  destruct (GetRequestFullTrace_pending _ _ Hex Hresp) as [row [rest [-> Hnull]]].
  cbn [bind]. now apply trace_of_rows_pending.
Qed.

Lemma GetTrace_after_LogRequest r db id db' :
  rejects_empty_input JSON ->
  referential db ->
  LogRequest r db = (Ok id, db') ->
  GetTrace id db' = Err "invalid response: unexpected end of JSON input"
  \/ exists e, GetTrace id db' = Err ("invalid messages: " ++ e)%string.
Proof.
  intros Hempty Href H.
  apply LogRequest_ok in H as [arg [row [_ [Hins [-> _]]]]].
  pose proof (GetRequestFullTrace_after_insert _ _ _ _ Href Hins) as Hrows.
  destruct (InsertRequestLog_fresh _ _ _ _ Href Hins) as [Hlt [Hv _]].
  unfold GetTrace. destruct (RequestLog.RequestID row) as [u v] eqn:Hid.
  cbn in Hlt, Hv. subst v. rewrite UUID_Scan_String by assumption.
  cbn [ignoring_error]. rewrite Hrows. cbn [bind].
  now apply trace_of_rows_pending.
Qed.

End TraceFacts.

(** ** The pooled store *)

Module store_facts.
Import pgtype pgtype_facts store store.postgres.

Lemma store_gen_random_uuid_fresh (db : DB) (u : N) :
  gen_random_uuid db = Some u ->
  (u < 2 ^ 128)%N /\ ~ In u (used_ids db).
Proof.
  unfold gen_random_uuid. intros H. apply find_some in H as [_ H].
  apply andb_true_iff in H as [Hlt Hnew]. split; [now apply N.ltb_lt|].
  intros Hin. apply negb_true_iff in Hnew.
  assert (existsb (N.eqb u) (used_ids db) = true); [|congruence].
  apply existsb_exists. exists u. split; [assumption | apply N.eqb_refl].
Qed.

Lemma store_request_exists_used (db : DB) (id : UUID) :
  request_exists db id = true -> In (Bytes id) (used_ids db).
Proof.
  unfold request_exists, used_ids. intros H.
  apply andb_true_iff in H as [_ H]. apply existsb_exists in H as [r [Hin Heq]].
  apply UUID_eqb_eq in Heq. subst id.
  now apply (in_map (fun r => Bytes (RequestLog.RequestID r))).
Qed.

Lemma store_referential_empty : store_referential empty.
Proof. split; constructor. Qed.

(** In the pooled store too, the query for a request that was just
    inserted returns one row, with a NULL response and no event. *)
Lemma store_GetRequestFullTrace_after_insert arg db row db' :
  store_referential db ->
  InsertRequestLog arg db = (Ok row, db') ->
  (Bytes (RequestLog.RequestID row) < 2 ^ 128)%N
  /\ UUID_Valid (RequestLog.RequestID row) = true
  /\ db' = mkDB (request_log db ++ [row]) (response_log db) (firewall_event db)
  /\ RequestLog.Model row = InsertRequestLogParams.Model arg
  /\ RequestLog.Messages row = InsertRequestLogParams.Messages arg
  /\ RequestLog.Parameters row = InsertRequestLogParams.Parameters arg
  /\ GetRequestFullTrace (RequestLog.RequestID row) db'
     = Ok [joined_row row None None].
Proof.
  unfold InsertRequestLog. intros [Hr He] H.
  destruct (gen_random_uuid db) as [u|] eqn:G; [|discriminate].
  injection H as <- <-. cbn [RequestLog.RequestID RequestLog.Model RequestLog.Messages
                               RequestLog.Parameters Bytes UUID_Valid].
  apply store_gen_random_uuid_fresh in G as [Hlt Hfresh].
  repeat (split; [first [exact Hlt | reflexivity]|]).
  unfold GetRequestFullTrace. cbn [request_log UUID_Valid andb]. f_equal.
  assert (Hold : filter (fun r => UUID_eqb (RequestLog.RequestID r) (mkUUID u true))
                        (request_log db) = []).
  { apply sqlc_facts.filter_none. intros r Hin.
    destruct (UUID_eqb _ _) eqn:E; [|reflexivity].
    apply UUID_eqb_eq in E. exfalso. apply Hfresh. unfold used_ids.
    change u with (Bytes (mkUUID u true)). rewrite <- E.
    now apply (in_map (fun r => Bytes (RequestLog.RequestID r))). }
  assert (Hresp : filter (fun r => UUID_eqb (InsertResponseLogParams.RequestID r)
                                     (mkUUID u true))
                         (response_log db) = []).
  { apply sqlc_facts.filter_none. intros r Hin.
    destruct (UUID_eqb _ _) eqn:E; [|reflexivity].
    apply UUID_eqb_eq in E. exfalso. apply Hfresh.
    rewrite Forall_forall in Hr. apply Hr in Hin. rewrite E in Hin.
    now apply store_request_exists_used in Hin. }
  assert (Hev : filter (fun e => UUID_eqb (InsertFirewallEventParams.RequestID e)
                                   (mkUUID u true))
                       (firewall_event db) = []).
  { apply sqlc_facts.filter_none. intros r Hin.
    destruct (UUID_eqb _ _) eqn:E; [|reflexivity].
    apply UUID_eqb_eq in E. exfalso. apply Hfresh.
    rewrite Forall_forall in He. apply He in Hin. rewrite E in Hin.
    now apply store_request_exists_used in Hin. }
  unfold responses_of, events_of. cbn [response_log firewall_event].
  rewrite Hresp, Hev, filter_app, Hold. cbn [app filter RequestLog.RequestID].
  rewrite UUID_eqb_refl. reflexivity.
Qed.

Section WithLibraries.
Context {JSON : EncodingJSON} {IP : NetIP}.

Lemma store_marshal_messages_error (messages : list gomap) :
  forall acc message e,
    In message messages -> json_Marshal message = Err e ->
    exists e', marshal_messages messages acc = Err e'.
Proof.
  induction messages as [|a rest IH]; intros acc message e Hin Herr; [destruct Hin|].
  cbn. destruct (json_Marshal a) as [b|e0] eqn:Ha; cbn.
  - destruct Hin as [-> | Hin]; [congruence|]. eapply IH; eassumption.
  - eexists. reflexivity.
Qed.

Lemma store_marshal_messages_ok (messages : list gomap) :
  forall acc out,
    marshal_messages messages acc = Ok out ->
    exists blobs,
      out = acc ++ blobs
      /\ Forall2 (fun message blob => json_Marshal message = Ok blob) messages blobs.
Proof.
  induction messages as [|a rest IH]; intros acc out H; cbn in H.
  - injection H as <-. exists []. split; [now rewrite app_nil_r | constructor].
  - destruct (json_Marshal a) as [b|e0] eqn:Ha; cbn in H; [|discriminate].
    apply IH in H as [blobs [-> HF]]. exists (b :: blobs).
    split; [now rewrite <- app_assoc | now constructor].
Qed.

Lemma store_unmarshal_messages_ok (blobs : list bytes) :
  forall acc messages,
    Forall2 (fun message blob => json_Unmarshal blob = Ok message) messages blobs ->
    unmarshal_messages blobs acc = Ok (acc ++ messages).
Proof.
  induction blobs as [|b rest IH]; intros acc messages HF;
    inversion HF as [|message b' messages' rest' Hb Hrest]; subst; cbn.
  - now rewrite app_nil_r.
  - rewrite Hb. cbn. rewrite (IH _ _ Hrest), <- app_assoc. reflexivity.
Qed.

Lemma store_LogRequest_params_error (r : Request.t) :
  (exists message e, In message (Request.Messages r) /\ json_Marshal message = Err e)
  \/ (exists e, json_Marshal (Request.Parameters r) = Err e)
  \/ (Request.ClientIP r <> "" /\ exists e, ParseAddr (Request.ClientIP r) = Err e) ->
  exists e, LogRequest_params r = Err e.
Proof.
  unfold LogRequest_params. intros [[m [e [Hin He]]] | [[e He] | [Hne [e He]]]].
  - destruct (store_marshal_messages_error _ [] _ _ Hin He) as [e' ->]. cbn. now eexists.
  - destruct (marshal_messages _ _); cbn; [|now eexists].
    rewrite He. cbn. now eexists.
  - destruct (marshal_messages _ _); cbn; [|now eexists].
    destruct (json_Marshal _); cbn; [|now eexists].
    apply String.eqb_neq in Hne. rewrite Hne, He. cbn. now eexists.
Qed.

Lemma store_LogRequest_error (r : Request.t) (db db' : DB) (e : error) :
  LogRequest r db = (Err e, db') -> db' = db.
Proof.
  unfold LogRequest, InsertRequestLog.
  destruct (LogRequest_params r); [|now intros [= _ <-]].
  destruct (gen_random_uuid db); [discriminate | now intros [= _ <-]].
Qed.

Lemma store_LogRequest_ok (r : Request.t) (db db' : DB) (id : string) :
  LogRequest r db = (Ok id, db') ->
  exists arg row,
    LogRequest_params r = Ok arg
    /\ InsertRequestLog arg db = (Ok row, db')
    /\ id = UUID_String (RequestLog.RequestID row)
    /\ db' = mkDB (request_log db ++ [row]) (response_log db) (firewall_event db).
Proof.
  unfold LogRequest. destruct (LogRequest_params r) as [arg|]; [|discriminate].
  destruct (InsertRequestLog arg db) as [[row|e] db1] eqn:E; [|discriminate].
  intros [= <- <-]. exists arg, row. repeat split; try assumption.
  unfold InsertRequestLog in E. destruct (gen_random_uuid db); [|discriminate].
  now injection E as <- <-.
Qed.

Lemma store_LogResponse_atomic (r : Response.t) (db : DB) :
  match LogResponse r db with
  | (Some _, db') => db' = db
  | (None, db') =>
      exists row,
        db' = mkDB (request_log db) (response_log db ++ [row]) (firewall_event db)
  end.
Proof.
  unfold LogResponse, InsertResponseLog.
  destruct (request_exists db _); cbn; [now eexists | reflexivity].
Qed.

Lemma store_LogFirewallEvent_atomic (fe : FirewallEvent.t) (db : DB) :
  match LogFirewallEvent fe db with
  | (Some _, db') => db' = db
  | (None, db') =>
      exists row,
        db' = mkDB (request_log db) (response_log db) (firewall_event db ++ [row])
  end.
Proof.
  unfold LogFirewallEvent, InsertFirewallEvent.
  destruct (LogFirewallEvent_params fe) as [arg|]; [|reflexivity].
  destruct (request_exists db _); cbn; [now eexists | reflexivity].
Qed.

Lemma store_LogFirewallEvent_ok (fe : FirewallEvent.t) (db : DB) (id : UUID) :
  UUID_Scan (FirewallEvent.RequestID fe) = Ok id ->
  request_exists db id = true ->
  not_infinite (FirewallEvent.RiskScore fe) = true ->
  exists n,
    Numeric_Scan_float (FirewallEvent.RiskScore fe) = Ok n
    /\ LogFirewallEvent fe db
       = (None,
          mkDB (request_log db) (response_log db)
            (firewall_event db ++
             [InsertFirewallEventParams.mk id (FirewallEvent.FirewallID fe)
                (FirewallEvent.FirewallType fe)
                (mkBool (FirewallEvent.Blocked fe) true)
                (mkText (FirewallEvent.BlockedReason fe) true) n])).
Proof.
  intros Hid Hex Hfin.
  destruct (Numeric_Scan_float_ok _ Hfin) as [n [Hn _]]. exists n.
  split; [exact Hn|].
  unfold LogFirewallEvent, LogFirewallEvent_params, InsertFirewallEvent.
  rewrite Hid, Hn. cbn. rewrite Hex. reflexivity.
Qed.

Lemma store_unmarshal_messages_is_ok (blobs : list bytes) :
  forall acc,
    is_ok (unmarshal_messages blobs acc)
    = forallb (fun b => is_ok (json_Unmarshal b)) blobs.
Proof.
  induction blobs as [|b rest IH]; intros acc; cbn; [reflexivity|].
  destruct (json_Unmarshal b); cbn; [apply IH | reflexivity].
Qed.

Lemma store_collect_events_is_ok (rows : list GetRequestFullTraceRow.t) :
  forall acc, is_ok (collect_events rows acc) = forallb store_event_decodes rows.
Proof.
  induction rows as [|r rest IH]; intros acc; cbn; [reflexivity|].
  unfold store_event_decodes at 1.
  destruct (Text_Valid (GetRequestFullTraceRow.FirewallID r)); cbn; [|apply IH].
  destruct (Float64Value (GetRequestFullTraceRow.RiskScore r)); cbn;
    [apply IH | reflexivity].
Qed.

(** [Store.GetTrace] decodes no response: its success is decided by the
    decodes of the messages and of the risk scores. *)
Lemma store_trace_of_rows_is_ok (row : GetRequestFullTraceRow.t)
      (rest : list GetRequestFullTraceRow.t) :
  is_ok (trace_of_rows (row :: rest))
  = forallb (fun b => is_ok (json_Unmarshal b)) (GetRequestFullTraceRow.Messages row)
    && (negb (Numeric_Valid (GetRequestFullTraceRow.RiskScore row))
        || is_ok (Float64Value (GetRequestFullTraceRow.RiskScore row)))
    && forallb store_event_decodes (row :: rest).
Proof.
  unfold trace_of_rows.
  rewrite <- (store_unmarshal_messages_is_ok _ []), <- (store_collect_events_is_ok (row :: rest) []).
  destruct (unmarshal_messages _ _); cbn [bind is_ok andb]; [|reflexivity].
  destruct (Numeric_Valid (GetRequestFullTraceRow.RiskScore row)); cbn [negb orb].
  - destruct (Float64Value (GetRequestFullTraceRow.RiskScore row));
      cbn [bind wrap is_ok andb]; [|reflexivity].
    now destruct (collect_events (row :: rest) []).
  - cbn [bind is_ok andb]. now destruct (collect_events (row :: rest) []).
Qed.

Lemma store_trace_of_rows_fields row rest t :
  trace_of_rows (row :: rest) = Ok t ->
  Trace.Parameters t
  = json_Unmarshal_unchecked (GetRequestFullTraceRow.Parameters row)
  /\ Trace.Model t = GetRequestFullTraceRow.Model row
  /\ unmarshal_messages (GetRequestFullTraceRow.Messages row) [] = Ok (Trace.Messages t)
  /\ Trace.Response t = Text_String (GetRequestFullTraceRow.Response row).
Proof.
  unfold trace_of_rows.
  destruct (unmarshal_messages _ _); cbn [bind]; [|discriminate].
  match goal with |- bind ?x _ = _ -> _ => destruct x end; cbn [bind]; [|discriminate].
  destruct (collect_events (row :: rest) []); cbn [bind]; [|discriminate].
  intros [= <-]. cbn. auto.
Qed.

Lemma store_GetRequestFullTrace_NULL db : GetRequestFullTrace UUID_zero db = Ok [].
Proof.
  unfold GetRequestFullTrace. cbn [UUID_zero UUID_Valid andb]. f_equal.
  now induction (request_log db).
Qed.

Lemma store_GetTrace_needs_an_id (requestID : string) (db : DB) :
  is_ok (GetTrace requestID db) = true -> is_ok (UUID_Scan requestID) = true.
Proof.
  unfold GetTrace. destruct (UUID_Scan requestID); [reflexivity|].
  cbn [ignoring_error]. rewrite store_GetRequestFullTrace_NULL. discriminate.
Qed.

End WithLibraries.

End store_facts.

(** ** The JSON codec reads back what it writes *)

Module json_facts.
Import json.

Local Open Scope char_scope.

Lemma digits_value_snoc (ds : list ascii) (d : ascii) :
  digits_value (ds ++ [d]) = (10 * digits_value ds + digit_val d)%N.
Proof. unfold digits_value. now rewrite fold_left_app. Qed.

Lemma digit_char_spec (d : N) :
  (d < 10)%N -> is_digit (digit_char d) = true /\ digit_val (digit_char d) = d.
Proof.
  intros H.
  assert (Hc : (d = 0 \/ d = 1 \/ d = 2 \/ d = 3 \/ d = 4 \/ d = 5 \/ d = 6 \/ d = 7 \/
                d = 8 \/ d = 9)%N) by lia.
  repeat (destruct Hc as [-> | Hc]; [split; reflexivity|]). subst. split; reflexivity.
Qed.

Lemma decdigits_spec (f : nat) :
  forall n, (n < 10 ^ N.of_nat (S f))%N ->
    decdigits (S f) n <> []
    /\ forallb is_digit (decdigits (S f) n) = true
    /\ digits_value (decdigits (S f) n) = n.
Proof.
  induction f as [|f IH]; intros n Hn.
  - cbn [decdigits]. change (10 ^ N.of_nat 1)%N with 10%N in Hn.
    apply N.ltb_lt in Hn as Hlt. rewrite Hlt.
    destruct (digit_char_spec n Hn) as [Hd Hv].
    split; [discriminate|]. cbn. rewrite Hd. unfold digits_value. cbn.
    rewrite Hv. split; [reflexivity | lia].
  - change (decdigits (S (S f)) n)
      with (if (n <? 10)%N then [digit_char n]
            else decdigits (S f) (n / 10)%N ++ [digit_char (n mod 10)%N]).
    destruct (n <? 10)%N eqn:Hlt.
    + apply N.ltb_lt in Hlt. destruct (digit_char_spec n Hlt) as [Hd Hv].
      split; [discriminate|]. cbn. rewrite Hd. unfold digits_value. cbn.
      rewrite Hv. split; [reflexivity | lia].
    + assert (Hq : (n / 10 < 10 ^ N.of_nat (S f))%N).
      { apply N.Div0.div_lt_upper_bound.
        rewrite Nat2N.inj_succ, N.pow_succ_r' in Hn. exact Hn. }
      destruct (IH _ Hq) as [Hne [Hall Hval]].
      assert (Hm : (n mod 10 < 10)%N) by (apply N.mod_lt; lia).
      destruct (digit_char_spec _ Hm) as [Hd Hv].
      split; [|split].
      * intros Habs. apply app_eq_nil in Habs as [_ Habs]. discriminate.
      * rewrite forallb_app, Hall. cbn. now rewrite Hd.
      * rewrite digits_value_snoc, Hval, Hv.
        pose proof (N.div_mod n 10 ltac:(lia)). lia.
Qed.

Lemma print_N_spec (n : N) :
  print_N n <> []
  /\ forallb is_digit (print_N n) = true
  /\ digits_value (print_N n) = n.
Proof.
  unfold print_N. apply decdigits_spec.
  rewrite Nat2N.inj_succ, N2Nat.id.
  destruct (N.eq_dec n 0) as [-> | Hn]; [reflexivity|].
  destruct (N.log2_spec n) as [_ Hlt]; [lia|].
  eapply N.lt_le_trans; [exact Hlt|].
  apply N.pow_le_mono_l. lia.
Qed.

Lemma span_digits_app (ds rest : list ascii) :
  forallb is_digit ds = true -> no_digit_ahead rest ->
  span_digits (ds ++ rest) = (ds, rest).
Proof.
  induction ds as [|d ds IH]; intros Hall Hrest.
  - destruct rest as [|c r]; [reflexivity|]. cbn in *. now rewrite Hrest.
  - cbn in Hall. apply andb_true_iff in Hall as [Hd Hall].
    cbn. rewrite Hd, IH by assumption. reflexivity.
Qed.

Lemma parse_N_print (n : N) (rest : list ascii) :
  no_digit_ahead rest -> parse_N (print_N n ++ rest) = Some (n, rest).
Proof.
  intros Hrest. destruct (print_N_spec n) as [Hne [Hall Hval]].
  unfold parse_N. rewrite span_digits_app by assumption.
  destruct (print_N n) as [|d ds]; [contradiction|]. now rewrite Hval.
Qed.

Lemma print_N_head (n : N) :
  exists c tl, print_N n = c :: tl /\ is_digit c = true.
Proof.
  destruct (print_N_spec n) as [Hne [Hall _]].
  destruct (print_N n) as [|c tl]; [contradiction|].
  cbn in Hall. apply andb_true_iff in Hall as [Hc _]. now exists c, tl.
Qed.

Lemma digit_is_not (c x : ascii) :
  is_digit c = true -> is_digit x = false -> Ascii.eqb c x = false.
Proof.
  intros Hc Hx. destruct (Ascii.eqb_spec c x) as [-> | ]; [congruence | reflexivity].
Qed.

Lemma parse_Z_print (z : Z) (rest : list ascii) :
  no_digit_ahead rest -> parse_Z (print_Z z ++ rest) = Some (z, rest).
Proof.
  intros Hrest. unfold print_Z. destruct (z <? 0)%Z eqn:Hneg.
  - cbn [app]. unfold parse_Z. change (Ascii.eqb "-" "-") with true. cbv iota.
    rewrite parse_N_print by assumption. apply Z.ltb_lt in Hneg.
    do 2 f_equal. lia.
  - destruct (print_N_head (Z.abs_N z)) as [c [tl [Hp Hc]]].
    pose proof (parse_N_print (Z.abs_N z) rest Hrest) as HN.
    rewrite Hp in *. cbn [app] in *. unfold parse_Z.
    rewrite (digit_is_not c "-" Hc eq_refl), HN.
    apply Z.ltb_ge in Hneg. do 2 f_equal. lia.
Qed.

Lemma print_Z_head (z : Z) :
  exists c tl, print_Z z = c :: tl /\ (is_digit c = true \/ c = "-").
Proof.
  unfold print_Z. destruct (z <? 0)%Z.
  - eexists. eexists. split; [reflexivity | now right].
  - destruct (print_N_head (Z.abs_N z)) as [c [tl [Hp Hc]]].
    exists c, tl. split; [assumption | now left].
Qed.

Lemma delimited_no_digit rest : delimited rest -> no_digit_ahead rest.
Proof. destruct rest; [trivial | now intros [H _]]. Qed.

Lemma parse_number_print (m e : Z) (rest : list ascii) :
  delimited rest ->
  parse_number (print (ANum m e) ++ rest) = Some (ANum m e, rest).
Proof.
  intros Hrest. cbn [print]. destruct (e =? 0)%Z eqn:He.
  - apply Z.eqb_eq in He. subst e. unfold parse_number.
    rewrite parse_Z_print by now apply delimited_no_digit.
    destruct rest as [|c r]; [reflexivity|]. destruct Hrest as [_ Hc]. now rewrite Hc.
  - rewrite <- app_assoc. cbn [app]. unfold parse_number.
    rewrite parse_Z_print by reflexivity.
    change (Ascii.eqb "e" "e") with true. cbv iota.
    rewrite parse_Z_print by now apply delimited_no_digit. reflexivity.
Qed.

Lemma parse_string_body_escape (s rest : list ascii) :
  parse_string_body (escape s ++ quote :: rest) = Some (s, rest).
Proof.
  induction s as [|c s IH].
  - cbn. reflexivity.
  - cbn [escape]. destruct (Ascii.eqb c quote) eqn:Hq; cbn [orb].
    + apply Ascii.eqb_eq in Hq. subst c. cbn [app].
      change (parse_string_body (backslash :: quote :: escape s ++ quote :: rest))
        with (match parse_string_body (escape s ++ quote :: rest) with
              | Some (t, rest') => Some (quote :: t, rest')
              | None => None
              end).
      now rewrite IH.
    + destruct (Ascii.eqb c backslash) eqn:Hb.
      * apply Ascii.eqb_eq in Hb. subst c. cbn [app].
        change (parse_string_body (backslash :: backslash :: escape s ++ quote :: rest))
          with (match parse_string_body (escape s ++ quote :: rest) with
                | Some (t, rest') => Some (backslash :: t, rest')
                | None => None
                end).
        now rewrite IH.
      * cbn [app parse_string_body]. now rewrite Hq, Hb, IH.
Qed.

Lemma parse_string_print (s : string) (rest : list ascii) :
  parse_string (print_string s ++ rest) = Some (s, rest).
Proof.
  unfold print_string, parse_string. cbn [app].
  rewrite <- app_assoc. cbn [app].
  change (Ascii.eqb quote quote) with true. cbv iota.
  now rewrite parse_string_body_escape, string_of_list_ascii_of_string.
Qed.

(** A number is recognized by its first character. *)
Lemma parse_value_number (f : nat) (c : ascii) (tl : list ascii) :
  is_digit c = true \/ c = "-" ->
  parse_value (S f) (c :: tl) = parse_number (c :: tl).
Proof.
  intros Hc.
  assert (Hne : forall x, is_digit x = false -> x <> "-" -> Ascii.eqb c x = false).
  { intros x Hx Hm. destruct Hc as [Hc | ->].
    - now apply digit_is_not.
    - now apply Ascii.eqb_neq, not_eq_sym. }
  cbn [parse_value].
  rewrite (Hne "n"), (Hne "t"), (Hne "f"), (Hne "["), (Hne "{"), (Hne quote);
    (reflexivity || discriminate).
Qed.

(** The text of an encodable value is not empty and starts neither with a
    closing bracket nor with a closing brace. *)
Lemma print_head (v : any) :
  encodable v = true ->
  exists c tl,
    print v = c :: tl /\ Ascii.eqb c "]" = false /\ Ascii.eqb c "}" = false.
Proof.
  destruct v as [|b|m e|s|l|kvs|]; intros Henc; try discriminate;
    try (eexists; eexists; split; [reflexivity | split; reflexivity]).
  - destruct b; eexists; eexists; (split; [reflexivity | split; reflexivity]).
  - assert (Hz : forall z, exists c tl,
               print_Z z = c :: tl /\ Ascii.eqb c "]" = false /\ Ascii.eqb c "}" = false).
    { intros z. destruct (print_Z_head z) as [c [tl [Hp [Hc | Hc]]]];
        exists c, tl; (split; [assumption|]).
      - split; now apply digit_is_not.
      - subst c. split; reflexivity. }
    cbn [print]. destruct (e =? 0)%Z; [apply Hz|].
    destruct (Hz m) as [c [tl [-> H]]]. now exists c, (tl ++ "e" :: print_Z e).
Qed.

Lemma sep_by_cons (sep : ascii) (p q : list ascii) (ps : list (list ascii)) :
  sep_by sep (p :: q :: ps) = p ++ sep :: sep_by sep (q :: ps).
Proof. reflexivity. Qed.

Lemma length_sep_by_cons (sep : ascii) (p q : list ascii) (ps : list (list ascii)) :
  List.length (sep_by sep (p :: q :: ps))
  = List.length p + 1 + List.length (sep_by sep (q :: ps)).
Proof. rewrite sep_by_cons, length_app. cbn. lia. Qed.

(** The parser, given more fuel than the text is long, reads a printed
    value back and stops where the text of the value ends. *)
Lemma parse_print (n : nat) :
  (forall v rest,
      encodable v = true -> delimited rest ->
      List.length (print v) < n ->
      parse_value n (print v ++ rest) = Some (v, rest))
  /\ (forall l rest,
         l <> [] -> forallb encodable l = true -> delimited rest ->
         List.length (sep_by "," (map print l)) + 1 < n ->
         parse_elems n (sep_by "," (map print l) ++ "]" :: rest) = Some (l, rest))
  /\ (forall kvs rest,
         kvs <> [] -> forallb (fun kv => encodable (snd kv)) kvs = true ->
         delimited rest ->
         List.length (sep_by "," (map member_text kvs)) + 1 < n ->
         parse_members n (sep_by "," (map member_text kvs) ++ "}" :: rest)
         = Some (kvs, rest)).
Proof.
  induction n as [|n [IHv [IHe IHm]]]; [repeat split; intros; lia|].
  split; [|split].
  - intros v rest Henc Hrest Hlen.
    destruct v as [|b|m e|s|l|kvs|]; try discriminate Henc.
    + reflexivity.
    + destruct b; reflexivity.
    + destruct (print_head (ANum m e) eq_refl) as [c [tl [Hp _]]].
      assert (Hc : is_digit c = true \/ c = "-").
      { cbn [print] in Hp. destruct (e =? 0)%Z.
        - destruct (print_Z_head m) as [c' [tl' [Hp' Hc']]]. congruence.
        - destruct (print_Z_head m) as [c' [tl' [Hp' Hc']]].
          rewrite Hp' in Hp. cbn in Hp. congruence. }
      pose proof (parse_number_print m e rest Hrest) as Hnum.
      rewrite Hp in *. cbn [app] in *. now rewrite parse_value_number.
    + pose proof (parse_string_print s rest) as Hs.
      unfold print. unfold print_string in *. cbn [app] in *.
      cbn [parse_value]. change (Ascii.eqb quote "n") with false.
      change (Ascii.eqb quote "t") with false. change (Ascii.eqb quote "f") with false.
      change (Ascii.eqb quote "[") with false. change (Ascii.eqb quote "{") with false.
      change (Ascii.eqb quote quote) with true. cbv iota. now rewrite Hs.
    + destruct l as [|v l]; [reflexivity|].
      cbn [encodable] in Henc.
      assert (Hv : encodable v = true) by (cbn in Henc; now apply andb_true_iff in Henc).
      destruct (print_head v Hv) as [c [tl [Hp [Hc _]]]].
      assert (Hl : List.length (sep_by "," (map print (v :: l))) + 1 < n).
      { cbn [print] in Hlen. cbn [List.length] in Hlen. rewrite length_app in Hlen.
        cbn [List.length] in Hlen. lia. }
      pose proof (IHe (v :: l) rest ltac:(discriminate) Henc Hrest Hl) as He.
      cbn [print]. cbn [app]. rewrite <- app_assoc. cbn [app].
      assert (Hhd : exists tl', sep_by "," (map print (v :: l)) ++ "]" :: rest = c :: tl').
      { cbn [map sep_by]. rewrite Hp. cbn [app]. now eexists. }
      destruct Hhd as [tl' Hhd]. rewrite Hhd in *.
      cbn [parse_value]. change (Ascii.eqb "[" "n") with false.
      change (Ascii.eqb "[" "t") with false. change (Ascii.eqb "[" "f") with false.
      change (Ascii.eqb "[" "[") with true. cbv iota. now rewrite Hc, He.
    + destruct kvs as [|kv kvs]; [reflexivity|].
      cbn [encodable] in Henc.
      assert (Hl : List.length (sep_by "," (map member_text (kv :: kvs))) + 1 < n).
      { cbn [print] in Hlen. cbn [List.length] in Hlen. rewrite length_app in Hlen.
        cbn [List.length] in Hlen. unfold member_text. lia. }
      pose proof (IHm (kv :: kvs) rest ltac:(discriminate) Henc Hrest Hl) as Hm.
      cbn [print]. cbn [app]. rewrite <- app_assoc. cbn [app].
      change (fun kv0 : string * any => print_string (fst kv0) ++ ":" :: print (snd kv0))
        with member_text.
      assert (Hhd : exists tl',
                 sep_by "," (map member_text (kv :: kvs)) ++ "}" :: rest = quote :: tl').
      { cbn [map sep_by]. unfold member_text at 1, print_string. cbn [app]. now eexists. }
      destruct Hhd as [tl' Hhd]. rewrite Hhd in *.
      cbn [parse_value]. change (Ascii.eqb "{" "n") with false.
      change (Ascii.eqb "{" "t") with false. change (Ascii.eqb "{" "f") with false.
      change (Ascii.eqb "{" "[") with false. change (Ascii.eqb "{" "{") with true.
      change (Ascii.eqb quote "}") with false. cbv iota. now rewrite Hm.
  - intros l rest Hne Henc Hrest Hlen.
    destruct l as [|v l]; [contradiction|].
    cbn [forallb] in Henc. apply andb_true_iff in Henc as [Hv Hl].
    destruct l as [|v' l].
    + cbn [map sep_by flat_map] in *. rewrite app_nil_r in *.
      cbn [parse_elems]. rewrite IHv; [reflexivity | assumption | | lia].
      split; reflexivity.
    + cbn [map] in *. rewrite length_sep_by_cons in Hlen.
      rewrite sep_by_cons, <- app_assoc. cbn [app].
      cbn [parse_elems]. rewrite IHv; [| assumption | split; reflexivity | lia].
      assert (He : parse_elems n (sep_by "," (map print (v' :: l)) ++ "]" :: rest)
                   = Some (v' :: l, rest)).
      { apply IHe; [discriminate | assumption | assumption | cbn [map]; lia]. }
      cbn [map] in He. now rewrite He.
  - intros kvs rest Hne Henc Hrest Hlen.
    destruct kvs as [|[k v] kvs]; [contradiction|].
    cbn [forallb snd] in Henc. apply andb_true_iff in Henc as [Hv Hl].
    assert (Hkey : forall tail,
               parse_members (S n) (member_text (k, v) ++ tail)
               = match parse_value n (print v ++ tail) with
                 | Some (v0, "," :: r') =>
                     match parse_members n r' with
                     | Some (kvs0, r'') => Some ((k, v0) :: kvs0, r'')
                     | None => None
                     end
                 | Some (v0, "}" :: r') => Some ([(k, v0)], r')
                 | _ => None
                 end).
    { intros tail. unfold member_text. cbn [fst snd].
      rewrite <- app_assoc. cbn [app parse_members].
      now rewrite parse_string_print. }
    destruct kvs as [|kv' kvs].
    + cbn [map sep_by flat_map] in *. rewrite app_nil_r in *.
      unfold member_text in Hlen. cbn [fst snd] in Hlen.
      rewrite length_app in Hlen. cbn [List.length] in Hlen.
      rewrite Hkey, IHv; [reflexivity | assumption | split; reflexivity | lia].
    + cbn [map] in *. rewrite length_sep_by_cons in Hlen.
      rewrite sep_by_cons, <- app_assoc. cbn [app].
      unfold member_text at 1 in Hlen. cbn [fst snd] in Hlen.
      rewrite length_app in Hlen. cbn [List.length] in Hlen.
      rewrite Hkey, IHv; [| assumption | split; reflexivity | lia].
      assert (Hm : parse_members n
                     (sep_by "," (map member_text (kv' :: kvs)) ++ "}" :: rest)
                   = Some (kv' :: kvs, rest)).
      { apply IHm; [discriminate | assumption | assumption | cbn [map]; lia]. }
      cbn [map] in Hm. now rewrite Hm.
Qed.

Theorem codec_decodes_what_it_encodes : decodes_what_it_encodes codec.
Proof.
  intros m data. unfold json_Unmarshal. cbn [json_Marshal json_Unmarshal_into codec].
  unfold Marshal.
  destruct (encodable (of_gomap m)) eqn:Henc; [|discriminate]. intros [= <-].
  pose proof (proj1 (parse_print (S (List.length (print (of_gomap m)))))
                (of_gomap m) [] Henc I (Nat.lt_succ_diag_r _)) as Hp.
  rewrite app_nil_r in Hp. unfold Unmarshal_into, Unmarshal. rewrite Hp.
  destruct m as [kvs|]; reflexivity.
Qed.

Lemma codec_rejects_empty_input : rejects_empty_input codec.
Proof. reflexivity. Qed.

End json_facts.

(** ** Logging a request and reading it back *)

Section RoundTrip.
Context {JSON : EncodingJSON} {IP : NetIP}.
Import pgtype pgtype_facts sqlc sqlc_facts audit.

(** What a successful [LogRequest] stored. *)
Lemma LogRequest_row r db id db' :
  decodes_what_it_encodes JSON ->
  LogRequest r db = (Ok id, db') ->
  exists arg row,
    InsertRequestLog arg db = (Ok row, db')
    /\ id = UUID_String (RequestLog.RequestID row)
    /\ RequestLog.Model row = Request.Model r
    /\ unmarshal_inputs (RequestLog.Inputs row) [] = Ok (Request.Inputs r)
    /\ json_Unmarshal (RequestLog.Parameters row) = Ok (Request.Parameters r).
Proof.
  intros Hrt H. apply LogRequest_ok in H as [arg [row [Hp [Hins [-> _]]]]].
  exists arg, row. split; [assumption|]. split; [reflexivity|].
  destruct (InsertRequestLog_columns _ _ _ _ Hins) as [-> [-> ->]].
  unfold LogRequest_params in Hp.
  destruct (marshal_inputs (Request.Inputs r) []) as [blobs|] eqn:Hm;
    cbn in Hp; [|discriminate].
  destruct (json_Marshal (Request.Parameters r)) as [pb|] eqn:Hpm;
    cbn in Hp; [|discriminate].
  match type of Hp with bind ?x _ = _ => destruct x as [ip|] end;
    cbn in Hp; [|discriminate].
  injection Hp as <-. cbn.
  apply marshal_inputs_ok in Hm as [blobs' [-> HF]]. cbn [app].
  split; [reflexivity|]. split; [|now apply Hrt].
  apply (unmarshal_inputs_ok blobs' [] (Request.Inputs r)).
  clear -HF Hrt. induction HF; constructor; auto.
Qed.

Lemma GetTrace_after_LogRequest_exact r db id db' :
  decodes_what_it_encodes JSON ->
  rejects_empty_input JSON ->
  referential db ->
  LogRequest r db = (Ok id, db') ->
  GetTrace id db' = Err "invalid response: unexpected end of JSON input".
Proof.
  intros Hrt Hempty Href H.
  destruct (LogRequest_row _ _ _ _ Hrt H) as [arg [row [Hins [-> [_ [Hin _]]]]]].
  pose proof (GetRequestFullTrace_after_insert _ _ _ _ Href Hins) as Hrows.
  destruct (InsertRequestLog_fresh _ _ _ _ Href Hins) as [Hlt [Hv _]].
  unfold GetTrace. destruct (RequestLog.RequestID row) as [u v] eqn:Hid.
  cbn in Hlt, Hv. subst v. rewrite UUID_Scan_String by assumption.
  cbn [ignoring_error]. rewrite Hrows. cbn [bind].
  unfold trace_of_rows, joined_row.
  cbn [GetRequestFullTraceRow.Inputs GetRequestFullTraceRow.Response].
  rewrite Hin, Hempty. reflexivity.
Qed.

(** Once the response is logged as well, the trace reproduces the request. *)
Lemma GetTrace_after_LogResponse r db id db' body latency db'' :
  decodes_what_it_encodes JSON ->
  referential db ->
  LogRequest r db = (Ok id, db') ->
  LogResponse (Response.mk id body latency) db' = (None, db'') ->
  exists t,
    GetTrace id db'' = Ok t
    /\ Trace.Model t = Request.Model r
    /\ Trace.Inputs t = Request.Inputs r
    /\ Trace.RequestParameters t = Request.Parameters r
    /\ Trace.Response t = body.
Proof.
  intros Hrt Href H Hresp.
  destruct (LogRequest_row _ _ _ _ Hrt H) as [arg [row [Hins [-> [Hmodel [Hin Hpar]]]]]].
  destruct (InsertRequestLog_fresh _ _ _ _ Href Hins) as [Hlt [Hv _]].
  destruct (RequestLog.RequestID row) as [u v] eqn:Hid. cbn in Hlt, Hv. subst v.
  unfold LogResponse in Hresp. cbn [Response.RequestID Response.Response
                                     Response.LatencyMs] in Hresp.
  rewrite UUID_Scan_String in Hresp by assumption. cbn [ignoring_error] in Hresp.
  destruct (json_Marshal body) as [b|] eqn:Hb; cbn [wrap] in Hresp; [|discriminate].
  pose proof (GetRequestFullTrace_after_response arg db row db' b
                (ignoring_error Int4_zero (Int4_Scan latency)) Href Hins) as Hafter.
  cbv zeta in Hafter. rewrite Hid in Hafter. destruct Hafter as [Hinsert Hrows].
  rewrite Hinsert in Hresp. injection Hresp as <-.
  unfold GetTrace. rewrite UUID_Scan_String by assumption.
  cbn [ignoring_error]. rewrite Hrows. cbn [bind].
  unfold trace_of_rows, joined_row.
  cbn [GetRequestFullTraceRow.Inputs GetRequestFullTraceRow.Response
       GetRequestFullTraceRow.Parameters GetRequestFullTraceRow.RiskScore
       GetRequestFullTraceRow.FirewallID GetRequestFullTraceRow.Model
       ResponseLog.Response collect_events Numeric_zero Numeric_Valid
       Text_zero Text_Valid].
  rewrite Hin, (json_Unmarshal_unchecked_ok _ _ Hpar), (Hrt _ _ Hb).
  cbn. eexists. split; [reflexivity|].
  cbn. auto.
Qed.

End RoundTrip.

(** ** The claims about the audit store *)






(** C5: on [audit.go], for a correlation id whose request row exists and
    for which no response is logged, [GetTrace] returns an error, the
    decoding error of the NULL response column (or, before it, that of an
    input), and no trace. *)
Theorem C5_GetTrace_without_response_fails `{JSON : EncodingJSON} `{IP : NetIP} :
  forall (db : sqlc.DB) (id : pgtype.UUID),
    rejects_empty_input JSON ->
    pgtype.UUID_Valid id = true ->
    (pgtype.Bytes id < 2 ^ 128)%N ->
    sqlc.request_exists db id = true ->
    sqlc.responses_of db id = [] ->
    audit.GetTrace (pgtype.UUID_String id) db
    = Err "invalid response: unexpected end of JSON input"
    \/ exists e,
        audit.GetTrace (pgtype.UUID_String id) db
        = Err ("invalid messages: " ++ e)%string.
Proof. intros db id. apply GetTrace_pending. Qed.

Lemma C5_witness :
  @audit.GetTrace json.codec (pgtype.UUID_String (pgtype.mkUUID 0 true))
    sample.one_request
  = Err "invalid response: unexpected end of JSON input"
  \/ exists e,
      @audit.GetTrace json.codec (pgtype.UUID_String (pgtype.mkUUID 0 true))
        sample.one_request
      = Err ("invalid messages: " ++ e)%string.
Proof.
  apply (@C5_GetTrace_without_response_fails json.codec netip.parser
           sample.one_request (pgtype.mkUUID 0 true)
           json_facts.codec_rejects_empty_input);
    reflexivity.
Defined.

(** The pooled store, at the same point, returns a trace with an empty
    response text. *)
Example pooled_store_pending_response :
  exists t,
    @store.GetTrace json.codec sample.request_id sample.one_store_request = Ok t
    /\ store.Trace.Response t = ""
    /\ store.Trace.Model t = "gpt-4".
Proof. eexists. split; [vm_compute; reflexivity|]. split; reflexivity. Qed.

(** C6: in [GetTrace] a parameters blob that fails to decode does not fail
    the operation: when the other decodes succeed the trace is returned,
    and its parameters are the map as the failed call left it, since the
    source never resets it; they are the nil map, which is empty, whenever
    the decoder had stored nothing before it failed.  [GetTrace] swallows
    no other failure: whether it succeeds on its rows is decided by the
    decodes of the inputs, of the response and of the risk scores, each of
    which fails the operation, and a request id that does not scan yields
    no trace.  The pooled store, which decodes no response, does the same
    with the messages and the risk scores.  It is not the only error the
    audit store swallows: [LogResponse] discards the error of the scan of a
    latency that does not fit an [Int4] and stores the response with a NULL
    latency, returning no error. *)
Theorem C6_errors_the_audit_store_swallows
        `{JSON : EncodingJSON} `{IP : NetIP} :
  forall (row : sqlc.GetRequestFullTraceRow.t) (rest : list sqlc.GetRequestFullTraceRow.t)
         (srow : store.postgres.GetRequestFullTraceRow.t)
         (srest : list store.postgres.GetRequestFullTraceRow.t),
    (forall e,
        json_Unmarshal (sqlc.GetRequestFullTraceRow.Parameters row) = Err e ->
        forallb (fun b => is_ok (json_Unmarshal b)) (sqlc.GetRequestFullTraceRow.Inputs row)
        = true ->
        is_ok (json_Unmarshal (sqlc.GetRequestFullTraceRow.Response row)) = true ->
        negb (pgtype.Numeric_Valid (sqlc.GetRequestFullTraceRow.RiskScore row))
        || is_ok (pgtype.Float64Value (sqlc.GetRequestFullTraceRow.RiskScore row)) = true ->
        forallb event_decodes (row :: rest) = true ->
        exists t,
          audit.trace_of_rows (row :: rest) = Ok t
          /\ audit.Trace.RequestParameters t
             = json_Unmarshal_unchecked (sqlc.GetRequestFullTraceRow.Parameters row)
          /\ (json_Unmarshal_unchecked (sqlc.GetRequestFullTraceRow.Parameters row)
              = nilmap ->
              audit.Trace.RequestParameters t = nilmap
              /\ maplen (audit.Trace.RequestParameters t) = 0))
    /\ is_ok (audit.trace_of_rows (row :: rest))
       = forallb (fun b => is_ok (json_Unmarshal b)) (sqlc.GetRequestFullTraceRow.Inputs row)
         && is_ok (json_Unmarshal (sqlc.GetRequestFullTraceRow.Response row))
         && (negb (pgtype.Numeric_Valid (sqlc.GetRequestFullTraceRow.RiskScore row))
             || is_ok (pgtype.Float64Value (sqlc.GetRequestFullTraceRow.RiskScore row)))
         && forallb event_decodes (row :: rest)
    /\ (forall requestID db,
           is_ok (audit.GetTrace requestID db) = true ->
           is_ok (pgtype.UUID_Scan requestID) = true)
    /\ (forall e,
           json_Unmarshal (store.postgres.GetRequestFullTraceRow.Parameters srow) = Err e ->
           forallb (fun b => is_ok (json_Unmarshal b))
                   (store.postgres.GetRequestFullTraceRow.Messages srow) = true ->
           negb (pgtype.Numeric_Valid (store.postgres.GetRequestFullTraceRow.RiskScore srow))
           || is_ok (pgtype.Float64Value
                       (store.postgres.GetRequestFullTraceRow.RiskScore srow)) = true ->
           forallb store_event_decodes (srow :: srest) = true ->
           exists t,
             store.trace_of_rows (srow :: srest) = Ok t
             /\ store.Trace.Parameters t
                = json_Unmarshal_unchecked
                    (store.postgres.GetRequestFullTraceRow.Parameters srow)
             /\ (json_Unmarshal_unchecked
                   (store.postgres.GetRequestFullTraceRow.Parameters srow) = nilmap ->
                 store.Trace.Parameters t = nilmap
                 /\ maplen (store.Trace.Parameters t) = 0))
    /\ is_ok (store.trace_of_rows (srow :: srest))
       = forallb (fun b => is_ok (json_Unmarshal b))
                 (store.postgres.GetRequestFullTraceRow.Messages srow)
         && (negb (pgtype.Numeric_Valid
                     (store.postgres.GetRequestFullTraceRow.RiskScore srow))
             || is_ok (pgtype.Float64Value
                         (store.postgres.GetRequestFullTraceRow.RiskScore srow)))
         && forallb store_event_decodes (srow :: srest)
  /\ (forall (resp : audit.Response.t) (db : sqlc.DB) e id body,
         pgtype.Int4_Scan (audit.Response.LatencyMs resp) = Err e ->
         pgtype.UUID_Scan (audit.Response.RequestID resp) = Ok id ->
         sqlc.request_exists db id = true ->
         json_Marshal (audit.Response.Response resp) = Ok body ->
         audit.LogResponse resp db
         = (None,
            sqlc.mkDB (sqlc.request_log db)
              (sqlc.response_log db ++ [sqlc.ResponseLog.mk id body pgtype.Int4_zero])
              (sqlc.firewall_event db))).
Proof.
  intros row rest srow srest. split; [|split; [|split; [|split; [|split]]]].
  - intros e Hpar Hin Hresp Hrisk Hev.
    pose proof (trace_of_rows_is_ok row rest) as Hok.
    rewrite Hin, Hresp, Hrisk, Hev in Hok. cbn [andb] in Hok.
    destruct (audit.trace_of_rows (row :: rest)) as [t|] eqn:Ht; [|cbn in Hok; discriminate Hok].
    exists t. split; [reflexivity|].
    destruct (trace_of_rows_parameters _ _ _ Ht) as [Hp _].
    rewrite Hp. split; [reflexivity|]. intros ->. split; reflexivity.
  - apply trace_of_rows_is_ok.
  - apply GetTrace_needs_an_id.
  - intros e Hpar Hin Hrisk Hev.
    pose proof (store_facts.store_trace_of_rows_is_ok srow srest) as Hok.
    rewrite Hin, Hrisk, Hev in Hok. cbn [andb] in Hok.
    destruct (store.trace_of_rows (srow :: srest)) as [t|] eqn:Ht; [|cbn in Hok; discriminate Hok].
    exists t. split; [reflexivity|].
    destruct (store_facts.store_trace_of_rows_fields _ _ _ Ht) as [Hp _].
    rewrite Hp. split; [reflexivity|]. intros ->. split; reflexivity.
  - apply store_facts.store_trace_of_rows_is_ok.
  - intros resp db e id body Hlat Hid Hex Hbody.
    unfold audit.LogResponse, sqlc.InsertResponseLog.
    rewrite Hlat, Hid, Hbody. cbn. now rewrite Hex.
Qed.

Lemma C6_witness :
  (exists t,
      @audit.trace_of_rows json.codec [sample.corrupt_parameters_row] = Ok t
      /\ audit.Trace.RequestParameters t = nilmap
      /\ maplen (audit.Trace.RequestParameters t) = 0)
  /\ (exists t,
         @store.trace_of_rows json.codec [sample.corrupt_parameters_store_row] = Ok t
         /\ store.Trace.Parameters t = nilmap
         /\ maplen (store.Trace.Parameters t) = 0)
  /\ (exists body,
         @audit.LogResponse json.codec sample.slow_response sample.one_request
         = (None,
            sqlc.mkDB (sqlc.request_log sample.one_request)
              (sqlc.response_log sample.one_request ++
               [sqlc.ResponseLog.mk (pgtype.mkUUID 0 true) body pgtype.Int4_zero])
              (sqlc.firewall_event sample.one_request))).
Proof.
  pose proof (@C6_errors_the_audit_store_swallows json.codec netip.parser
                sample.corrupt_parameters_row [] sample.corrupt_parameters_store_row [])
    as [Haudit [_ [_ [Hstore [_ Hresp]]]]].
  split; [|split].
  - destruct (Haudit "invalid character in JSON input" eq_refl eq_refl eq_refl
                eq_refl eq_refl) as [t [Ht [_ Hnil]]].
    exists t. split; [exact Ht|]. apply Hnil. reflexivity.
  - destruct (Hstore "invalid character in JSON input" eq_refl eq_refl eq_refl
                eq_refl) as [t [Ht [_ Hnil]]].
    exists t. split; [exact Ht|]. apply Hnil. reflexivity.
  - eexists.
    apply (Hresp sample.slow_response sample.one_request
             "value is greater than maximum value for Int4" (pgtype.mkUUID 0 true));
      reflexivity.
Defined.

(** C8: every write of the audit store is one insert, made after every
    check: [LogRequest] returns an error and leaves the database as it was
    when a message or the parameters do not encode or the client address
    does not parse, and whenever it returns an error; when it succeeds
    exactly one request row is added.  [LogResponse] and
    [LogFirewallEvent] likewise either add one row or change nothing, in
    [audit.go] and in the pooled store. *)
Theorem C8_writes_are_all_or_nothing `{JSON : EncodingJSON} `{IP : NetIP} :
  forall (r : audit.Request.t) (db : sqlc.DB)
         (sr : store.Request.t) (sdb : store.postgres.DB),
    (((exists input e, In input (audit.Request.Inputs r) /\ json_Marshal input = Err e)
      \/ (exists e, json_Marshal (audit.Request.Parameters r) = Err e)
      \/ (audit.Request.ClientIP r <> ""
          /\ exists e, ParseAddr (audit.Request.ClientIP r) = Err e)) ->
     exists e, audit.LogRequest r db = (Err e, db))
    /\ (forall e db', audit.LogRequest r db = (Err e, db') -> db' = db)
    /\ (forall id db',
           audit.LogRequest r db = (Ok id, db') ->
           exists row,
             db' = sqlc.mkDB (sqlc.request_log db ++ [row]) (sqlc.response_log db)
                     (sqlc.firewall_event db))
    /\ (forall resp,
           match audit.LogResponse resp db with
           | (Some _, db') => db' = db
           | (None, db') =>
               exists row,
                 db' = sqlc.mkDB (sqlc.request_log db) (sqlc.response_log db ++ [row])
                         (sqlc.firewall_event db)
           end)
    /\ (forall fe,
           match audit.LogFirewallEvent fe db with
           | (Some _, db') => db' = db
           | (None, db') =>
               exists row,
                 db' = sqlc.mkDB (sqlc.request_log db) (sqlc.response_log db)
                         (sqlc.firewall_event db ++ [row])
           end)
    /\ (((exists message e,
             In message (store.Request.Messages sr) /\ json_Marshal message = Err e)
         \/ (exists e, json_Marshal (store.Request.Parameters sr) = Err e)
         \/ (store.Request.ClientIP sr <> ""
             /\ exists e, ParseAddr (store.Request.ClientIP sr) = Err e)) ->
        exists e, store.LogRequest sr sdb = (Err e, sdb))
    /\ (forall e sdb', store.LogRequest sr sdb = (Err e, sdb') -> sdb' = sdb)
    /\ (forall id sdb',
           store.LogRequest sr sdb = (Ok id, sdb') ->
           exists row,
             sdb' = store.postgres.mkDB (store.postgres.request_log sdb ++ [row])
                      (store.postgres.response_log sdb)
                      (store.postgres.firewall_event sdb))
    /\ (forall resp,
           match store.LogResponse resp sdb with
           | (Some _, sdb') => sdb' = sdb
           | (None, sdb') =>
               exists row,
                 sdb' = store.postgres.mkDB (store.postgres.request_log sdb)
                          (store.postgres.response_log sdb ++ [row])
                          (store.postgres.firewall_event sdb)
           end)
    /\ (forall fe,
           match store.LogFirewallEvent fe sdb with
           | (Some _, sdb') => sdb' = sdb
           | (None, sdb') =>
               exists row,
                 sdb' = store.postgres.mkDB (store.postgres.request_log sdb)
                          (store.postgres.response_log sdb)
                          (store.postgres.firewall_event sdb ++ [row])
           end).
Proof.
  intros r db sr sdb. repeat split.
  - intros Hcause. destruct (LogRequest_params_error r Hcause) as [e He].
    exists e. unfold audit.LogRequest. now rewrite He.
  - intros e db'. apply LogRequest_error.
  - intros id db' H. apply LogRequest_ok in H as [arg [row [_ [_ [_ ->]]]]].
    now exists row.
  - intros resp. apply LogResponse_atomic.
  - intros fe. apply LogFirewallEvent_atomic.
  - intros Hcause. destruct (store_facts.store_LogRequest_params_error sr Hcause) as [e He].
    exists e. unfold store.LogRequest. now rewrite He.
  - intros e sdb'. apply store_facts.store_LogRequest_error.
  - intros id sdb' H. apply store_facts.store_LogRequest_ok in H as [arg [row [_ [_ [_ ->]]]]].
    now exists row.
  - intros resp. apply store_facts.store_LogResponse_atomic.
  - intros fe. apply store_facts.store_LogFirewallEvent_atomic.
Qed.

Lemma C8_witness :
  (exists e,
      @audit.LogRequest json.codec netip.parser sample.unencodable_request
        sample.one_request
      = (Err e, sample.one_request))
  /\ (exists e,
         @audit.LogRequest json.codec netip.parser sample.bad_address_request
           sample.one_request
         = (Err e, sample.one_request)).
Proof.
  split.
  - apply (proj1 (@C8_writes_are_all_or_nothing json.codec netip.parser
                    sample.unencodable_request sample.one_request
                    sample.store_request sample.one_store_request)).
    left. exists (Some [("callback", AChan)]), "json: unsupported type: chan int".
    split; [now left | reflexivity].
  - apply (proj1 (@C8_writes_are_all_or_nothing json.codec netip.parser
                    sample.bad_address_request sample.one_request
                    sample.store_request sample.one_store_request)).
    right; right. split; [discriminate|].
    exists "ParseAddr(localhost): unable to parse IP". reflexivity.
Defined.

(** ** The demonstration program *)

(** Logging the request, the response and the firewall event of the
    demonstration program in an empty database and reading the trace back
    gives the model, the inputs, the parameters and the response that were
    logged, and the one firewall event with its score. *)
Example demonstration_trace :
  let db1 := sample.one_request in
  let db2 := snd (@audit.LogResponse json.codec sample.audit_response db1) in
  let db3 := snd (audit.LogFirewallEvent sample.demo_event db2) in
  exists t,
    @audit.GetTrace json.codec sample.request_id db3 = Ok t
    /\ audit.Trace.Model t = "gpt-4"
    /\ audit.Trace.Inputs t = audit.Request.Inputs sample.audit_request
    /\ audit.Trace.RequestParameters t = audit.Request.Parameters sample.audit_request
    /\ audit.Trace.Response t = audit.Response.Response sample.audit_response
    /\ audit.Trace.Blocked t = false
    /\ audit.Trace.ClientIP t = "127.0.0.1"
    /\ audit.Trace.FirewallInfo t = [sample.demo_event].
Proof.
  cbv zeta. eexists. split; [vm_compute; reflexivity|].
  repeat split; vm_compute; reflexivity.
Qed.

(** Two requests logged one after the other get distinct correlation ids,
    whatever their content. *)
Lemma LogRequest_ids_distinct `{JSON : EncodingJSON} `{IP : NetIP} :
  forall (r1 r2 : audit.Request.t) (db db1 db2 : sqlc.DB) (id1 id2 : string),
    referential db ->
    audit.LogRequest r1 db = (Ok id1, db1) ->
    audit.LogRequest r2 db1 = (Ok id2, db2) ->
    id1 <> id2.
Proof.
  intros r1 r2 db db1 db2 id1 id2 Href H1 H2.
  pose proof (LogRequest_referential r1 db Href) as Href1. rewrite H1 in Href1.
  cbn [snd] in Href1.
  apply LogRequest_ok in H1 as [arg1 [row1 [_ [Hins1 [-> Hdb1]]]]].
  apply LogRequest_ok in H2 as [arg2 [row2 [_ [Hins2 [-> _]]]]].
  destruct (sqlc_facts.InsertRequestLog_fresh _ _ _ _ Href Hins1) as [Hlt1 [Hv1 _]].
  destruct (sqlc_facts.InsertRequestLog_fresh _ _ _ _ Href1 Hins2) as [Hlt2 [Hv2 _]].
  unfold sqlc.InsertRequestLog in Hins2.
  destruct (sqlc.gen_random_uuid db1) as [u2|] eqn:G; [|discriminate].
  apply sqlc_facts.gen_random_uuid_fresh in G as [_ Hfresh].
  injection Hins2 as <- _. cbn [sqlc.RequestLog.RequestID] in *.
  destruct (sqlc.RequestLog.RequestID row1) as [u1 v1] eqn:Hid1.
  cbn in Hlt1, Hv1, Hlt2. subst v1. intros Heq.
  assert (Hu : Ok (pgtype.mkUUID u1 true) = Ok (pgtype.mkUUID u2 true)).
  { rewrite <- (pgtype_facts.UUID_Scan_String u1 Hlt1),
            <- (pgtype_facts.UUID_Scan_String u2 Hlt2).
    now rewrite Heq. }
  injection Hu as <-. apply Hfresh. subst db1. unfold sqlc.used_ids. cbn.
  rewrite map_app. apply in_or_app. right. cbn. rewrite Hid1. now left.
Qed.

(* ================================================================= *)
(** * Further properties *)

(** ** The validator *)

Section ValidatorFacts.
Context {T : TypesPkg}.

(** The loop over the messages keeps what it had and adds the message of
    each element, in order. *)
Lemma parse_messages_ok (msgs : list any) :
  forall acc out,
    parse_messages msgs acc = Ok out ->
    exists messages,
      out = acc ++ messages
      /\ Forall2 (fun msg m => NewMessageFromJson msg = Ok m) msgs messages.
Proof.
  induction msgs as [|msg rest IH]; intros acc out H; cbn in H.
  - injection H as <-. exists []. split; [now rewrite app_nil_r | constructor].
  - destruct (NewMessageFromJson msg) as [m|e] eqn:Hm; cbn in H; [|discriminate].
    apply IH in H as [messages [-> HF]]. exists (m :: messages).
    split; [now rewrite <- app_assoc | now constructor].
Qed.

Lemma parse_messages_is_ok (msgs : list any) :
  forall acc,
    is_ok (parse_messages msgs acc)
    = forallb (fun msg => is_ok (NewMessageFromJson msg)) msgs.
Proof.
  induction msgs as [|msg rest IH]; intros acc; cbn; [reflexivity|].
  destruct (NewMessageFromJson msg); cbn; [apply IH | reflexivity].
Qed.

(** The loop stops at the first element that is no message, with its error. *)
Lemma parse_messages_first_error (good : list any) :
  forall bad rest e acc,
    forallb (fun msg => is_ok (NewMessageFromJson msg)) good = true ->
    NewMessageFromJson bad = Err e ->
    parse_messages (good ++ bad :: rest) acc = Err e.
Proof.
  induction good as [|g good IH]; intros bad rest e acc Hgood Hbad; cbn.
  - now rewrite Hbad.
  - cbn in Hgood. apply andb_true_iff in Hgood as [Hg Hgood].
    destruct (NewMessageFromJson g); [cbn | discriminate]. now apply IH.
Qed.

(** The optional fields, as [ParseGenerateRequest] treats them. *)
Lemma ParseGenerateRequest_unfold (req : GenerateRequest) (registry : Registry)
      name info :
  NewName (Request_Name req) = Ok name ->
  GetInfo registry (Name_String name) = Some info ->
  ParseGenerateRequest req registry
  = (maxTokens <-
       match Request_MaxTokens req with
       | Some n => maxTokens <- NewMaxTokens n ;; Ok (Some maxTokens)
       | None => Ok None
       end ;;
     temperature <-
       match Request_Temperature req with
       | Some t => temp <- NewTemperature t ;; Ok (Some temp)
       | None => Ok None
       end ;;
     if (List.length (Request_Messages req) =? 0)%nat
     then Err "messages must be a non-empty array"
     else
       messagesArray <- parse_messages (Request_Messages req) [] ;;
       Ok (mkGeneratePayload info (Request_IsStreaming req) maxTokens temperature
             messagesArray)).
Proof.
  intros Hname Hinfo. unfold ParseGenerateRequest. rewrite Hname. cbn [bind].
  now rewrite Hinfo.
Qed.

End ValidatorFacts.

(** X1: validation succeeds exactly when every check passes: the model name
    is accepted and found in the registry, max-tokens and temperature are
    accepted when given, the messages array is not empty and each of its
    elements is a message. *)
Theorem X1_validation_succeeds_iff_all_checks_pass `{T : TypesPkg} :
  forall (req : GenerateRequest) (registry : Registry),
    is_ok (ParseGenerateRequest req registry) = true <->
    (exists name info,
        NewName (Request_Name req) = Ok name
        /\ GetInfo registry (Name_String name) = Some info)
    /\ (forall n, Request_MaxTokens req = Some n -> is_ok (NewMaxTokens n) = true)
    /\ (forall t, Request_Temperature req = Some t -> is_ok (NewTemperature t) = true)
    /\ Request_Messages req <> []
    /\ forallb (fun msg => is_ok (NewMessageFromJson msg)) (Request_Messages req) = true.
Proof.
  intros req registry. split.
  - intros H.
    destruct (NewName (Request_Name req)) as [name|e] eqn:Hname;
      [|unfold ParseGenerateRequest in H; rewrite Hname in H; discriminate H].
    destruct (GetInfo registry (Name_String name)) as [info|] eqn:Hinfo;
      [|unfold ParseGenerateRequest in H; rewrite Hname in H; cbn in H;
        rewrite Hinfo in H; discriminate H].
    rewrite (ParseGenerateRequest_unfold req registry name info Hname Hinfo) in H.
    split; [now exists name, info|].
    destruct (Request_MaxTokens req) as [n|].
    + destruct (NewMaxTokens n) eqn:Hn; cbn in H; [|discriminate].
      split; [intros n' [= <-]; now rewrite Hn|].
      destruct (Request_Temperature req) as [t|].
      * destruct (NewTemperature t) eqn:Ht; cbn in H; [|discriminate].
        split; [intros t' [= <-]; now rewrite Ht|].
        destruct (Request_Messages req) as [|m ms] eqn:Hm; [discriminate|].
        split; [discriminate|]. cbn [List.length Nat.eqb] in H.
        rewrite is_ok_bind in H. rewrite <- (parse_messages_is_ok (m :: ms) []).
        now destruct (parse_messages (m :: ms) []).
      * split; [discriminate|]. cbn in H.
        destruct (Request_Messages req) as [|m ms] eqn:Hm; [discriminate|].
        split; [discriminate|]. cbn [List.length Nat.eqb] in H.
        rewrite is_ok_bind in H. rewrite <- (parse_messages_is_ok (m :: ms) []).
        now destruct (parse_messages (m :: ms) []).
    + split; [discriminate|]. cbn in H.
      destruct (Request_Temperature req) as [t|].
      * destruct (NewTemperature t) eqn:Ht; cbn in H; [|discriminate].
        split; [intros t' [= <-]; now rewrite Ht|].
        destruct (Request_Messages req) as [|m ms] eqn:Hm; [discriminate|].
        split; [discriminate|]. cbn [List.length Nat.eqb] in H.
        rewrite is_ok_bind in H. rewrite <- (parse_messages_is_ok (m :: ms) []).
        now destruct (parse_messages (m :: ms) []).
      * split; [discriminate|]. cbn in H.
        destruct (Request_Messages req) as [|m ms] eqn:Hm; [discriminate|].
        split; [discriminate|]. cbn [List.length Nat.eqb] in H.
        rewrite is_ok_bind in H. rewrite <- (parse_messages_is_ok (m :: ms) []).
        now destruct (parse_messages (m :: ms) []).
  - intros [[name [info [Hname Hinfo]]] [Hmax [Htemp [Hne Hall]]]].
    rewrite (ParseGenerateRequest_unfold req registry name info Hname Hinfo).
    assert (Hmsgs : exists out, parse_messages (Request_Messages req) [] = Ok out).
    { rewrite <- (parse_messages_is_ok _ []) in Hall.
      destruct (parse_messages (Request_Messages req) []); [now eexists | discriminate]. }
    destruct Hmsgs as [out Hout].
    assert (Hlen : (List.length (Request_Messages req) =? 0)%nat = false).
    { apply Nat.eqb_neq. destruct (Request_Messages req); [contradiction | discriminate]. }
    destruct (Request_MaxTokens req) as [n|].
    + specialize (Hmax n eq_refl). destruct (NewMaxTokens n); [cbn|discriminate].
      destruct (Request_Temperature req) as [t|].
      * specialize (Htemp t eq_refl). destruct (NewTemperature t); [cbn|discriminate].
        now rewrite Hlen, Hout.
      * cbn. now rewrite Hlen, Hout.
    + cbn. destruct (Request_Temperature req) as [t|].
      * specialize (Htemp t eq_refl). destruct (NewTemperature t); [cbn|discriminate].
        now rewrite Hlen, Hout.
      * cbn. now rewrite Hlen, Hout.
Qed.

(** X2: a payload the validator returns carries the descriptor the registry
    holds for the model name, the request's streaming flag, max-tokens and
    temperature exactly when the request gave them (as validated), and the
    message of each element of the request's array, in the array's order. *)
Theorem X2_validated_payload_carries_the_request `{T : TypesPkg} :
  forall (req : GenerateRequest) (registry : Registry) (payload : GeneratePayload),
    ParseGenerateRequest req registry = Ok payload ->
    (exists name,
        NewName (Request_Name req) = Ok name
        /\ GetInfo registry (Name_String name) = Some (Payload_Model payload))
    /\ Payload_IsStreaming payload = Request_IsStreaming req
    /\ match Request_MaxTokens req with
       | Some n =>
           exists maxTokens,
             NewMaxTokens n = Ok maxTokens /\ Payload_MaxTokens payload = Some maxTokens
       | None => Payload_MaxTokens payload = None
       end
    /\ match Request_Temperature req with
       | Some t =>
           exists temp,
             NewTemperature t = Ok temp /\ Payload_Temperature payload = Some temp
       | None => Payload_Temperature payload = None
       end
    /\ Forall2 (fun msg m => NewMessageFromJson msg = Ok m)
               (Request_Messages req) (Messages payload).
Proof.
  intros req registry payload H.
  destruct (NewName (Request_Name req)) as [name|e] eqn:Hname;
    [|unfold ParseGenerateRequest in H; rewrite Hname in H; discriminate H].
  destruct (GetInfo registry (Name_String name)) as [info|] eqn:Hinfo;
    [|unfold ParseGenerateRequest in H; rewrite Hname in H; cbn in H;
      rewrite Hinfo in H; discriminate H].
  rewrite (ParseGenerateRequest_unfold req registry name info Hname Hinfo) in H.
  assert (Hend : forall mt tp,
             (if (List.length (Request_Messages req) =? 0)%nat
              then Err "messages must be a non-empty array"
              else
                messagesArray <- parse_messages (Request_Messages req) [] ;;
                Ok (mkGeneratePayload info (Request_IsStreaming req) mt tp messagesArray))
             = Ok payload ->
             Payload_Model payload = info
             /\ Payload_IsStreaming payload = Request_IsStreaming req
             /\ Payload_MaxTokens payload = mt
             /\ Payload_Temperature payload = tp
             /\ Forall2 (fun msg m => NewMessageFromJson msg = Ok m)
                        (Request_Messages req) (Messages payload)).
  { intros mt tp H'. destruct (List.length (Request_Messages req) =? 0)%nat; [discriminate|].
    destruct (parse_messages (Request_Messages req) []) as [out|] eqn:Hout;
      cbn in H'; [|discriminate].
    injection H' as <-. cbn. apply parse_messages_ok in Hout as [ms [-> HF]].
    repeat split; assumption. }
  destruct (Request_MaxTokens req) as [n|].
  - destruct (NewMaxTokens n) as [mt|] eqn:Hn; cbn in H; [|discriminate].
    destruct (Request_Temperature req) as [t|].
    + destruct (NewTemperature t) as [tp|] eqn:Ht; cbn in H; [|discriminate].
      apply Hend in H as [Hm [Hs [Hmt [Htp HF]]]].
      split; [exists name; now rewrite Hm|]. split; [assumption|].
      split; [now exists mt|]. split; [now exists tp | assumption].
    + cbn in H. apply Hend in H as [Hm [Hs [Hmt [Htp HF]]]].
      split; [exists name; now rewrite Hm|]. split; [assumption|].
      split; [now exists mt|]. split; assumption.
  - cbn in H. destruct (Request_Temperature req) as [t|].
    + destruct (NewTemperature t) as [tp|] eqn:Ht; cbn in H; [|discriminate].
      apply Hend in H as [Hm [Hs [Hmt [Htp HF]]]].
      split; [exists name; now rewrite Hm|]. split; [assumption|].
      split; [assumption|]. split; [now exists tp | assumption].
    + cbn in H. apply Hend in H as [Hm [Hs [Hmt [Htp HF]]]].
      split; [exists name; now rewrite Hm|]. split; [assumption|].
      split; [assumption|]. split; assumption.
Qed.

Lemma X2_witness :
  Payload_IsStreaming sample.payload = Request_IsStreaming sample.request
  /\ Forall2 (fun msg m => @NewMessageFromJson types_model.pkg msg = Ok m)
             (Request_Messages sample.request) (Messages sample.payload).
Proof.
  pose proof (@X2_validated_payload_carries_the_request types_model.pkg
                sample.request sample.registry sample.payload eq_refl)
    as [_ [Hs [_ [_ HF]]]].
  split; assumption.
Defined.



(** ** Loading the firewall configuration *)

Section LoadConfigFacts.
Context {T : TypesPkg} {C : ConfigPkg}.

Lemma load_firewall_ok (rf : rawFirewall) (fw : Firewall_config) :
  load_firewall rf = Ok fw -> loaded_from rf fw.
Proof.
  unfold load_firewall, loaded_from. intros H.
  destruct (NewFirewallType (raw_Type rf)) as [ft|]; cbn in H; [|discriminate].
  destruct (NewInternalModelName (raw_Model rf)) as [mn|]; cbn in H; [|discriminate].
  destruct (GetModel mn) as [m|] eqn:Hm; cbn in H; [|discriminate].
  injection H as <-. cbn. split; [reflexivity|]. split; [reflexivity|].
  split; [reflexivity|]. now exists mn.
Qed.

Lemma load_firewalls_ok (raws : list rawFirewall) :
  forall acc out,
    load_firewalls raws acc = Ok out ->
    exists fws, out = acc ++ fws /\ Forall2 loaded_from raws fws.
Proof.
  induction raws as [|rf rest IH]; intros acc out H; cbn in H.
  - injection H as <-. exists []. split; [now rewrite app_nil_r | constructor].
  - destruct (load_firewall rf) as [fw|] eqn:Hfw; cbn in H; [|discriminate].
    apply IH in H as [fws [-> HF]]. exists (fw :: fws).
    split; [now rewrite <- app_assoc|]. constructor; [|assumption].
    now apply load_firewall_ok.
Qed.

Lemma load_firewalls_first_error (good : list rawFirewall) :
  forall bad rest e acc,
    forallb (fun rf => is_ok (load_firewall rf)) good = true ->
    load_firewall bad = Err e ->
    load_firewalls (good ++ bad :: rest) acc = Err e.
Proof.
  induction good as [|g good IH]; intros bad rest e acc Hgood Hbad; cbn.
  - now rewrite Hbad.
  - cbn in Hgood. apply andb_true_iff in Hgood as [Hg Hgood].
    destruct (load_firewall g); [cbn | discriminate]. now apply IH.
Qed.

Lemma load_firewall_error (rf : rawFirewall) (e : error) :
  load_firewall rf = Err e ->
  exists cause,
    e = ("invalid firewall type: " ++ cause)%string
    \/ e = ("invalid model name: " ++ cause)%string
    \/ e = ("failed to get model: " ++ cause)%string.
Proof.
  unfold load_firewall. intros H.
  destruct (NewFirewallType (raw_Type rf)) as [ft|c]; cbn in H;
    [|injection H as <-; exists c; now left].
  destruct (NewInternalModelName (raw_Model rf)) as [mn|c]; cbn in H;
    [|injection H as <-; exists c; right; now left].
  destruct (GetModel mn) as [m|c]; cbn in H; [discriminate|].
  injection H as <-. exists c. right; now right.
Qed.

(** Whether an entry loads depends on its type and model texts only. *)
Lemma load_firewall_is_ok_texts (rf rf' : rawFirewall) :
  raw_Type rf = raw_Type rf' -> raw_Model rf = raw_Model rf' ->
  is_ok (load_firewall rf) = is_ok (load_firewall rf').
Proof.
  unfold load_firewall. intros -> ->.
  destruct (NewFirewallType (raw_Type rf')); cbn; [|reflexivity].
  destruct (NewInternalModelName (raw_Model rf')) as [mn|]; cbn; [|reflexivity].
  now destruct (GetModel mn).
Qed.

Lemma load_firewalls_is_ok (raws : list rawFirewall) :
  forall acc,
    is_ok (load_firewalls raws acc) = forallb (fun rf => is_ok (load_firewall rf)) raws.
Proof.
  induction raws as [|rf rest IH]; intros acc; cbn; [reflexivity|].
  destruct (load_firewall rf); cbn; [apply IH | reflexivity].
Qed.

End LoadConfigFacts.

(** X4: a configuration that [LoadConfig] returns has one firewall per entry
    of the decoded file, in the file's order; each carries the entry's
    enabled flag and blocking threshold unchanged, the firewall type made of
    the entry's type text and the model found for the entry's model name. *)
Theorem X4_loaded_config_mirrors_the_file `{T : TypesPkg} `{C : @ConfigPkg T} :
  forall (path : string) (cfg : Config),
    LoadConfig path = Ok cfg ->
    exists data raw,
      os_ReadFile path = Ok data
      /\ yaml_Unmarshal data = Ok raw
      /\ List.length (Firewalls cfg) = List.length (raw_Firewalls raw)
      /\ Forall2
           (fun rf fw =>
              Enabled fw = raw_Enabled rf
              /\ BlockingThreshold fw = raw_BlockingThreshold rf
              /\ NewFirewallType (raw_Type rf) = Ok (Type_ fw)
              /\ exists modelName,
                  NewInternalModelName (raw_Model rf) = Ok modelName
                  /\ GetModel modelName = Ok (Model fw))
           (raw_Firewalls raw) (Firewalls cfg).
Proof.
  intros path cfg H. unfold LoadConfig in H.
  destruct (os_ReadFile path) as [data|] eqn:Hread; cbn in H; [|discriminate].
  destruct (yaml_Unmarshal data) as [raw|] eqn:Hraw; cbn in H; [|discriminate].
  destruct (load_firewalls (raw_Firewalls raw) []) as [fws|] eqn:Hl; cbn in H;
    [|discriminate].
  injection H as <-. exists data, raw.
  split; [first [assumption | reflexivity]|].
  split; [first [assumption | reflexivity]|].
  apply load_firewalls_ok in Hl as [fws' [-> HF]]. cbn [app Firewalls].
  split; [symmetry; eapply Forall2_length; eassumption | exact HF].
Qed.

Lemma X4_witness :
  exists data raw,
    @os_ReadFile _ fixtures.config_pkg fixtures.config_path = Ok data
    /\ @yaml_Unmarshal _ fixtures.config_pkg data = Ok raw
    /\ List.length
         (Firewalls
            (mkConfig
               [@mkFirewall types_model.pkg true "malicious_intent" "classifier-1"
                  0.5%float;
                @mkFirewall types_model.pkg false "hate_speech" "classifier-2"
                  7.5%float]))
       = List.length (raw_Firewalls raw).
Proof.
  destruct (@X4_loaded_config_mirrors_the_file types_model.pkg fixtures.config_pkg
              fixtures.config_path
              (mkConfig
                 [@mkFirewall types_model.pkg true "malicious_intent" "classifier-1"
                    0.5%float;
                  @mkFirewall types_model.pkg false "hate_speech" "classifier-2"
                    7.5%float]) eq_refl)
    as [data [raw [Hread [Hraw [Hlen _]]]]].
  exists data, raw. repeat split; assumption.
Defined.



(** X6: [LoadConfig] checks neither the enabled flag nor the blocking
    threshold: two decoded files whose entries have the same type and model
    texts, in the same order, both load or both fail, whatever their flags
    and thresholds (a threshold outside [0, 1] is accepted). *)
Theorem X6_LoadConfig_checks_no_threshold `{T : TypesPkg} `{C : @ConfigPkg T} :
  forall (raws raws' : list rawFirewall),
    map raw_Type raws = map raw_Type raws' ->
    map raw_Model raws = map raw_Model raws' ->
    is_ok (load_firewalls raws []) = is_ok (load_firewalls raws' []).
Proof.
  intros raws raws'. rewrite !load_firewalls_is_ok.
  revert raws'. induction raws as [|rf rest IH]; intros [|rf' rest'] Ht Hm;
    try discriminate; [reflexivity|].
  cbn in *. injection Ht as Ht Hts. injection Hm as Hm Hms.
  now rewrite (load_firewall_is_ok_texts rf rf' Ht Hm), (IH rest' Hts Hms).
Qed.

Lemma X6_witness :
  is_ok (@load_firewalls _ fixtures.config_pkg (raw_Firewalls fixtures.raw_config) [])
  = is_ok (@load_firewalls _ fixtures.config_pkg
             [mkRawFirewall true "malicious_intent" "classifier-1" 0.25%float;
              mkRawFirewall true "hate_speech" "classifier-2" 1%float] []).
Proof.
  apply (@X6_LoadConfig_checks_no_threshold types_model.pkg fixtures.config_pkg);
    reflexivity.
Defined.

(** ** More on the audit store of [audit.go] *)

Section AuditMore.
Context {JSON : EncodingJSON} {IP : NetIP}.
Import pgtype pgtype_facts sqlc sqlc_facts audit.

Lemma marshal_inputs_first_error (good : list gomap) :
  forall bad rest e acc,
    forallb (fun m => is_ok (json_Marshal m)) good = true ->
    json_Marshal bad = Err e ->
    marshal_inputs (good ++ bad :: rest) acc = Err ("invalid messages: " ++ e)%string.
Proof.
  induction good as [|g good IH]; intros bad rest e acc Hgood Hbad; cbn.
  - now rewrite Hbad.
  - cbn in Hgood. apply andb_true_iff in Hgood as [Hg Hgood].
    destruct (json_Marshal g); [cbn | discriminate]. now apply IH.
Qed.

Lemma marshal_inputs_all_ok (inputs : list gomap) :
  forall acc,
    forallb (fun m => is_ok (json_Marshal m)) inputs = true ->
    exists out, marshal_inputs inputs acc = Ok out.
Proof.
  induction inputs as [|m rest IH]; intros acc H; cbn; [now eexists|].
  cbn in H. apply andb_true_iff in H as [Hm H].
  destruct (json_Marshal m); [cbn | discriminate]. now apply IH.
Qed.

(** What [LogRequest] hands to the insert. *)
Lemma LogRequest_params_ok (r : Request.t) (arg : InsertRequestLogParams.t) :
  LogRequest_params r = Ok arg ->
  InsertRequestLogParams.Model arg = Request.Model r
  /\ InsertRequestLogParams.TargetUrl arg = Request.TargetURL r
  /\ Forall2 (fun input blob => json_Marshal input = Ok blob)
             (Request.Inputs r) (InsertRequestLogParams.Inputs arg)
  /\ json_Marshal (Request.Parameters r) = Ok (InsertRequestLogParams.Parameters arg)
  /\ InsertRequestLogParams.UserID arg = scanned_id (Request.UserID r)
  /\ InsertRequestLogParams.ApiKeyID arg = scanned_id (Request.APIKeyID r)
  /\ (Request.ClientIP r = "" -> InsertRequestLogParams.ClientIp arg = None)
  /\ (Request.ClientIP r <> "" ->
      exists ip,
        ParseAddr (Request.ClientIP r) = Ok ip
        /\ InsertRequestLogParams.ClientIp arg = Some ip).
Proof.
  unfold LogRequest_params. intros H.
  destruct (marshal_inputs (Request.Inputs r) []) as [blobs|] eqn:Hm;
    cbn in H; [|discriminate].
  destruct (json_Marshal (Request.Parameters r)) as [pb|] eqn:Hpm;
    cbn in H; [|discriminate].
  apply marshal_inputs_ok in Hm as [blobs' [-> HF]]. cbn [app] in H.
  destruct (String.eqb (Request.ClientIP r) "") eqn:Hip.
  - cbn in H. injection H as <-. cbn. apply String.eqb_eq in Hip.
    do 2 (split; [reflexivity|]). split; [exact HF|]. do 3 (split; [reflexivity|]).
    split; [reflexivity|]. intros Hne. contradiction.
  - destruct (ParseAddr (Request.ClientIP r)) as [ip|] eqn:Hparse; cbn in H;
      [|discriminate].
    injection H as <-. cbn. apply String.eqb_neq in Hip.
    do 2 (split; [reflexivity|]). split; [exact HF|]. do 3 (split; [reflexivity|]).
    split; [intros Habs; contradiction|]. intros _. now exists ip.
Qed.

Lemma InsertRequestLog_row arg db row db' :
  InsertRequestLog arg db = (Ok row, db') ->
  RequestLog.UserID row = InsertRequestLogParams.UserID arg
  /\ RequestLog.ApiKeyID row = InsertRequestLogParams.ApiKeyID arg
  /\ RequestLog.TargetUrl row = InsertRequestLogParams.TargetUrl arg
  /\ RequestLog.ClientIp row = InsertRequestLogParams.ClientIp arg.
Proof.
  unfold InsertRequestLog. destruct (gen_random_uuid db); [|discriminate].
  intros [= <- _]. auto.
Qed.

Lemma GetRequestFullTrace_unknown db id :
  request_exists db id = false -> GetRequestFullTrace id db = Ok [].
Proof.
  unfold request_exists, GetRequestFullTrace. intros H. f_equal.
  assert (Hf : filter (fun r => UUID_Valid id && UUID_eqb (RequestLog.RequestID r) id)
                      (request_log db) = []).
  { apply filter_none. intros r Hin.
    destruct (UUID_Valid id); cbn [andb] in *; [|reflexivity].
    destruct (UUID_eqb (RequestLog.RequestID r) id) eqn:E; [|reflexivity].
    assert (existsb (fun r => UUID_eqb (RequestLog.RequestID r) id) (request_log db) = true);
      [|congruence].
    apply existsb_exists. now exists r. }
  now rewrite Hf.
Qed.

(** The loop that collects the events returns the events so far, then the
    event of every row that carries one, in row order. *)
Lemma collect_events_ok (rows : list GetRequestFullTraceRow.t) :
  forall acc out,
    collect_events rows acc = Ok out -> out = acc ++ row_events rows.
Proof.
  induction rows as [|r rest IH]; intros acc out H; cbn in H.
  - injection H as <-. cbn. now rewrite app_nil_r.
  - unfold row_events. cbn [flat_map].
    destruct (Text_Valid (GetRequestFullTraceRow.FirewallID r)).
    + destruct (Float64Value (GetRequestFullTraceRow.RiskScore r)) as [score|];
        cbn in H; [|discriminate].
      apply IH in H. rewrite H, <- app_assoc. reflexivity.
    + apply IH in H. rewrite H. reflexivity.
Qed.

Lemma row_events_length (rows : list GetRequestFullTraceRow.t) :
  forallb event_decodes rows = true ->
  List.length (row_events rows)
  = List.length
      (filter (fun r => Text_Valid (GetRequestFullTraceRow.FirewallID r)) rows).
Proof.
  induction rows as [|r rest IH]; intros H; [reflexivity|].
  cbn in H. apply andb_true_iff in H as [Hr H]. unfold row_events in *.
  cbn [flat_map filter]. unfold event_decodes in Hr.
  destruct (Text_Valid (GetRequestFullTraceRow.FirewallID r)); cbn in Hr.
  - destruct (Float64Value (GetRequestFullTraceRow.RiskScore r)); [|discriminate].
    cbn. now rewrite IH.
  - now apply IH.
Qed.

End AuditMore.

(** X7: [LogRequest] reports the first step that fails, and inserts
    nothing: the first message that does not encode gives "invalid
    messages" with its error, whatever the parameters and the client
    address; when every message encodes, parameters that do not encode give
    "invalid parameters"; when they encode too, a non-empty client address
    that does not parse gives "invalid IP". *)
Theorem X7_LogRequest_reports_the_first_failure `{JSON : EncodingJSON} `{IP : NetIP} :
  forall (r : audit.Request.t) (db : sqlc.DB),
    (forall good bad rest e,
        audit.Request.Inputs r = good ++ bad :: rest ->
        forallb (fun m => is_ok (json_Marshal m)) good = true ->
        json_Marshal bad = Err e ->
        audit.LogRequest r db = (Err ("invalid messages: " ++ e)%string, db))
    /\ (forall e,
           forallb (fun m => is_ok (json_Marshal m)) (audit.Request.Inputs r) = true ->
           json_Marshal (audit.Request.Parameters r) = Err e ->
           audit.LogRequest r db = (Err ("invalid parameters: " ++ e)%string, db))
    /\ (forall e,
           forallb (fun m => is_ok (json_Marshal m)) (audit.Request.Inputs r) = true ->
           is_ok (json_Marshal (audit.Request.Parameters r)) = true ->
           audit.Request.ClientIP r <> "" ->
           ParseAddr (audit.Request.ClientIP r) = Err e ->
           audit.LogRequest r db = (Err ("invalid IP: " ++ e)%string, db)).
Proof.
  intros r db. split; [|split].
  - intros good bad rest e Hin Hgood Hbad.
    unfold audit.LogRequest, audit.LogRequest_params. rewrite Hin.
    now rewrite (marshal_inputs_first_error good bad rest e [] Hgood Hbad).
  - intros e Hall He.
    destruct (marshal_inputs_all_ok _ [] Hall) as [out Hout].
    unfold audit.LogRequest, audit.LogRequest_params. rewrite Hout. cbn.
    now rewrite He.
  - intros e Hall Hpar Hne He.
    destruct (marshal_inputs_all_ok _ [] Hall) as [out Hout].
    unfold audit.LogRequest, audit.LogRequest_params. rewrite Hout. cbn.
    destruct (json_Marshal (audit.Request.Parameters r)); [cbn | discriminate].
    apply String.eqb_neq in Hne. now rewrite Hne, He.
Qed.

Lemma X7_witness :
  @audit.LogRequest json.codec netip.parser fixtures.thrice_bad_request
    sample.one_request
  = (Err "invalid messages: json: unsupported type: chan int", sample.one_request)
  /\ @audit.LogRequest json.codec netip.parser sample.bad_address_request
       sample.one_request
     = (Err "invalid IP: ParseAddr(localhost): unable to parse IP", sample.one_request).
Proof.
  split.
  - apply (proj1 (@X7_LogRequest_reports_the_first_failure json.codec netip.parser
                    fixtures.thrice_bad_request sample.one_request)
             [Some [("role", AStr "user")]] (Some [("callback", AChan)]) []);
      reflexivity.
  - apply (proj2 (proj2 (@X7_LogRequest_reports_the_first_failure json.codec
                           netip.parser sample.bad_address_request sample.one_request)));
      try reflexivity. discriminate.
Defined.

(** X8: a successful [LogRequest] adds one request row and returns the text
    of its id.  The row holds the model and the target URL as given, one
    blob per message, in order, each the encoding of its message, the
    encoding of the parameters, the parsed client address or NULL when the
    address is empty, and for the user and API-key ids the scanned UUID or
    NULL when the text is no UUID. *)
Theorem X8_LogRequest_stores_the_request `{JSON : EncodingJSON} `{IP : NetIP} :
  forall (r : audit.Request.t) (db db' : sqlc.DB) (id : string),
    audit.LogRequest r db = (Ok id, db') ->
    exists row,
      db' = sqlc.mkDB (sqlc.request_log db ++ [row]) (sqlc.response_log db)
              (sqlc.firewall_event db)
      /\ id = pgtype.UUID_String (sqlc.RequestLog.RequestID row)
      /\ sqlc.RequestLog.Model row = audit.Request.Model r
      /\ sqlc.RequestLog.TargetUrl row = audit.Request.TargetURL r
      /\ Forall2 (fun input blob => json_Marshal input = Ok blob)
                 (audit.Request.Inputs r) (sqlc.RequestLog.Inputs row)
      /\ json_Marshal (audit.Request.Parameters r) = Ok (sqlc.RequestLog.Parameters row)
      /\ sqlc.RequestLog.UserID row = scanned_id (audit.Request.UserID r)
      /\ sqlc.RequestLog.ApiKeyID row = scanned_id (audit.Request.APIKeyID r)
      /\ (audit.Request.ClientIP r = "" -> sqlc.RequestLog.ClientIp row = None)
      /\ (audit.Request.ClientIP r <> "" ->
          exists ip,
            ParseAddr (audit.Request.ClientIP r) = Ok ip
            /\ sqlc.RequestLog.ClientIp row = Some ip).
Proof.
  intros r db db' id H.
  apply LogRequest_ok in H as [arg [row [Hp [Hins [-> ->]]]]].
  exists row. split; [reflexivity|]. split; [reflexivity|].
  destruct (sqlc_facts.InsertRequestLog_columns _ _ _ _ Hins) as [-> [-> ->]].
  destruct (InsertRequestLog_row _ _ _ _ Hins) as [-> [-> [-> ->]]].
  destruct (LogRequest_params_ok r arg Hp) as [H1 [H2 [H3 [H4 [H5 [H6 [H7 H8]]]]]]].
  repeat (split; [assumption|]). assumption.
Qed.

Lemma X8_witness :
  exists row,
    snd (@audit.LogRequest json.codec netip.parser fixtures.anonymous_request sqlc.empty)
    = sqlc.mkDB [row] [] []
    /\ sqlc.RequestLog.UserID row = pgtype.UUID_zero
    /\ sqlc.RequestLog.ClientIp row = None.
Proof.
  destruct (@X8_LogRequest_stores_the_request json.codec netip.parser
              fixtures.anonymous_request sqlc.empty
              (snd (@audit.LogRequest json.codec netip.parser
                      fixtures.anonymous_request sqlc.empty))
              sample.request_id eq_refl)
    as [row [Hdb [_ [_ [_ [_ [_ [Huser [_ [Hip _]]]]]]]]]].
  exists row. split; [exact Hdb|]. split; [exact Huser | now apply Hip].
Defined.



(** X10: the firewall events of a trace are those of the rows that carry an
    event, one per such row, in row order; rows without an event are
    skipped.  The blocked flag, the blocked reason and the risk score of the
    trace itself are those of the first row alone: they are not aggregated
    over the events. *)
Theorem X10_trace_events_follow_the_rows `{JSON : EncodingJSON} `{IP : NetIP} :
  forall (row : sqlc.GetRequestFullTraceRow.t)
         (rest : list sqlc.GetRequestFullTraceRow.t) (t : audit.Trace.t),
    audit.trace_of_rows (row :: rest) = Ok t ->
    audit.Trace.FirewallInfo t = row_events (row :: rest)
    /\ List.length (audit.Trace.FirewallInfo t)
       = List.length
           (filter (fun r => pgtype.Text_Valid (sqlc.GetRequestFullTraceRow.FirewallID r))
                   (row :: rest))
    /\ audit.Trace.Blocked t
       = pgtype.Bool_Bool (sqlc.GetRequestFullTraceRow.Blocked row)
    /\ audit.Trace.BlockedReason t
       = pgtype.Text_String (sqlc.GetRequestFullTraceRow.BlockedReason row)
    /\ (pgtype.Numeric_Valid (sqlc.GetRequestFullTraceRow.RiskScore row) = false ->
        audit.Trace.RiskScore t = 0%float)
    /\ (pgtype.Numeric_Valid (sqlc.GetRequestFullTraceRow.RiskScore row) = true ->
        exists score,
          pgtype.Float64Value (sqlc.GetRequestFullTraceRow.RiskScore row) = Ok score
          /\ audit.Trace.RiskScore t = pgtype.Float64 score).
Proof.
  intros row rest t H.
  assert (Hok : is_ok (audit.trace_of_rows (row :: rest)) = true) by now rewrite H.
  rewrite trace_of_rows_is_ok in Hok.
  apply andb_true_iff in Hok as [_ Hev].
  unfold audit.trace_of_rows in H.
  destruct (audit.unmarshal_inputs _ _); cbn [bind] in H; [|discriminate].
  destruct (json_Unmarshal (sqlc.GetRequestFullTraceRow.Response row));
    cbn [bind wrap] in H; [|discriminate].
  destruct (pgtype.Numeric_Valid (sqlc.GetRequestFullTraceRow.RiskScore row)) eqn:Hv.
  - destruct (pgtype.Float64Value (sqlc.GetRequestFullTraceRow.RiskScore row))
      as [score|] eqn:Hs; cbn [bind wrap] in H; [|discriminate].
    destruct (audit.collect_events (row :: rest) []) as [events|] eqn:Hc;
      cbn [bind] in H; [|discriminate].
    injection H as <-. cbn. apply collect_events_ok in Hc. cbn [app] in Hc. subst events.
    split; [reflexivity|]. split; [now apply row_events_length|].
    split; [reflexivity|]. split; [reflexivity|]. split; [discriminate|].
    intros _. now exists score.
  - cbn [bind] in H.
    destruct (audit.collect_events (row :: rest) []) as [events|] eqn:Hc;
      cbn [bind] in H; [|discriminate].
    injection H as <-. cbn. apply collect_events_ok in Hc. cbn [app] in Hc. subst events.
    split; [reflexivity|]. split; [now apply row_events_length|].
    split; [reflexivity|]. split; [reflexivity|]. split; [reflexivity | discriminate].
Qed.

Lemma X10_witness :
  exists t,
    @audit.GetTrace json.codec sample.request_id fixtures.two_events_db = Ok t
    /\ audit.Trace.FirewallInfo t = [fixtures.passing_event; fixtures.blocking_event]
    /\ audit.Trace.Blocked t = false.
Proof.
  destruct (@audit.trace_of_rows json.codec fixtures.two_events_rows) as [t|] eqn:Ht;
    [|vm_compute in Ht; discriminate Ht].
  exists t.
  assert (Hrows : exists row rest, fixtures.two_events_rows = row :: rest
                                   /\ pgtype.Bool_Bool
                                        (sqlc.GetRequestFullTraceRow.Blocked row) = false)
    by (eexists; eexists; split; reflexivity).
  destruct Hrows as [row [rest [Hrows Hb]]]. rewrite Hrows in Ht.
  destruct (@X10_trace_events_follow_the_rows json.codec netip.parser row rest t Ht)
    as [Hinfo [_ [Hblocked _]]].
  split; [|split].
  - rewrite <- Hrows in Ht. exact Ht.
  - rewrite Hinfo, <- Hrows. reflexivity.
  - now rewrite Hblocked.
Defined.

(** ** Ids, addresses and events through the store *)

Module flow_facts.
Import pgtype pgtype_facts sqlc sqlc_facts audit.

Lemma hexval_bound (c : ascii) (d : N) : hexval c = Some d -> (d < 16)%N.
Proof.
  unfold hexval.
  destruct ((48 <=? N_of_ascii c) && (N_of_ascii c <=? 57))%N eqn:H1.
  { apply andb_true_iff in H1 as [Ha Hb]. apply N.leb_le in Ha, Hb.
    intros [= <-]. lia. }
  destruct ((97 <=? N_of_ascii c) && (N_of_ascii c <=? 102))%N eqn:H2.
  { apply andb_true_iff in H2 as [Ha Hb]. apply N.leb_le in Ha, Hb.
    intros [= <-]. lia. }
  destruct ((65 <=? N_of_ascii c) && (N_of_ascii c <=? 70))%N eqn:H3; [|discriminate].
  apply andb_true_iff in H3 as [Ha Hb]. apply N.leb_le in Ha, Hb.
  intros [= <-]. lia.
Qed.

Lemma hexdecode_bound (s : list ascii) :
  forall acc n,
    hexdecode acc s = Some n -> (n < (acc + 1) * 16 ^ N.of_nat (List.length s))%N.
Proof.
  induction s as [|c r IH]; intros acc n H; cbn [hexdecode] in H.
  - injection H as <-. cbn. lia.
  - destruct (hexval c) as [d|] eqn:Hd; [|discriminate].
    apply hexval_bound in Hd. apply IH in H.
    cbn [List.length]. rewrite Nat2N.inj_succ, N.pow_succ_r'.
    eapply N.lt_le_trans; [exact H|].
    replace ((acc + 1) * (16 * 16 ^ N.of_nat (List.length r)))%N
      with ((16 * acc + 16) * 16 ^ N.of_nat (List.length r))%N by lia.
    apply N.mul_le_mono_r. lia.
Qed.

(** A scanned id is a 128-bit number. *)
Lemma parseUUID_bound (src : string) (n : N) :
  parseUUID src = Ok n -> (n < 2 ^ 128)%N.
Proof.
  unfold parseUUID. set (s := list_ascii_of_string src).
  assert (Hdigits : forall ds, hexdecode 0 ds = Some n -> List.length ds = 32 ->
                               (n < 2 ^ 128)%N).
  { intros ds Hd Hlen. apply hexdecode_bound in Hd. rewrite Hlen in Hd. exact Hd. }
  destruct (Nat.eq_dec (List.length s) 36) as [H36 | H36].
  - rewrite H36.
    do 36 (destruct s as [|? s]; [discriminate H36|]).
    destruct s; [|discriminate H36]. cbv [slice]. cbn [skipn firstn Nat.sub app].
    match goal with |- context [hexdecode 0%N ?ds] =>
      destruct (hexdecode 0%N ds) eqn:Hd; [|discriminate];
      intros [= <-]; now apply (Hdigits ds) end.
  - destruct (Nat.eq_dec (List.length s) 32) as [H32 | H32].
    + rewrite H32.
      destruct (hexdecode 0%N s) eqn:Hd; [|discriminate].
      intros [= <-]. now apply (Hdigits s).
    + remember (List.length s) as k eqn:Hk. clear Hk.
      do 37 (destruct k as [|k]; [try discriminate; contradiction|]).
      discriminate.
Qed.

(** Scanning, printing and scanning again gives what the first scan gave. *)
Lemma UUID_Scan_normal (src : string) (u : UUID) :
  UUID_Scan src = Ok u -> UUID_Scan (UUID_String u) = Ok u.
Proof.
  unfold UUID_Scan. destruct (parseUUID src) as [n|] eqn:Hn; cbn [bind]; [|discriminate].
  intros [= <-]. apply parseUUID_bound in Hn.
  now apply (UUID_Scan_String n).
Qed.

Section WithLibraries.
Context {JSON : EncodingJSON} {IP : NetIP}.

(** The rows behind the trace of a request that was logged and answered. *)
Lemma rows_after_response r db id db1 body latency db2 :
  referential db ->
  LogRequest r db = (Ok id, db1) ->
  LogResponse (Response.mk id body latency) db1 = (None, db2) ->
  exists arg row blob,
    LogRequest_params r = Ok arg
    /\ InsertRequestLog arg db = (Ok row, db1)
    /\ id = UUID_String (RequestLog.RequestID row)
    /\ UUID_Scan id = Ok (RequestLog.RequestID row)
    /\ json_Marshal body = Ok blob
    /\ db2 = mkDB (request_log db1)
               (response_log db1 ++
                [ResponseLog.mk (RequestLog.RequestID row) blob
                   (ignoring_error Int4_zero (Int4_Scan latency))])
               (firewall_event db1)
    /\ GetRequestFullTrace (RequestLog.RequestID row) db2
       = Ok [joined_row row
               (Some (ResponseLog.mk (RequestLog.RequestID row) blob
                        (ignoring_error Int4_zero (Int4_Scan latency)))) None].
Proof.
  intros Href H Hresp.
  apply LogRequest_ok in H as [arg [row [Hp [Hins [-> _]]]]].
  destruct (InsertRequestLog_fresh _ _ _ _ Href Hins) as [Hlt [Hv _]].
  assert (Hscan : UUID_Scan (UUID_String (RequestLog.RequestID row))
                  = Ok (RequestLog.RequestID row)).
  { destruct (RequestLog.RequestID row) as [u v]. cbn in Hlt, Hv. subst v.
    now apply UUID_Scan_String. }
  unfold LogResponse in Hresp.
  cbn [Response.RequestID Response.Response Response.LatencyMs] in Hresp.
  rewrite Hscan in Hresp. cbn [ignoring_error] in Hresp.
  destruct (json_Marshal body) as [b|] eqn:Hb; cbn [wrap] in Hresp; [|discriminate].
  pose proof (GetRequestFullTrace_after_response arg db row db1 b
                (ignoring_error Int4_zero (Int4_Scan latency)) Href Hins) as Hafter.
  cbv zeta in Hafter. destruct Hafter as [Hinsert Hrows].
  rewrite Hinsert in Hresp. injection Hresp as <-.
  exists arg, row, b. repeat (split; [first [assumption | reflexivity]|]).
  assumption.
Qed.

(** The rows behind the trace once one firewall event is logged as well. *)
Lemma rows_after_event r db id db1 body latency db2 fe db3 :
  referential db ->
  LogRequest r db = (Ok id, db1) ->
  LogResponse (Response.mk id body latency) db1 = (None, db2) ->
  FirewallEvent.RequestID fe = id ->
  LogFirewallEvent fe db2 = (None, db3) ->
  exists arg row blob n,
    LogRequest_params r = Ok arg
    /\ InsertRequestLog arg db = (Ok row, db1)
    /\ id = UUID_String (RequestLog.RequestID row)
    /\ UUID_Scan id = Ok (RequestLog.RequestID row)
    /\ json_Marshal body = Ok blob
    /\ Numeric_Scan_float (FirewallEvent.RiskScore fe) = Ok n
    /\ GetRequestFullTrace (RequestLog.RequestID row) db3
       = Ok [joined_row row
               (Some (ResponseLog.mk (RequestLog.RequestID row) blob
                        (ignoring_error Int4_zero (Int4_Scan latency))))
               (Some (sqlc.FirewallEvent.mk (RequestLog.RequestID row)
                        (FirewallEvent.FirewallID fe) (FirewallEvent.FirewallType fe)
                        (mkBool (FirewallEvent.Blocked fe) true)
                        (mkText (FirewallEvent.BlockedReason fe) true) n))].
Proof.
  intros Href H Hresp Hfe Hev.
  destruct (rows_after_response _ _ _ _ _ _ _ Href H Hresp)
    as [arg [row [blob [Hp [Hins [Hid [Hscan [Hb [Hdb2 _]]]]]]]]].
  destruct (InsertRequestLog_fresh _ _ _ _ Href Hins)
    as [_ [Hv [Hdb1 [Hreq [Hnoresp Hnoev]]]]].
  unfold LogFirewallEvent, LogFirewallEvent_params in Hev.
  rewrite Hfe, Hscan in Hev. cbn [wrap bind Bool_Scan Text_Scan] in Hev.
  destruct (Numeric_Scan_float (FirewallEvent.RiskScore fe)) as [n|] eqn:Hn;
    cbn [wrap bind] in Hev; [|discriminate].
  unfold InsertFirewallEvent in Hev.
  cbn [InsertFirewallEventParams.RequestID InsertFirewallEventParams.FirewallID
       InsertFirewallEventParams.FirewallType InsertFirewallEventParams.Blocked
       InsertFirewallEventParams.BlockedReason InsertFirewallEventParams.RiskScore] in Hev.
  destruct (request_exists db2 (RequestLog.RequestID row)); [|discriminate].
  injection Hev as <-. exists arg, row, blob, n.
  repeat (split; [first [assumption | reflexivity]|]).
  unfold GetRequestFullTrace, responses_of, events_of. rewrite Hv.
  subst db2. cbn [andb request_log response_log firewall_event]. rewrite Hreq.
  subst db1. cbn [response_log firewall_event].
  rewrite !filter_app, Hnoresp, Hnoev.
  cbn [filter app ResponseLog.RequestID sqlc.FirewallEvent.RequestID].
  rewrite UUID_eqb_refl. reflexivity.
Qed.

End WithLibraries.

End flow_facts.


(** ** What a trace holds of the stored blobs *)

Section DecodeFacts.
Context {JSON : EncodingJSON} {IP : NetIP}.

Lemma decoding_of_fun (m a b : gomap) :
  decoding_of m a -> decoding_of m b -> a = b.
Proof.
  intros [d [Hd Ha]] [d' [Hd' Hb]]. rewrite Hd in Hd'. injection Hd' as <-.
  congruence.
Qed.

(** Blob by blob: the decodings of the encodings. *)
Lemma decoding_of_compose (ms : list gomap) (blobs : list bytes) :
  Forall2 (fun m b => json_Marshal m = Ok b) ms blobs ->
  forall ms',
    Forall2 (fun b m' => json_Unmarshal b = Ok m') blobs ms' ->
    Forall2 decoding_of ms ms'.
Proof.
  induction 1 as [|m b ms blobs Hm _ IH]; intros ms' H'.
  - inversion H'. constructor.
  - inversion H' as [|b' m' bs' ms'' Hb Hrest]; subst.
    constructor; [now exists b | now apply IH].
Qed.

Lemma decodable_blobs (ms : list gomap) (blobs : list bytes) :
  Forall2 (fun m b => json_Marshal m = Ok b) ms blobs ->
  forallb (fun b => is_ok (json_Unmarshal b)) blobs = true <-> Forall decodable ms.
Proof.
  induction 1 as [|m b ms blobs Hm _ IH]; cbn [forallb].
  - split; [constructor | reflexivity].
  - rewrite andb_true_iff, IH. split.
    + intros [Hb Hrest]. constructor; [now exists b | exact Hrest].
    + intros HF. inversion HF as [|m0 ms0 [b' [Hm' Hb']] Hrest]; subst.
      rewrite Hm in Hm'. injection Hm' as <-. now split.
Qed.

(** Where every map reads back as itself, the decodings are the maps. *)
Lemma decoding_of_same (ms ms' : list gomap) :
  Forall2 decoding_of ms ms' ->
  Forall (fun m => decoding_of m m) ms ->
  ms' = ms.
Proof.
  induction 1 as [|m m' ms ms' Hm _ IH]; intros HF; [reflexivity|].
  inversion HF as [|m0 ms0 Hsame Hrest]; subst.
  rewrite (decoding_of_fun m m' m Hm Hsame). f_equal. now apply IH.
Qed.

Lemma unmarshal_inputs_inv (blobs : list bytes) :
  forall acc out,
    audit.unmarshal_inputs blobs acc = Ok out ->
    exists ms,
      out = acc ++ ms /\ Forall2 (fun b m => json_Unmarshal b = Ok m) blobs ms.
Proof.
  induction blobs as [|b rest IH]; intros acc out H; cbn [audit.unmarshal_inputs] in H.
  - injection H as <-. exists []. split; [now rewrite app_nil_r | constructor].
  - destruct (json_Unmarshal b) as [m|] eqn:Hb; cbn [wrap bind] in H; [|discriminate].
    apply IH in H as [ms [-> HF]]. exists (m :: ms).
    rewrite <- app_assoc. split; [reflexivity | now constructor].
Qed.

Lemma unmarshal_messages_inv (blobs : list bytes) :
  forall acc out,
    store.unmarshal_messages blobs acc = Ok out ->
    exists ms,
      out = acc ++ ms /\ Forall2 (fun b m => json_Unmarshal b = Ok m) blobs ms.
Proof.
  induction blobs as [|b rest IH]; intros acc out H; cbn [store.unmarshal_messages] in H.
  - injection H as <-. exists []. split; [now rewrite app_nil_r | constructor].
  - destruct (json_Unmarshal b) as [m|] eqn:Hb; cbn [wrap bind] in H; [|discriminate].
    apply IH in H as [ms [-> HF]]. exists (m :: ms).
    rewrite <- app_assoc. split; [reflexivity | now constructor].
Qed.

(** The fields of a trace that come from the first row as they are. *)
Lemma trace_of_rows_ids row rest t :
  audit.trace_of_rows (row :: rest) = Ok t ->
  audit.Trace.RequestID t
  = pgtype.UUID_String (sqlc.GetRequestFullTraceRow.RequestID row)
  /\ audit.Trace.UserID t
     = pgtype.UUID_String (sqlc.GetRequestFullTraceRow.UserID row)
  /\ audit.Trace.ClientIP t
     = match sqlc.GetRequestFullTraceRow.ClientIp row with
       | Some ip => Addr_String ip
       | None => ""
       end.
Proof.
  unfold audit.trace_of_rows.
  destruct (audit.unmarshal_inputs _ _); cbn [bind]; [|discriminate].
  destruct (json_Unmarshal (sqlc.GetRequestFullTraceRow.Response row));
    cbn [bind wrap]; [|discriminate].
  match goal with |- bind ?x _ = _ -> _ => destruct x end; cbn [bind]; [|discriminate].
  destruct (audit.collect_events (row :: rest) []); cbn [bind]; [|discriminate].
  intros [= <-]. cbn. auto.
Qed.

End DecodeFacts.

(** X11: for any trace that [GetTrace] returns once a request and its
    response are logged: it carries the id that [LogRequest] returned and
    the request's model; its user id is the logged user id in canonical
    form (scanning it gives what scanning the logged text gave), or empty
    when the logged text was no UUID; its client address is the parsed
    address, or empty when none was given. *)
Theorem X11_trace_carries_normal_ids `{JSON : EncodingJSON} `{IP : NetIP} :
  forall (r : audit.Request.t) (db db1 db2 : sqlc.DB) (id : string)
         (body : gomap) (latency : Z) (t : audit.Trace.t),
    referential db ->
    audit.LogRequest r db = (Ok id, db1) ->
    audit.LogResponse (audit.Response.mk id body latency) db1 = (None, db2) ->
    audit.GetTrace id db2 = Ok t ->
    audit.Trace.RequestID t = id
    /\ audit.Trace.Model t = audit.Request.Model r
    /\ audit.Trace.UserID t = pgtype.UUID_String (scanned_id (audit.Request.UserID r))
    /\ (forall u,
           pgtype.UUID_Scan (audit.Request.UserID r) = Ok u ->
           pgtype.UUID_Scan (audit.Trace.UserID t) = Ok u)
    /\ (forall e,
           pgtype.UUID_Scan (audit.Request.UserID r) = Err e ->
           audit.Trace.UserID t = "")
    /\ (audit.Request.ClientIP r = "" -> audit.Trace.ClientIP t = "")
    /\ (forall ip,
           audit.Request.ClientIP r <> "" ->
           ParseAddr (audit.Request.ClientIP r) = Ok ip ->
           audit.Trace.ClientIP t = ip).
Proof.
  intros r db db1 db2 id body latency t Href H Hresp Ht.
  destruct (flow_facts.rows_after_response _ _ _ _ _ _ _ Href H Hresp)
    as [arg [row [blob [Hp [Hins [Hid [Hscan [Hb [_ Hrows]]]]]]]]].
  unfold audit.GetTrace in Ht. rewrite Hscan in Ht. cbn [ignoring_error] in Ht.
  rewrite Hrows in Ht. cbn [bind] in Ht.
  destruct (trace_of_rows_ids _ _ _ Ht) as [Htid [Htuser Htip]].
  destruct (trace_of_rows_parameters _ _ _ Ht) as [_ [Htmodel _]].
  rewrite Htid, Htuser, Htip, Htmodel.
  cbn [sqlc.joined_row sqlc.GetRequestFullTraceRow.RequestID
       sqlc.GetRequestFullTraceRow.UserID sqlc.GetRequestFullTraceRow.ClientIp
       sqlc.GetRequestFullTraceRow.Model].
  destruct (InsertRequestLog_row _ _ _ _ Hins) as [Huser [_ [_ Hip]]].
  destruct (sqlc_facts.InsertRequestLog_columns _ _ _ _ Hins) as [Hmodel _].
  destruct (LogRequest_params_ok r arg Hp) as [Hm [_ [_ [_ [Hu [_ [Hnone Hsome]]]]]]].
  rewrite Huser, Hip, Hu, Hmodel, Hm.
  split; [now symmetry|]. split; [reflexivity|]. split; [reflexivity|].
  split; [|split; [|split]].
  - intros u Hscanu. unfold scanned_id. rewrite Hscanu. cbn [ignoring_error].
    now apply (flow_facts.UUID_Scan_normal (audit.Request.UserID r)).
  - intros e He. unfold scanned_id. now rewrite He.
  - intros Hempty. now rewrite (Hnone Hempty).
  - intros ip Hne Hparse. destruct (Hsome Hne) as [ip' [Hparse' ->]].
    unfold Addr_String. congruence.
Qed.

Lemma X11_witness :
  exists t,
    @audit.GetTrace json.codec sample.request_id
      (snd (@audit.LogResponse json.codec
              (audit.Response.mk sample.request_id None 5)
              (snd (@audit.LogRequest json.codec netip.parser
                      fixtures.upper_case_request sqlc.empty))))
    = Ok t
    /\ audit.Trace.RequestID t = sample.request_id
    /\ audit.Trace.UserID t = "0a000000-0000-0000-0000-0000000000aa"
    /\ audit.Trace.ClientIP t = "127.0.0.1".
Proof.
  eexists. split; [vm_compute; reflexivity|].
  match goal with |- audit.Trace.RequestID ?t = _ /\ _ =>
    destruct (@X11_trace_carries_normal_ids json.codec netip.parser
                fixtures.upper_case_request sqlc.empty
                (snd (@audit.LogRequest json.codec netip.parser
                        fixtures.upper_case_request sqlc.empty))
                (snd (@audit.LogResponse json.codec
                        (audit.Response.mk sample.request_id None 5)
                        (snd (@audit.LogRequest json.codec netip.parser
                                fixtures.upper_case_request sqlc.empty))))
                sample.request_id None 5 t
                sqlc_facts.referential_empty eq_refl eq_refl eq_refl)
      as [Hid [_ [Huser [_ [_ [_ Hip]]]]]]
  end.
  split; [exact Hid|]. split.
  - rewrite Huser. reflexivity.
  - apply Hip; [discriminate | reflexivity].
Defined.

(** X12: the flow of the demonstration program.  A request, its response
    and one firewall event for the returned id are logged.  [GetTrace]
    then succeeds exactly when the encodings of the request's inputs and of
    the response decode and the stored score reads back as a [float64].
    Any trace it returns holds exactly that event, under the returned id
    and with the event's own fields; the trace's verdict, reason and score
    are the event's; the score is the logged score rounded to six decimals
    and read back; the response and the inputs are what decoding their
    encodings gives. *)
Theorem X12_logged_event_comes_back `{JSON : EncodingJSON} `{IP : NetIP} :
  forall (r : audit.Request.t) (db db1 db2 db3 : sqlc.DB) (id : string)
         (body : gomap) (latency : Z) (fe : audit.FirewallEvent.t),
    referential db ->
    audit.LogRequest r db = (Ok id, db1) ->
    audit.LogResponse (audit.Response.mk id body latency) db1 = (None, db2) ->
    audit.FirewallEvent.RequestID fe = id ->
    audit.LogFirewallEvent fe db2 = (None, db3) ->
    exists n,
      pgtype.Numeric_Scan_float (audit.FirewallEvent.RiskScore fe) = Ok n
      /\ (is_ok (audit.GetTrace id db3) = true <->
          Forall decodable (audit.Request.Inputs r)
          /\ decodable body
          /\ is_ok (pgtype.Float64Value n) = true)
      /\ (forall t,
             audit.GetTrace id db3 = Ok t ->
             exists f8,
               pgtype.Float64Value n = Ok f8
               /\ audit.Trace.FirewallInfo t
                  = [audit.FirewallEvent.mk id
                       (audit.FirewallEvent.FirewallID fe)
                       (audit.FirewallEvent.FirewallType fe)
                       (audit.FirewallEvent.Blocked fe)
                       (audit.FirewallEvent.BlockedReason fe)
                       (pgtype.Float64 f8)]
               /\ audit.Trace.Blocked t = audit.FirewallEvent.Blocked fe
               /\ audit.Trace.BlockedReason t = audit.FirewallEvent.BlockedReason fe
               /\ audit.Trace.RiskScore t = pgtype.Float64 f8
               /\ decoding_of body (audit.Trace.Response t)
               /\ Forall2 decoding_of (audit.Request.Inputs r) (audit.Trace.Inputs t)).
Proof.
  intros r db db1 db2 db3 id body latency fe Href H Hresp Hfe Hev.
  destruct (flow_facts.rows_after_event _ _ _ _ _ _ _ _ _ Href H Hresp Hfe Hev)
    as [arg [row [blob [n [Hp [Hins [Hid [Hscan [Hb [Hn Hrows]]]]]]]]]].
  exists n. split; [exact Hn|].
  assert (Hvalid : pgtype.Numeric_Valid n = true).
  { clear -Hn. unfold pgtype.Numeric_Scan_float in Hn.
    destruct (Prim2SF _); try discriminate; now injection Hn as <-. }
  assert (HF : Forall2 (fun m b => json_Marshal m = Ok b) (audit.Request.Inputs r)
                       (sqlc.RequestLog.Inputs row)).
  { destruct (sqlc_facts.InsertRequestLog_columns _ _ _ _ Hins) as [_ [-> _]].
    now destruct (LogRequest_params_ok r arg Hp) as [_ [_ [HF _]]]. }
  unfold audit.GetTrace. rewrite Hscan. cbn [ignoring_error]. rewrite Hrows.
  cbn [bind]. split.
  - rewrite trace_of_rows_is_ok. unfold event_decodes.
    cbn [sqlc.joined_row sqlc.GetRequestFullTraceRow.Inputs
         sqlc.GetRequestFullTraceRow.Response sqlc.GetRequestFullTraceRow.RiskScore
         sqlc.GetRequestFullTraceRow.FirewallID sqlc.ResponseLog.Response
         sqlc.FirewallEvent.RiskScore sqlc.FirewallEvent.FirewallID
         pgtype.Text_Valid forallb negb orb].
    rewrite Hvalid. cbn [negb orb]. rewrite !andb_true_iff, (decodable_blobs _ _ HF).
    split.
    + intros [[[Hi Hr] Hf] _]. split; [exact Hi|]. split; [now exists blob | exact Hf].
    + intros [Hi [[b' [Hb' Hr]] Hf]]. rewrite Hb in Hb'. injection Hb' as <-.
      repeat split; assumption.
  - intros t Ht. unfold audit.trace_of_rows, sqlc.joined_row in Ht.
    cbn [sqlc.GetRequestFullTraceRow.Inputs sqlc.GetRequestFullTraceRow.Response
         sqlc.GetRequestFullTraceRow.Parameters sqlc.GetRequestFullTraceRow.RiskScore
         sqlc.GetRequestFullTraceRow.FirewallID sqlc.GetRequestFullTraceRow.Model
         sqlc.ResponseLog.Response sqlc.FirewallEvent.RiskScore audit.collect_events
         sqlc.FirewallEvent.FirewallID pgtype.Text_Valid] in Ht.
    destruct (audit.unmarshal_inputs (sqlc.RequestLog.Inputs row) []) as [inputs|] eqn:Hin;
      cbn [bind] in Ht; [|discriminate].
    destruct (json_Unmarshal blob) as [response|] eqn:Hr;
      cbn [bind wrap] in Ht; [|discriminate].
    rewrite Hvalid in Ht.
    destruct (pgtype.Float64Value n) as [f8|] eqn:Hf; cbn [bind wrap app] in Ht;
      [|discriminate].
    injection Ht as <-. exists f8. split; [reflexivity|]. cbn. rewrite Hid.
    do 4 (split; [reflexivity|]). split; [now exists blob|].
    apply unmarshal_inputs_inv in Hin as [ms [-> HF']]. cbn [app].
    now apply (decoding_of_compose _ _ HF).
Qed.

Lemma X12_witness :
  exists t,
    @audit.GetTrace json.codec sample.request_id
      (snd (@audit.LogFirewallEvent fixtures.blocking_event
              (snd (@audit.LogResponse json.codec
                      (audit.Response.mk sample.request_id None 5)
                      (snd (@audit.LogRequest json.codec netip.parser
                              sample.audit_request sqlc.empty))))))
    = Ok t
    /\ List.length (audit.Trace.FirewallInfo t) = 1
    /\ audit.Trace.Blocked t = audit.FirewallEvent.Blocked fixtures.blocking_event.
Proof.
  destruct (@X12_logged_event_comes_back json.codec netip.parser
              sample.audit_request sqlc.empty
              (snd (@audit.LogRequest json.codec netip.parser
                      sample.audit_request sqlc.empty))
              (snd (@audit.LogResponse json.codec
                      (audit.Response.mk sample.request_id None 5)
                      (snd (@audit.LogRequest json.codec netip.parser
                              sample.audit_request sqlc.empty))))
              (snd (@audit.LogFirewallEvent fixtures.blocking_event
                      (snd (@audit.LogResponse json.codec
                              (audit.Response.mk sample.request_id None 5)
                              (snd (@audit.LogRequest json.codec netip.parser
                                      sample.audit_request sqlc.empty))))))
              sample.request_id None 5 fixtures.blocking_event
              sqlc_facts.referential_empty eq_refl eq_refl eq_refl eq_refl)
    as [n [_ [_ Hfields]]].
  eexists. split; [vm_compute; reflexivity|].
  match goal with |- List.length (audit.Trace.FirewallInfo ?t) = 1 /\ _ =>
    destruct (Hfields t eq_refl) as [f8 [_ [Hinfo [Hblocked _]]]]
  end.
  split; [now rewrite Hinfo | exact Hblocked].
Defined.
(** X13: [LogFirewallEvent] checks the request id before the score and the
    score before the store.  With a request id that is no UUID the error is
    the id's, whatever the score is; with a UUID and an infinite score the
    error is the score's, whether the request exists or not.  In both
    cases the store is left as it was. *)
Theorem X13_LogFirewallEvent_checks_in_order :
  forall (fe : audit.FirewallEvent.t) (db : sqlc.DB),
    (forall e,
        pgtype.UUID_Scan (audit.FirewallEvent.RequestID fe) = Err e ->
        audit.LogFirewallEvent fe db = (Some ("invalid request ID: " ++ e)%string, db))
    /\ (forall u,
           pgtype.UUID_Scan (audit.FirewallEvent.RequestID fe) = Ok u ->
           not_infinite (audit.FirewallEvent.RiskScore fe) = false ->
           exists e,
             audit.LogFirewallEvent fe db
             = (Some ("invalid risk score: " ++ e)%string, db)).
Proof.
  intros fe db. split.
  - intros e He. unfold audit.LogFirewallEvent, audit.LogFirewallEvent_params.
    rewrite He. reflexivity.
  - intros u Hu Hinf. destruct (Numeric_Scan_float_error _ Hinf) as [e He].
    exists e. unfold audit.LogFirewallEvent, audit.LogFirewallEvent_params.
    rewrite Hu, He. reflexivity.
Qed.

Lemma X13_witness :
  (exists e,
      audit.LogFirewallEvent fixtures.malformed_id_event sample.one_request
      = (Some ("invalid request ID: " ++ e)%string, sample.one_request))
  /\ (exists e,
         audit.LogFirewallEvent fixtures.infinite_score_event sqlc.empty
         = (Some ("invalid risk score: " ++ e)%string, sqlc.empty)).
Proof.
  split.
  - eexists.
    apply (proj1 (X13_LogFirewallEvent_checks_in_order
                    fixtures.malformed_id_event sample.one_request)).
    reflexivity.
  - apply (proj2 (X13_LogFirewallEvent_checks_in_order
                    fixtures.infinite_score_event sqlc.empty)
             (pgtype.mkUUID 0 true)); reflexivity.
Defined.

(** ** The pooled store *)

Module store_flow_facts.
Import pgtype pgtype_facts store store.postgres store_facts.

Lemma store_InsertRequestLog_fresh arg db row db' :
  store_referential db ->
  InsertRequestLog arg db = (Ok row, db') ->
  let id := RequestLog.RequestID row in
  (Bytes id < 2 ^ 128)%N
  /\ UUID_Valid id = true
  /\ db' = mkDB (request_log db ++ [row]) (response_log db) (firewall_event db)
  /\ filter (fun r => UUID_eqb (RequestLog.RequestID r) id) (request_log db') = [row]
  /\ filter (fun r => UUID_eqb (InsertResponseLogParams.RequestID r) id)
            (response_log db) = []
  /\ filter (fun e => UUID_eqb (InsertFirewallEventParams.RequestID e) id)
            (firewall_event db) = [].
Proof.
  unfold InsertRequestLog. intros [Hr He] H.
  destruct (gen_random_uuid db) as [u|] eqn:G; [|discriminate].
  injection H as <- <-. cbn [RequestLog.RequestID Bytes UUID_Valid request_log].
  apply store_gen_random_uuid_fresh in G as [Hlt Hfresh].
  repeat (split; [first [exact Hlt | reflexivity]|]).
  split; [|split].
  - rewrite filter_app. cbn [filter RequestLog.RequestID].
    rewrite UUID_eqb_refl, sqlc_facts.filter_none; [reflexivity|].
    intros r Hin. destruct (UUID_eqb _ _) eqn:E; [|reflexivity].
    apply UUID_eqb_eq in E. exfalso. apply Hfresh. unfold used_ids.
    change u with (Bytes (mkUUID u true)). rewrite <- E.
    now apply (in_map (fun r => Bytes (RequestLog.RequestID r))).
  - apply sqlc_facts.filter_none. intros r Hin.
    destruct (UUID_eqb _ _) eqn:E; [|reflexivity].
    apply UUID_eqb_eq in E. exfalso. apply Hfresh.
    rewrite Forall_forall in Hr. apply Hr in Hin. rewrite E in Hin.
    now apply store_request_exists_used in Hin.
  - apply sqlc_facts.filter_none. intros r Hin.
    destruct (UUID_eqb _ _) eqn:E; [|reflexivity].
    apply UUID_eqb_eq in E. exfalso. apply Hfresh.
    rewrite Forall_forall in He. apply He in Hin. rewrite E in Hin.
    now apply store_request_exists_used in Hin.
Qed.

Section WithLibraries.
Context {JSON : EncodingJSON} {IP : NetIP}.

(** What a successful [Store.LogRequest] stored. *)
Lemma store_LogRequest_row r db id db' :
  LogRequest r db = (Ok id, db') ->
  exists arg row,
    InsertRequestLog arg db = (Ok row, db')
    /\ id = UUID_String (RequestLog.RequestID row)
    /\ RequestLog.Model row = Request.Model r
    /\ Forall2 (fun m b => json_Marshal m = Ok b)
               (Request.Messages r) (RequestLog.Messages row)
    /\ json_Marshal (Request.Parameters r) = Ok (RequestLog.Parameters row).
Proof.
  intros H. apply store_LogRequest_ok in H as [arg [row [Hp [Hins [-> _]]]]].
  exists arg, row. split; [assumption|]. split; [reflexivity|].
  unfold InsertRequestLog in Hins.
  destruct (gen_random_uuid db) as [u|]; [|discriminate].
  injection Hins as <- _.
  cbn [RequestLog.Model RequestLog.Messages RequestLog.Parameters].
  unfold LogRequest_params in Hp.
  destruct (marshal_messages (Request.Messages r) []) as [blobs|] eqn:Hm;
    cbn in Hp; [|discriminate].
  destruct (json_Marshal (Request.Parameters r)) as [pb|] eqn:Hpm;
    cbn in Hp; [|discriminate].
  match type of Hp with bind ?x _ = _ => destruct x as [ip|] end;
    cbn in Hp; [|discriminate].
  injection Hp as <-. cbn.
  apply store_marshal_messages_ok in Hm as [blobs' [-> HF]]. cbn [app].
  auto.
Qed.

(** The trace of a single joined row that carries no firewall event. *)
Lemma store_trace_of_one_row row resp t :
  trace_of_rows [joined_row row resp None] = Ok t ->
  Trace.RequestID t = UUID_String (RequestLog.RequestID row)
  /\ Trace.Model t = RequestLog.Model row
  /\ unmarshal_messages (RequestLog.Messages row) [] = Ok (Trace.Messages t)
  /\ Trace.Parameters t = json_Unmarshal_unchecked (RequestLog.Parameters row)
  /\ Trace.Response t
     = match resp with
       | Some a => InsertResponseLogParams.Response a
       | None => ""
       end
  /\ Trace.FirewallInfo t = []
  /\ Trace.RiskScore t = 0%float
  /\ Trace.Blocked t = false
  /\ Trace.BlockedReason t = "".
Proof.
  unfold trace_of_rows, joined_row.
  cbn [GetRequestFullTraceRow.Messages GetRequestFullTraceRow.Parameters
       GetRequestFullTraceRow.RiskScore GetRequestFullTraceRow.FirewallID
       GetRequestFullTraceRow.Response GetRequestFullTraceRow.Model
       collect_events Numeric_zero Numeric_Valid Text_zero Text_Valid].
  destruct (unmarshal_messages (RequestLog.Messages row) []) as [ms|];
    cbn [bind]; [|discriminate].
  intros [= <-]. cbn. repeat (split; [reflexivity|]).
  split; [now destruct resp | auto].
Qed.

Lemma store_trace_of_one_row_is_ok row resp :
  is_ok (trace_of_rows [joined_row row resp None])
  = forallb (fun b => is_ok (json_Unmarshal b)) (RequestLog.Messages row).
Proof.
  rewrite store_trace_of_rows_is_ok. unfold store_event_decodes, joined_row.
  cbn [GetRequestFullTraceRow.Messages GetRequestFullTraceRow.RiskScore
       GetRequestFullTraceRow.FirewallID Numeric_zero Numeric_Valid Text_zero
       Text_Valid forallb negb orb].
  now rewrite !andb_true_r.
Qed.

End WithLibraries.

End store_flow_facts.

(** X14: the pooled store gives a logged request back before any response
    is logged.  [Store.LogRequest] then [Store.GetTrace] on the returned id
    succeeds exactly when the encoding of every message decodes.  Any trace
    it returns has that id and the request's model; its messages are what
    decoding the encodings of the request's messages gives, and its
    parameters what decoding the encoding of the request's parameters left;
    both are the request's own wherever the library reads back what it
    wrote.  The response text is empty, there is no firewall event, the
    score is zero and there is no verdict. *)
Theorem X14_store_trace_of_a_pending_request `{JSON : EncodingJSON} `{IP : NetIP} :
  forall (r : store.Request.t) (db db1 : store.postgres.DB) (id : string),
    store_referential db ->
    store.LogRequest r db = (Ok id, db1) ->
    (is_ok (store.GetTrace id db1) = true <->
     Forall decodable (store.Request.Messages r))
    /\ forall t,
        store.GetTrace id db1 = Ok t ->
        store.Trace.RequestID t = id
        /\ store.Trace.Model t = store.Request.Model r
        /\ Forall2 decoding_of (store.Request.Messages r) (store.Trace.Messages t)
        /\ (Forall (fun m => decoding_of m m) (store.Request.Messages r) ->
            store.Trace.Messages t = store.Request.Messages r)
        /\ (exists data,
               json_Marshal (store.Request.Parameters r) = Ok data
               /\ store.Trace.Parameters t = json_Unmarshal_unchecked data)
        /\ (decoding_of (store.Request.Parameters r) (store.Request.Parameters r) ->
            store.Trace.Parameters t = store.Request.Parameters r)
        /\ store.Trace.Response t = ""
        /\ store.Trace.FirewallInfo t = []
        /\ store.Trace.RiskScore t = 0%float
        /\ store.Trace.Blocked t = false
        /\ store.Trace.BlockedReason t = "".
Proof.
  intros r db db1 id Href H.
  destruct (store_flow_facts.store_LogRequest_row _ _ _ _ H)
    as [arg [row [Hins [-> [Hmodel [HF Hpar]]]]]].
  destruct (store_facts.store_GetRequestFullTrace_after_insert _ _ _ _ Href Hins)
    as [Hlt [Hv [_ [_ [_ [_ Hrows]]]]]].
  assert (Hscan : pgtype.UUID_Scan
                    (pgtype.UUID_String (store.postgres.RequestLog.RequestID row))
                  = Ok (store.postgres.RequestLog.RequestID row)).
  { destruct (store.postgres.RequestLog.RequestID row) as [u v]. cbn in Hlt, Hv.
    subst v. now apply pgtype_facts.UUID_Scan_String. }
  unfold store.GetTrace. rewrite Hscan. cbn [ignoring_error]. rewrite Hrows.
  cbn [bind]. split.
  - rewrite store_flow_facts.store_trace_of_one_row_is_ok.
    apply (decodable_blobs _ _ HF).
  - intros t Ht.
    destruct (store_flow_facts.store_trace_of_one_row _ _ _ Ht)
      as [Hid [Hm [Hmsgs [Hp [Hresp Hrest]]]]].
    apply unmarshal_messages_inv in Hmsgs as [ms [Hms HF']]. cbn [app] in Hms.
    rewrite <- Hms in HF'.
    pose proof (decoding_of_compose _ _ HF _ HF') as Hdec.
    split; [exact Hid|]. split; [now rewrite Hm|]. split; [exact Hdec|].
    split; [now apply decoding_of_same|].
    split; [exists (store.postgres.RequestLog.Parameters row); now split|].
    split; [|exact (conj Hresp Hrest)].
    intros [data [Hd Hu]]. rewrite Hpar in Hd. injection Hd as <-.
    rewrite Hp. now apply json_Unmarshal_unchecked_ok.
Qed.

Lemma X14_witness :
  exists t,
    @store.GetTrace json.codec sample.request_id sample.one_store_request = Ok t
    /\ store.Trace.Messages t = store.Request.Messages sample.store_request
    /\ store.Trace.Response t = "".
Proof.
  eexists. split; [vm_compute; reflexivity|].
  match goal with |- store.Trace.Messages ?t = _ /\ _ =>
    destruct (proj2 (@X14_store_trace_of_a_pending_request json.codec netip.parser
                       sample.store_request store.postgres.empty
                       sample.one_store_request sample.request_id
                       store_facts.store_referential_empty eq_refl)
                t eq_refl)
      as [_ [_ [_ [Hm [_ [_ [Hr _]]]]]]]
  end.
  split; [|exact Hr].
  apply Hm. repeat constructor. eexists. split; reflexivity.
Defined.

(** X15: [Store.LogResponse] for a logged request never fails, and of the
    response it stores the text only: the latency and the three token
    counts are Go [int]s, which [Int4.Scan] does not read, and the errors
    of those scans are dropped, so all four columns are stored as NULL
    whatever numbers were given.  [Store.GetTrace] then succeeds exactly
    when the encoding of every message decodes, and any trace it returns
    carries the response text, the returned id, the request's model, the
    decodings of the encodings of the request's messages and no firewall
    event. *)
Theorem X15_store_response_keeps_the_text_only `{JSON : EncodingJSON} `{IP : NetIP} :
  forall (r : store.Request.t) (db db1 : store.postgres.DB) (id : string)
         (resp : store.Response.t),
    store_referential db ->
    store.LogRequest r db = (Ok id, db1) ->
    store.Response.RequestID resp = id ->
    exists u,
      pgtype.UUID_Scan id = Ok u
      /\ store.LogResponse resp db1
         = (None,
            store.postgres.mkDB (store.postgres.request_log db1)
              (store.postgres.response_log db1 ++
               [store.postgres.InsertResponseLogParams.mk u
                  (store.Response.Response resp)
                  pgtype.Int4_zero pgtype.Int4_zero pgtype.Int4_zero pgtype.Int4_zero])
              (store.postgres.firewall_event db1))
      /\ (is_ok (store.GetTrace id (snd (store.LogResponse resp db1))) = true <->
          Forall decodable (store.Request.Messages r))
      /\ forall t,
          store.GetTrace id (snd (store.LogResponse resp db1)) = Ok t ->
          store.Trace.Response t = store.Response.Response resp
          /\ store.Trace.RequestID t = id
          /\ store.Trace.Model t = store.Request.Model r
          /\ Forall2 decoding_of (store.Request.Messages r) (store.Trace.Messages t)
          /\ store.Trace.FirewallInfo t = [].
Proof.
  intros r db db1 id resp Href H Hid.
  destruct (store_flow_facts.store_LogRequest_row _ _ _ _ H)
    as [arg [row [Hins [Hrow [Hmodel [HF Hpar]]]]]].
  destruct (store_flow_facts.store_InsertRequestLog_fresh _ _ _ _ Href Hins)
    as [Hlt [Hv [Hdb1 [Hreq [Hnoresp Hnoev]]]]].
  assert (Hscan : pgtype.UUID_Scan id = Ok (store.postgres.RequestLog.RequestID row)).
  { rewrite Hrow. destruct (store.postgres.RequestLog.RequestID row) as [u v].
    cbn in Hlt, Hv. subst v. now apply pgtype_facts.UUID_Scan_String. }
  assert (Hex : store.postgres.request_exists db1 (store.postgres.RequestLog.RequestID row)
                = true).
  { unfold store.postgres.request_exists. rewrite Hv. cbn [andb].
    apply existsb_exists. exists row. split; [|apply pgtype_facts.UUID_eqb_refl].
    rewrite Hdb1. cbn. apply in_or_app. right. now left. }
  assert (Hlog : store.LogResponse resp db1
                 = (None,
                    store.postgres.mkDB (store.postgres.request_log db1)
                      (store.postgres.response_log db1 ++
                       [store.postgres.InsertResponseLogParams.mk
                          (store.postgres.RequestLog.RequestID row)
                          (store.Response.Response resp)
                          pgtype.Int4_zero pgtype.Int4_zero pgtype.Int4_zero
                          pgtype.Int4_zero])
                      (store.postgres.firewall_event db1))).
  { unfold store.LogResponse. rewrite Hid, Hscan.
    cbn [ignoring_error store.Int4_Scan_int]. unfold store.postgres.InsertResponseLog.
    cbn [store.postgres.InsertResponseLogParams.RequestID]. now rewrite Hex. }
  exists (store.postgres.RequestLog.RequestID row).
  split; [exact Hscan|]. split; [exact Hlog|]. rewrite Hlog. cbn [snd].
  unfold store.GetTrace. rewrite Hscan. cbn [ignoring_error].
  unfold store.postgres.GetRequestFullTrace, store.postgres.responses_of,
    store.postgres.events_of.
  rewrite Hv.
  cbn [andb store.postgres.request_log store.postgres.response_log
       store.postgres.firewall_event].
  rewrite Hreq. rewrite Hdb1.
  cbn [store.postgres.response_log store.postgres.firewall_event].
  rewrite filter_app, Hnoresp, Hnoev.
  cbn [filter app store.postgres.InsertResponseLogParams.RequestID].
  rewrite pgtype_facts.UUID_eqb_refl. cbn [flat_map sqlc.left_join map app bind].
  split.
  - rewrite store_flow_facts.store_trace_of_one_row_is_ok.
    apply (decodable_blobs _ _ HF).
  - intros t Ht.
    destruct (store_flow_facts.store_trace_of_one_row _ _ _ Ht)
      as [Htid [Hm [Hmsgs [_ [Hresp [Hinfo _]]]]]].
    apply unmarshal_messages_inv in Hmsgs as [ms [Hms HF']]. cbn [app] in Hms.
    rewrite <- Hms in HF'.
    split; [exact Hresp|]. split; [now rewrite Htid|]. split; [now rewrite Hm|].
    split; [exact (decoding_of_compose _ _ HF _ HF') | exact Hinfo].
Qed.

Lemma X15_witness :
  exists t,
    @store.GetTrace json.codec sample.request_id
      (snd (store.LogResponse
              (store.Response.mk sample.request_id "Quantum tunnelling" 1200 11 22 33)
              sample.one_store_request))
    = Ok t
    /\ store.Trace.Response t = "Quantum tunnelling"
    /\ map store.postgres.InsertResponseLogParams.LatencyMs
         (store.postgres.response_log
            (snd (store.LogResponse
                    (store.Response.mk sample.request_id "Quantum tunnelling"
                       1200 11 22 33)
                    sample.one_store_request)))
       = [pgtype.Int4_zero].
Proof.
  destruct (@X15_store_response_keeps_the_text_only json.codec netip.parser
              sample.store_request store.postgres.empty sample.one_store_request
              sample.request_id
              (store.Response.mk sample.request_id "Quantum tunnelling" 1200 11 22 33)
              store_facts.store_referential_empty eq_refl eq_refl)
    as [u [_ [Hlog [_ Hfields]]]].
  eexists. split; [vm_compute; reflexivity|].
  match goal with |- store.Trace.Response ?t = _ /\ _ =>
    destruct (Hfields t eq_refl) as [Hr _]
  end.
  split; [exact Hr|]. rewrite Hlog. reflexivity.
Defined.
